(** * agent-crm: a shallow embedding of the audit-logged mutation engine

    The development follows the layout of the repository:

    - [PyStr], [PyDate]: the fragments of Python's [str], [re] and [datetime]
      that [scripts/crm.py] calls;
    - [Temporal]: [parse_date] of [scripts/crm.py];
    - [Store], [Crm]: the sqlite store, [audit_log] and the CRUD commands of
      [scripts/crm.py];
    - [Backup]: [scripts/crm-backup.py];
    - [AuditSpec], [ResolverSpec], [DealSpec], [PipelineSpec], [BackupSpec]:
      the vocabulary of the properties and the stores of the examples;
    - the modules whose names end in [Facts]: the properties.

    Strings are byte strings: characters above 127 are carried along
    unchanged by [lower] and are not white space. *)

From Stdlib Require Import ZArith QArith List String Ascii Bool Lia.
From Stdlib Require Import Sorting.Sorted Sorting.Permutation.
From Stdlib Require Import Structures.OrdersEx.
Import ListNotations.

Local Open Scope string_scope.
Local Open Scope Z_scope.

(** ** Outcomes of a Python call *)

Inductive exn : Type :=
| ValueError
| OverflowError
| NameError
| TypeError
| OSError
| OperationalError.

(** A call returns a value, leaves the process through [sys.exit] after
    printing an error object, or propagates an exception. *)
Inductive outcome (A : Type) : Type :=
| Returns (a : A)
| Exits (code : Z) (error : string)
| Raises (e : exn).

Arguments Returns {A} a.
Arguments Exits {A} code error.
Arguments Raises {A} e.

Definition obind {A B : Type} (o : outcome A) (k : A -> outcome B) : outcome B :=
  match o with
  | Returns a => k a
  | Exits c m => Exits c m
  | Raises e => Raises e
  end.

(** ** Python strings *)

Module PyStr.

Definition code (c : ascii) : Z := Z.of_nat (nat_of_ascii c).

Definition between (lo hi : Z) (c : ascii) : bool :=
  (lo <=? code c) && (code c <=? hi).

Definition is_upper (c : ascii) : bool := between 65 90 c.
Definition is_digit (c : ascii) : bool := between 48 57 c.
Definition is_nonzero_digit (c : ascii) : bool := between 49 57 c.

(** [str.isspace] on one character: TAB, LF, VT, FF, CR, the four
    separators 28..31 and the blank. *)
Definition is_space (c : ascii) : bool :=
  between 9 13 c || between 28 31 c || (code c =? 32).

Definition lower_char (c : ascii) : ascii :=
  if is_upper c then ascii_of_nat (nat_of_ascii c + 32) else c.

(** [s.lower()] *)
Fixpoint lower (s : string) : string :=
  match s with
  | EmptyString => EmptyString
  | String c r => String (lower_char c) (lower r)
  end.

Fixpoint lstrip (s : string) : string :=
  match s with
  | EmptyString => EmptyString
  | String c r => if is_space c then lstrip r else s
  end.

(** [rstrip] keeps a character when it is not white space or when
    something survives to its right. *)
Fixpoint rstrip (s : string) : string :=
  match s with
  | EmptyString => EmptyString
  | String c r =>
      match rstrip r with
      | EmptyString => if is_space c then EmptyString else String c EmptyString
      | r' => String c r'
      end
  end.

(** [s.strip()] *)
Definition strip (s : string) : string := rstrip (lstrip s).

(** [s.startswith(p)] *)
Definition startswith (p s : string) : bool := String.prefix p s.

(** [s[n:]] for a non-negative literal [n] *)
Fixpoint drop (n : nat) (s : string) : string :=
  match n, s with
  | O, _ => s
  | S n', String _ r => drop n' r
  | S _, EmptyString => EmptyString
  end.

(** [s[:n]] for a non-negative literal [n] *)
Fixpoint take (n : nat) (s : string) : string :=
  match n, s with
  | S n', String c r => String c (take n' r)
  | _, _ => EmptyString
  end.

(** [s.replace(old, new)] for a non-empty [old]: occurrences are replaced
    from the left and do not overlap. *)
Fixpoint replace_fuel (fuel : nat) (old new s : string) : string :=
  match fuel with
  | O => s
  | S f =>
      match s with
      | EmptyString => EmptyString
      | String c r =>
          if String.prefix old s
          then new ++ replace_fuel f old new (drop (String.length old) s)
          else String c (replace_fuel f old new r)
      end
  end.

Definition replace (old new s : string) : string :=
  replace_fuel (S (String.length s)) old new s.

(** [x in l] and [l.index(x)] on a list of strings *)
Definition mem (x : string) (l : list string) : bool :=
  existsb (String.eqb x) l.

Fixpoint index_of (x : string) (l : list string) : option Z :=
  match l with
  | [] => None
  | y :: r =>
      if String.eqb x y then Some 0
      else option_map Z.succ (index_of x r)
  end.

(** Decimal digits *)
Definition digit_val (c : ascii) : Z := code c - 48.

Definition digit_char (d : Z) : ascii := ascii_of_nat (Z.to_nat (48 + d mod 10)).

(** The longest prefix of digits and what follows it: the greedy [\d*]. *)
Fixpoint span_digits (s : string) : string * string :=
  match s with
  | String c r =>
      if is_digit c
      then let '(ds, rest) := span_digits r in (String c ds, rest)
      else (EmptyString, s)
  | EmptyString => (EmptyString, EmptyString)
  end.

(** [int(ds)] on a string of digits *)
Fixpoint int_of_digits_acc (acc : Z) (ds : string) : Z :=
  match ds with
  | EmptyString => acc
  | String c r => int_of_digits_acc (10 * acc + digit_val c) r
  end.

Definition int_of_digits (ds : string) : Z := int_of_digits_acc 0 ds.

(** ["%02d" % n] and ["%04d" % n] for [0 <= n] below the width's bound *)
Definition fmt02 (n : Z) : string :=
  String (digit_char (n / 10)) (String (digit_char n) EmptyString).

Definition fmt04 (n : Z) : string := fmt02 (n / 100) ++ fmt02 (n mod 100).

Definition fmt06 (n : Z) : string := fmt02 (n / 10000) ++ fmt04 (n mod 10000).

(** [a < b] on strings, by code points *)
Definition str_lt (a b : string) : bool :=
  match String_as_OT.compare a b with Lt => true | _ => false end.

(** The greedy [\s+]: at least one white-space character, then all that follow. *)
Definition skip_spaces1 (s : string) : option string :=
  match s with
  | String c r => if is_space c then Some (lstrip r) else None
  | EmptyString => None
  end.

(** A literal at the head of the subject *)
Definition expect (lit s : string) : option string :=
  if String.prefix lit s then Some (drop (String.length lit) s) else None.

End PyStr.

(** ** Python's naive [datetime] and [timedelta] *)

Module PyDate.

Record datetime : Type := mk_datetime {
  year : Z; month : Z; day : Z;
  hour : Z; minute : Z; second : Z; microsecond : Z
}.

Definition MINYEAR : Z := 1.
Definition MAXYEAR : Z := 9999.
Definition MAXORDINAL : Z := 3652059.
Definition MAX_DELTA_DAYS : Z := 999999999.

Definition is_leap (y : Z) : bool :=
  (y mod 4 =? 0) && (negb (y mod 100 =? 0) || (y mod 400 =? 0)).

(** [_DAYS_IN_MONTH] and [_DAYS_BEFORE_MONTH] of a common year *)
Definition DAYS_IN_MONTH (m : Z) : Z :=
  match m with
  | 1 => 31 | 2 => 28 | 3 => 31 | 4 => 30 | 5 => 31 | 6 => 30
  | 7 => 31 | 8 => 31 | 9 => 30 | 10 => 31 | 11 => 30 | 12 => 31
  | _ => 0
  end.

Definition DAYS_BEFORE_MONTH (m : Z) : Z :=
  match m with
  | 1 => 0 | 2 => 31 | 3 => 59 | 4 => 90 | 5 => 120 | 6 => 151
  | 7 => 181 | 8 => 212 | 9 => 243 | 10 => 273 | 11 => 304 | 12 => 334
  | _ => 0
  end.

Definition days_in_month (y m : Z) : Z :=
  if (m =? 2) && is_leap y then 29 else DAYS_IN_MONTH m.

Definition days_before_year (y : Z) : Z :=
  let p := y - 1 in p * 365 + p / 4 - p / 100 + p / 400.

Definition days_before_month (y m : Z) : Z :=
  DAYS_BEFORE_MONTH m + (if (2 <? m) && is_leap y then 1 else 0).

Definition ymd2ord (y m d : Z) : Z :=
  days_before_year y + days_before_month y m + d.

(** [_ord2ymd]: the 400/100/4/1-year cycles of the proleptic Gregorian
    calendar, then the month estimate [(n + 50) >> 5] corrected downwards. *)
Definition ord2ymd (ordinal : Z) : Z * Z * Z :=
  let n := ordinal - 1 in
  let n400 := n / 146097 in
  let n := n mod 146097 in
  let n100 := n / 36524 in
  let n := n mod 36524 in
  let n4 := n / 1461 in
  let n := n mod 1461 in
  let n1 := n / 365 in
  let n := n mod 365 in
  let y := n400 * 400 + 1 + n100 * 100 + n4 * 4 + n1 in
  if (n1 =? 4) || (n100 =? 4) then (y - 1, 12, 31)
  else
    let leapyear := (n1 =? 3) && (negb (n4 =? 24) || (n100 =? 3)) in
    let m := Z.shiftr (n + 50) 5 in
    let preceding :=
      DAYS_BEFORE_MONTH m + (if (2 <? m) && leapyear then 1 else 0) in
    if n <? preceding
    then
      let m' := m - 1 in
      let preceding' :=
        preceding
        - (DAYS_IN_MONTH m' + (if (m' =? 2) && leapyear then 1 else 0)) in
      (y, m', n - preceding' + 1)
    else (y, m, n - preceding + 1).

(** The range check of the [datetime] constructor on the date fields *)
Definition valid_date (y m d : Z) : bool :=
  (MINYEAR <=? y) && (y <=? MAXYEAR)
  && (1 <=? m) && (m <=? 12)
  && (1 <=? d) && (d <=? days_in_month y m).

Definition toordinal (t : datetime) : Z := ymd2ord (year t) (month t) (day t).

(** [t.weekday()]: Monday is 0 *)
Definition weekday (t : datetime) : Z := (toordinal t + 6) mod 7.

(** [t.replace(hour=0, minute=0, second=0, microsecond=0)] *)
Definition midnight (t : datetime) : datetime :=
  mk_datetime (year t) (month t) (day t) 0 0 0 0.

(** [t.replace(year=y)] *)
Definition replace_year (t : datetime) (y : Z) : outcome datetime :=
  if valid_date y (month t) (day t)
  then Returns (mk_datetime y (month t) (day t)
                  (hour t) (minute t) (second t) (microsecond t))
  else Raises ValueError.

(** [timedelta(days=k)], as its number of days *)
Definition timedelta_days (k : Z) : outcome Z :=
  if Z.abs k <=? MAX_DELTA_DAYS then Returns k else Raises OverflowError.

(** [timedelta(weeks=k)] *)
Definition timedelta_weeks (k : Z) : outcome Z := timedelta_days (7 * k).

(** [t + delta] for a delta of whole days *)
Definition add_days (t : datetime) (k : Z) : outcome datetime :=
  let o := toordinal t + k in
  if (0 <? o) && (o <=? MAXORDINAL)
  then
    let '(y, m, d) := ord2ymd o in
    Returns (mk_datetime y m d (hour t) (minute t) (second t) (microsecond t))
  else Raises OverflowError.

(** [t + timedelta(days=k)] and [t + timedelta(weeks=k)] *)
Definition plus_days (t : datetime) (k : Z) : outcome datetime :=
  obind (timedelta_days k) (add_days t).

Definition plus_weeks (t : datetime) (k : Z) : outcome datetime :=
  obind (timedelta_weeks k) (add_days t).

(** [a < b] *)
Definition fields (t : datetime) : list Z :=
  [year t; month t; day t; hour t; minute t; second t; microsecond t].

Fixpoint lex_lt (a b : list Z) : bool :=
  match a, b with
  | x :: a', y :: b' => (x <? y) || ((x =? y) && lex_lt a' b')
  | [], _ :: _ => true
  | _, [] => false
  end.

Definition lt (a b : datetime) : bool := lex_lt (fields a) (fields b).

(** Whether the date of ordinal [n] has ordinal [n] again, and whether
    that holds for [fuel] ordinals from [n] on *)
Definition ordinal_round_trips (n : Z) : bool :=
  let '(y, m, d) := ord2ymd n in ymd2ord y m d =? n.

Fixpoint round_trips_from (fuel : nat) (n : Z) : bool :=
  match fuel with
  | O => true
  | S f => ordinal_round_trips n && round_trips_from f (n + 1)
  end.

(** [t.isoformat()] *)
Definition isoformat (t : datetime) : string :=
  (PyStr.fmt04 (year t) ++ "-" ++ PyStr.fmt02 (month t) ++ "-"
   ++ PyStr.fmt02 (day t) ++ "T" ++ PyStr.fmt02 (hour t) ++ ":"
   ++ PyStr.fmt02 (minute t) ++ ":" ++ PyStr.fmt02 (second t)
   ++ (if (microsecond t =? 0)%Z then ""
       else "." ++ PyStr.fmt06 (microsecond t)))%string.

End PyDate.

(** ** The temporal resolver: [parse_date] of [scripts/crm.py] *)

Module Temporal.
Import PyStr PyDate.

(** *** [datetime.strptime] on the five formats of [parse_date]

    [strptime] turns the format into a regular expression, one group per
    directive, white space in the format becoming [\s+], and matches it at
    the start of the subject; text left over after the match is an error.
    In the five formats below every numeric directive is followed by a
    literal that is not a digit or ends the format, and no month name is a
    prefix of another one, so the first alternative that matches is the
    only one the backtracking matcher can settle on: the directives are
    read from left to right. *)

Inductive directive : Type :=
| DY            (* %Y : \d\d\d\d *)
| Dm            (* %m : 1[0-2]|0[1-9]|[1-9] *)
| Dd            (* %d : 3[0-1]|[1-2]\d|0[1-9]|[1-9]| [1-9] *)
| DB            (* %B : the month names *)
| Db            (* %b : the abbreviated month names *)
| Lit (s : string)
| Spaces.

Definition fmt_Y_m_d : list directive := [DY; Lit "-"; Dm; Lit "-"; Dd].
Definition fmt_m_d_Y : list directive := [Dm; Lit "/"; Dd; Lit "/"; DY].
Definition fmt_m_d : list directive := [Dm; Lit "/"; Dd].
Definition fmt_B_d : list directive := [DB; Spaces; Dd].
Definition fmt_b_d : list directive := [Db; Spaces; Dd].

Definition month_names : list string :=
  ["january"; "february"; "march"; "april"; "may"; "june"; "july";
   "august"; "september"; "october"; "november"; "december"].

Definition month_abbrs : list string :=
  ["jan"; "feb"; "mar"; "apr"; "may"; "jun"; "jul"; "aug"; "sep"; "oct";
   "nov"; "dec"].

Definition read_Y (s : string) : option (Z * string) :=
  match s with
  | String a (String b (String c (String d r))) =>
      if is_digit a && is_digit b && is_digit c && is_digit d
      then Some (int_of_digits (take 4 s), r)
      else None
  | _ => None
  end.

Definition read_m (s : string) : option (Z * string) :=
  match s with
  | String a r =>
      match r with
      | String b r' =>
          if (code a =? 49) && between 48 50 b then Some (10 + digit_val b, r')
          else if (code a =? 48) && is_nonzero_digit b then Some (digit_val b, r')
          else if is_nonzero_digit a then Some (digit_val a, r)
          else None
      | EmptyString =>
          if is_nonzero_digit a then Some (digit_val a, r) else None
      end
  | EmptyString => None
  end.

Definition read_d (s : string) : option (Z * string) :=
  match s with
  | String a r =>
      match r with
      | String b r' =>
          if (code a =? 51) && between 48 49 b then Some (30 + digit_val b, r')
          else if between 49 50 a && is_digit b
               then Some (10 * digit_val a + digit_val b, r')
          else if (code a =? 48) && is_nonzero_digit b then Some (digit_val b, r')
          else if is_nonzero_digit a then Some (digit_val a, r)
          else if (code a =? 32) && is_nonzero_digit b then Some (digit_val b, r')
          else None
      | EmptyString =>
          if is_nonzero_digit a then Some (digit_val a, r) else None
      end
  | EmptyString => None
  end.

(** The month whose name starts the subject, letter case ignored *)
Fixpoint read_name (names : list string) (k : Z) (s : string) : option (Z * string) :=
  match names with
  | [] => None
  | n :: rest =>
      if String.prefix n (lower s) then Some (k, drop (String.length n) s)
      else read_name rest (k + 1) s
  end.

(** What the directives found: the year when the format has one, month, day *)
Record found : Type := mk_found { f_year : option Z; f_month : Z; f_day : Z }.

Definition read_directive (d : directive) (acc : found) (s : string)
  : option (found * string) :=
  match d with
  | DY => match read_Y s with
          | Some (y, r) => Some (mk_found (Some y) (f_month acc) (f_day acc), r)
          | None => None
          end
  | Dm => match read_m s with
          | Some (m, r) => Some (mk_found (f_year acc) m (f_day acc), r)
          | None => None
          end
  | Dd => match read_d s with
          | Some (d, r) => Some (mk_found (f_year acc) (f_month acc) d, r)
          | None => None
          end
  | DB => match read_name month_names 1 s with
          | Some (m, r) => Some (mk_found (f_year acc) m (f_day acc), r)
          | None => None
          end
  | Db => match read_name month_abbrs 1 s with
          | Some (m, r) => Some (mk_found (f_year acc) m (f_day acc), r)
          | None => None
          end
  | Lit l => match expect l s with
             | Some r => Some (acc, r)
             | None => None
             end
  | Spaces => match skip_spaces1 s with
              | Some r => Some (acc, r)
              | None => None
              end
  end.

Fixpoint read_format (fmt : list directive) (acc : found) (s : string)
  : option (found * string) :=
  match fmt with
  | [] => Some (acc, s)
  | d :: rest =>
      match read_directive d acc s with
      | Some (acc', r) => read_format rest acc' r
      | None => None
      end
  end.

(** [datetime.strptime(s, fmt)]: a missing year is 1900, and the fields
    found must form a date. *)
Definition strptime (s : string) (fmt : list directive) : outcome datetime :=
  match read_format fmt (mk_found None 1 1) s with
  | Some (f, EmptyString) =>
      let y := match f_year f with Some y => y | None => 1900 end in
      if valid_date y (f_month f) (f_day f)
      then Returns (mk_datetime y (f_month f) (f_day f) 0 0 0 0)
      else Raises ValueError
  | _ => Raises ValueError
  end.

(** *** [re.match(r'in (\d+) (day|week|month)s?', s)]

    The match is anchored at the start only; the groups are the digits and
    the unit. *)
Inductive unit_name : Type := UDay | UWeek | UMonth.

Definition match_in_n (s : string) : option (string * unit_name) :=
  match expect "in " s with
  | None => None
  | Some r =>
      let '(ds, r1) := span_digits r in
      match ds with
      | EmptyString => None
      | _ =>
          match expect " " r1 with
          | None => None
          | Some r2 =>
              if String.prefix "day" r2 then Some (ds, UDay)
              else if String.prefix "week" r2 then Some (ds, UWeek)
              else if String.prefix "month" r2 then Some (ds, UMonth)
              else None
          end
      end
  end.

(** *** [parse_date] *)

Definition days : list string :=
  ["monday"; "tuesday"; "wednesday"; "thursday"; "friday"; "saturday";
   "sunday"].

Definition formats : list (list directive) :=
  [fmt_Y_m_d; fmt_m_d_Y; fmt_m_d; fmt_B_d; fmt_b_d].

(** [return d.isoformat()] *)
Definition iso (d : outcome datetime) : outcome (option string) :=
  obind d (fun t => Returns (Some (isoformat t))).

(** Each block of the function either returns (or raises) or falls
    through to the next one: [None] is the fall through. *)

(** [# Relative dates] *)
Definition relative_dates (today : datetime) (s : string)
  : option (outcome (option string)) :=
  if String.eqb s "today" then Some (iso (Returns today))
  else if String.eqb s "tomorrow" then Some (iso (plus_days today 1))
  else if String.eqb s "yesterday"
       then Some (iso (obind (timedelta_days 1) (fun k => add_days today (- k))))
  else None.

(** [# "next week", "next month"] *)
Definition next_unit (today : datetime) (s : string)
  : option (outcome (option string)) :=
  if startswith "next " s then
    let unit := drop 5 s in
    if String.eqb unit "week" then Some (iso (plus_weeks today 1))
    else if String.eqb unit "month" then Some (iso (plus_days today 30))
    else None
  else None.

(** [# "in N days/weeks"].  [int] is taken without a bound on the number
    of digits; a number too large for [timedelta] is an [OverflowError]. *)
Definition in_n_units (today : datetime) (s : string)
  : option (outcome (option string)) :=
  match match_in_n s with
  | Some (ds, u) =>
      let n := int_of_digits ds in
      match u with
      | UDay => Some (iso (plus_days today n))
      | UWeek => Some (iso (plus_weeks today n))
      | UMonth => Some (iso (plus_days today (n * 30)))
      end
  | None => None
  end.

(** [# Day names] *)
Definition day_names (today : datetime) (s : string)
  : option (outcome (option string)) :=
  if mem s days || (startswith "next " s && mem (drop 5 s) days) then
    match index_of (replace "next " "" s) days with
    | None => Some (Raises ValueError)
    | Some target_day =>
        let current_day := weekday today in
        let delta := target_day - current_day in
        let delta := if delta <=? 0 then delta + 7 else delta in
        Some (iso (plus_days today delta))
    end
  else None.

(** The body of the [try] for one format *)
Definition try_format (today : datetime) (s : string) (fmt : list directive)
  : outcome (option string) :=
  obind (strptime s fmt) (fun dt =>
  obind (if year dt =? 1900
         then obind (replace_year dt (year today)) (fun dt1 =>
                if lt dt1 today then replace_year dt1 (year today + 1)
                else Returns dt1)
         else Returns dt) (fun dt2 =>
  Returns (Some (isoformat dt2)))).

(** [# Try parsing as date]: [except ValueError: continue] *)
Fixpoint try_formats (today : datetime) (s : string) (fmts : list (list directive))
  : option (outcome (option string)) :=
  match fmts with
  | [] => None
  | fmt :: rest =>
      match try_format today s fmt with
      | Raises ValueError => try_formats today s rest
      | o => Some o
      end
  end.

Definition orelse {A : Type} (a : option A) (b : option A) : option A :=
  match a with Some _ => a | None => b end.

(** The blocks in the order of the function: what the first one that
    recognises the string returns, or nothing when none does *)
Definition recognise (today : datetime) (s : string)
  : option (outcome (option string)) :=
  orelse (relative_dates today s)
    (orelse (next_unit today s)
    (orelse (in_n_units today s)
    (orelse (day_names today s)
            (try_formats today s formats)))).

(** The function after [today] is bound, on the normalised string *)
Definition parse_normalised (today : datetime) (s : string)
  : outcome (option string) :=
  match recognise today s with
  | Some o => o
  | None => Returns (Some s)     (* Return as-is if unparseable *)
  end.

(** [parse_date(s)], the reading [now] of [datetime.now()] made explicit *)
Definition parse_date (now : datetime) (s : string) : outcome (option string) :=
  match s with
  | EmptyString => Returns None
  | _ =>
      let s := strip (lower s) in
      let today := midnight now in
      parse_normalised today s
  end.

End Temporal.

(** ** The sqlite store behind [get_db] *)

Module Store.
Import PyStr.

(** A value held in a column or bound to a [?].  [Tags l] is the TEXT
    that [json.dumps] prints for the list of strings [l]. *)
Inductive sqlval : Type :=
| Null
| Text (s : string)
| Int (z : Z)
| Real (q : Q)
| Tags (l : list string).

(** [sqlite3.Row], [dict(row)] and the dictionaries handed to [audit_log]:
    column names with their values, in column order. *)
Definition row : Type := list (string * sqlval).

Fixpoint lookup (k : string) (r : row) : option sqlval :=
  match r with
  | [] => None
  | (k', v) :: t => if String.eqb k k' then Some v else lookup k t
  end.

(** [row[k]] *)
Definition col (k : string) (r : row) : sqlval :=
  match lookup k r with Some v => v | None => Null end.

(** [SET k = v] on one row *)
Fixpoint set_col (k : string) (v : sqlval) (r : row) : row :=
  match r with
  | [] => []
  | (k', v') :: t =>
      if String.eqb k k' then (k', v) :: t else (k', v') :: set_col k v t
  end.

(** [SET k1 = v1, k2 = v2, ...] *)
Definition apply_updates (updates : row) (r : row) : row :=
  fold_left (fun acc kv => set_col (fst kv) (snd kv) acc) updates r.

(** [d[k] = v] on a Python dictionary: an existing key keeps its place *)
Fixpoint dict_set (k : string) (v : sqlval) (d : row) : row :=
  match d with
  | [] => [(k, v)]
  | (k', v') :: t =>
      if String.eqb k k' then (k', v) :: t else (k', v') :: dict_set k v t
  end.

(** A table: its rows with their rowids, in the order a scan visits them. *)
Definition table : Type := list (Z * row).

Inductive table_name : Type := Contacts | Deals | Interactions | Tasks.

Definition name_of (t : table_name) : string :=
  match t with
  | Contacts => "contacts"
  | Deals => "deals"
  | Interactions => "interactions"
  | Tasks => "tasks"
  end.

Inductive action : Type := INSERT | UPDATE | DELETE.

(** A row of [audit_log].  [old_values] and [new_values] hold the
    dictionary that [json.dumps] printed, or are NULL. *)
Record audit_entry : Type := mk_audit {
  a_table_name : string;
  a_record_id : sqlval;
  a_action : action;
  a_old_values : option row;
  a_new_values : option row;
  a_reason : option string;
  a_conversation_ref : option string;
  a_created_at : string
}.

Record db : Type := mk_db {
  contacts : table;
  deals : table;
  interactions : table;
  tasks : table;
  audit : list audit_entry
}.

Definition empty_db : db := mk_db [] [] [] [] [].

Definition get_table (t : table_name) (d : db) : table :=
  match t with
  | Contacts => contacts d
  | Deals => deals d
  | Interactions => interactions d
  | Tasks => tasks d
  end.

Definition set_table (t : table_name) (x : table) (d : db) : db :=
  match t with
  | Contacts => mk_db x (deals d) (interactions d) (tasks d) (audit d)
  | Deals => mk_db (contacts d) x (interactions d) (tasks d) (audit d)
  | Interactions => mk_db (contacts d) (deals d) x (tasks d) (audit d)
  | Tasks => mk_db (contacts d) (deals d) (interactions d) x (audit d)
  end.

Definition add_audit (e : audit_entry) (d : db) : db :=
  mk_db (contacts d) (deals d) (interactions d) (tasks d) (audit d ++ [e]).

(** Modelled from the spec: [schema.sql] is not among the sources.  The
    columns are those of the data model, in the order of the [INSERT]
    statements of [crm.py]; a column that an [INSERT] does not list takes
    the identity the store assigns ([id]), the store's time stamp
    ([created_at], [updated_at], [logged_at]) or NULL. *)
Definition columns (t : table_name) : list string :=
  match t with
  | Contacts =>
      ["id"; "name"; "email"; "phone"; "company"; "role"; "source"; "tags";
       "notes"; "created_at"; "updated_at"]
  | Deals =>
      ["id"; "contact_id"; "title"; "value"; "currency"; "stage";
       "probability"; "expected_close"; "closed_at"; "notes"; "created_at";
       "updated_at"]
  | Interactions =>
      ["id"; "contact_id"; "deal_id"; "type"; "direction"; "summary";
       "raw_content"; "occurred_at"; "logged_at"]
  | Tasks =>
      ["id"; "contact_id"; "deal_id"; "title"; "due_at"; "priority";
       "completed_at"; "created_at"]
  end.

(** What the store supplies on its own when a row is inserted *)
Record engine : Type := mk_engine {
  new_id : string;            (* the identity given to the new row *)
  current_timestamp : string  (* CURRENT_TIMESTAMP *)
}.

Definition default_of (e : engine) (c : string) : sqlval :=
  if String.eqb c "id" then Text (new_id e)
  else if mem c ["created_at"; "updated_at"; "logged_at"]
       then Text (current_timestamp e)
  else Null.

(** The row an [INSERT INTO t (c1, ..) VALUES (v1, ..)] builds *)
Definition new_row (e : engine) (t : table_name) (given : row) : row :=
  map (fun c => (c, match lookup c given with
                    | Some v => v
                    | None => default_of e c
                    end)) (columns t).

(** Without AUTOINCREMENT the new rowid is one more than the largest one. *)
Definition max_rowid (x : table) : Z :=
  fold_right (fun r m => Z.max (fst r) m) 0 x.

Definition next_rowid (x : table) : Z := max_rowid x + 1.

(** *** A slice of SQL: comparison, [lower], [LIKE], [COALESCE] *)

Definition sql_eqb (a b : sqlval) : bool :=
  match a, b with
  | Text x, Text y => String.eqb x y
  | Int x, Int y => x =? y
  | Real x, Real y => Qeq_bool x y
  | Int x, Real y => Qeq_bool (inject_Z x) y
  | Real x, Int y => Qeq_bool x (inject_Z y)
  | _, _ => false
  end.

Definition sql_lower (v : sqlval) : sqlval :=
  match v with
  | Text s => Text (lower s)
  | _ => v
  end.

(** [subject LIKE pattern]: [%] stands for any run of characters, [_] for
    one character, and letters match without regard to case. *)
Fixpoint like (pattern : string) : string -> bool :=
  match pattern with
  | EmptyString =>
      fun s => match s with EmptyString => true | _ => false end
  | String p rest =>
      if (code p =? 37) then
        fix any (s : string) : bool :=
          like rest s
          || match s with
             | EmptyString => false
             | String _ s' => any s'
             end
      else if (code p =? 95) then
        fun s => match s with
                 | EmptyString => false
                 | String _ s' => like rest s'
                 end
      else
        fun s => match s with
                 | EmptyString => false
                 | String c s' =>
                     Ascii.eqb (lower_char p) (lower_char c) && like rest s'
                 end
  end.

(** [v LIKE ?]; the label columns hold TEXT or NULL, and NULL matches
    nothing. *)
Definition sql_like (v : sqlval) (pattern : string) : bool :=
  match v with
  | Text s => like pattern s
  | _ => false
  end.

(** [f'%{x.lower()}%'] *)
Definition contains_pattern (x : string) : string := "%" ++ lower x ++ "%".

(** [SELECT * FROM t WHERE p]: the rows in scan order;
    [fetchone()] is the first of them. *)
Definition select (p : row -> bool) (x : table) : list row :=
  map snd (filter (fun r => p (snd r)) x).

Definition fetchone (p : row -> bool) (x : table) : option row :=
  hd_error (select p x).

(** [SELECT .. FROM t WHERE rowid = ?] *)
Definition by_rowid (n : Z) (x : table) : option row :=
  match find (fun r => fst r =? n) x with
  | Some r => Some (snd r)
  | None => None
  end.

(** *** A connection

    [working] is what the connection sees, [committed] what the file
    holds for everybody else.  [observed] records the committed state
    after each statement, so that what another reader could have seen
    while a command runs can be talked about. *)
Record conn : Type := mk_conn {
  committed : db;
  working : db;
  observed : list db
}.

(** [get_db()] on an initialised store *)
Definition connect (d : db) : conn := mk_conn d d [d].

Definition M (A : Type) : Type := conn -> outcome A * conn.

Definition ret {A : Type} (a : A) : M A := fun c => (Returns a, c).

Definition bind {A B : Type} (m : M A) (k : A -> M B) : M B :=
  fun c =>
    match m c with
    | (Returns a, c') => k a c'
    | (Exits n e, c') => (Exits n e, c')
    | (Raises e, c') => (Raises e, c')
    end.

Notation "x <- m ;; k" := (bind m (fun x => k))
  (at level 61, m at next level, right associativity).

(** [print(json.dumps({'error': msg})); sys.exit(1)] *)
Definition sys_exit {A : Type} (msg : string) : M A :=
  fun c => (Exits 1 msg, c).

(** The outcome of a call that touches no store, such as [parse_date] *)
Definition lift {A : Type} (o : outcome A) : M A := fun c => (o, c).

(** A reading statement *)
Definition query {A : Type} (f : db -> A) : M A :=
  fun c => (Returns (f (working c)),
            mk_conn (committed c) (working c) (observed c ++ [committed c])).

(** A writing statement: it opens the transaction if none is open and
    changes what the connection sees. *)
Definition execute (f : db -> db) : M unit :=
  fun c => (Returns tt,
            mk_conn (committed c) (f (working c)) (observed c ++ [committed c])).

(** [conn.commit()] *)
Definition commit : M unit :=
  fun c => (Returns tt,
            mk_conn (working c) (working c) (observed c ++ [working c])).

(** A command run to its end on the store [d]: the process ends, and what
    was not committed is rolled back. *)
Definition run {A : Type} (m : M A) (d : db) : outcome A * db :=
  let '(o, c) := m (connect d) in (o, committed c).

(** The committed states seen while the command ran *)
Definition observations {A : Type} (m : M A) (d : db) : list db :=
  observed (snd (m (connect d))).

(** [INSERT INTO t ..]; the result is [cursor.lastrowid]. *)
Definition insert (e : engine) (t : table_name) (given : row) : M Z :=
  n <- query (fun d => next_rowid (get_table t d)) ;;
  _ <- execute (fun d =>
         set_table t (get_table t d ++ [(n, new_row e t given)])%list d) ;;
  ret n.

(** [UPDATE t SET .. WHERE id = ?] *)
Definition update_where_id (t : table_name) (id : sqlval) (updates : row)
  : M unit :=
  execute (fun d =>
    set_table t
      (map (fun r => if sql_eqb (col "id" (snd r)) id
                     then (fst r, apply_updates updates (snd r))
                     else r) (get_table t d)) d).

(** [DELETE FROM t WHERE id = ?].  What the foreign keys of the absent
    schema would do to rows of other tables is not modelled. *)
Definition delete_where_id (t : table_name) (id : sqlval) : M unit :=
  execute (fun d =>
    set_table t
      (filter (fun r => negb (sql_eqb (col "id" (snd r)) id)) (get_table t d)) d).

End Store.

(** ** The commands of [scripts/crm.py] *)

Module Crm.
Import PyStr PyDate Store.

(** What a command reads from outside the store: the clock and the
    store's own defaults.  The readings of [datetime.now()] within one
    command are taken to be the same instant. *)
Record env : Type := mk_env {
  now : datetime;
  eng : engine
}.

(** What a command prints on success *)
Inductive printed : Type :=
| Created (fields : row)
| Updated (id : sqlval) (changes : row)
| Deleted (fields : row)
| Logged (fields : row)
| Completed (fields : row).

(** An optional string of [argparse] as a bound value *)
Definition opt (o : option string) : sqlval :=
  match o with Some s => Text s | None => Null end.

Definition opt_int (o : option Z) : sqlval :=
  match o with Some z => Int z | None => Null end.

Definition opt_real (o : option Q) : sqlval :=
  match o with Some q => Real q | None => Null end.

(** [if x:] on an optional string *)
Definition truthy (o : option string) : bool :=
  match o with Some (String _ _) => true | _ => false end.

(** [x or default] *)
Definition or_default (o : option string) (default : string) : string :=
  match o with Some (String c r) => String c r | _ => default end.

(** [s.split(',')] *)
Fixpoint split_comma (s : string) : list string :=
  match s with
  | EmptyString => [EmptyString]
  | String c r =>
      if code c =? 44 then EmptyString :: split_comma r
      else match split_comma r with
           | h :: t => String c h :: t
           | [] => [String c EmptyString]
           end
  end.

(** The loop [for field in [..]: if val is not None: updates[field] = val] *)
Fixpoint collect (fields : list (string * sqlval)) : row :=
  match fields with
  | [] => []
  | (k, Null) :: rest => collect rest
  | (k, v) :: rest => (k, v) :: collect rest
  end.

(** [json.dumps(d) if d else None] *)
Definition dumps_if (d : option row) : option row :=
  match d with
  | Some (_ :: _) => d
  | _ => None
  end.

(** [audit_log(conn, table, record_id, action, old, new, reason, conv_ref)] *)
Definition audit_log (v : env) (table : string) (record_id : sqlval)
    (a : action) (old new : option row) (reason conv_ref : option string)
  : M unit :=
  execute (add_audit
    (mk_audit table record_id a (dumps_if old) (dumps_if new) reason conv_ref
       (current_timestamp (eng v)))).

(** [WHERE id = ? OR lower(label) LIKE ?], bound to
    [(x, f'%{x.lower()}%')] *)
Definition id_or_label (label x : string) (r : row) : bool :=
  sql_eqb (col "id" r) (Text x)
  || sql_like (sql_lower (col label r)) (contains_pattern x).

(** *** Contacts *)

Record contact_args : Type := mk_contact_args {
  c_id : string;       (* update-contact, delete-contact *)
  c_name : option string;
  c_email : option string;
  c_phone : option string;
  c_company : option string;
  c_role : option string;
  c_source : option string;
  c_tags : option string;
  c_notes : option string;
  c_reason : option string
}.

Definition tags_value (tags : option string) : sqlval :=
  match tags with
  | Some (String c r) => Tags (split_comma (String c r))
  | _ => Null
  end.

Definition add_contact (v : env) (args : contact_args) : M printed :=
  let tags := tags_value (c_tags args) in
  record_id <- insert (eng v) Contacts
    [("name", opt (c_name args)); ("email", opt (c_email args));
     ("phone", opt (c_phone args)); ("company", opt (c_company args));
     ("role", opt (c_role args)); ("source", opt (c_source args));
     ("tags", tags); ("notes", opt (c_notes args))] ;;
  found <- query (fun d => by_rowid record_id (contacts d)) ;;
  match found with
  | None => lift (Raises TypeError)
  | Some row =>
      _ <- audit_log v "contacts" (col "id" row) INSERT None
             (Some [("name", opt (c_name args)); ("email", opt (c_email args));
                    ("company", opt (c_company args))])
             (c_reason args) None ;;
      _ <- commit ;;
      ret (Created [("id", col "id" row); ("name", opt (c_name args));
                    ("company", opt (c_company args));
                    ("email", opt (c_email args))])
  end.

Definition update_contact (v : env) (args : contact_args) : M printed :=
  found <- query (fun d => fetchone (id_or_label "name" (c_id args)) (contacts d)) ;;
  match found with
  | None => sys_exit ("Contact not found: " ++ c_id args)
  | Some row =>
      let old := row in
      let updates := collect
        [("name", opt (c_name args)); ("email", opt (c_email args));
         ("phone", opt (c_phone args)); ("company", opt (c_company args));
         ("role", opt (c_role args)); ("source", opt (c_source args));
         ("notes", opt (c_notes args))] in
      let updates :=
        if truthy (c_tags args)
        then dict_set "tags" (tags_value (c_tags args)) updates
        else updates in
      match updates with
      | [] => sys_exit "No updates provided"
      | _ =>
          let updates :=
            dict_set "updated_at" (Text (isoformat (now v))) updates in
          _ <- update_where_id Contacts (col "id" row) updates ;;
          _ <- audit_log v "contacts" (col "id" row) UPDATE (Some old)
                 (Some updates) (c_reason args) None ;;
          _ <- commit ;;
          ret (Updated (col "id" row) updates)
      end
  end.

Definition delete_contact (v : env) (args : contact_args) : M printed :=
  found <- query (fun d =>
             fetchone (fun r => sql_eqb (col "id" r) (Text (c_id args)))
               (contacts d)) ;;
  match found with
  | None => sys_exit ("Contact not found: " ++ c_id args)
  | Some row =>
      let old := row in
      _ <- delete_where_id Contacts (Text (c_id args)) ;;
      _ <- audit_log v "contacts" (Text (c_id args)) DELETE (Some old) None
             (c_reason args) None ;;
      _ <- commit ;;
      ret (Deleted [("id", Text (c_id args)); ("name", col "name" old)])
  end.

(** The soft reference [--contact]: the id of the first contact found, or
    nothing *)
Definition soft_contact (contact : option string) : M sqlval :=
  match contact with
  | Some (String c r) =>
      found <- query (fun d =>
                 fetchone (id_or_label "name" (String c r)) (contacts d)) ;;
      match found with
      | Some row => ret (col "id" row)
      | None => ret Null
      end
  | _ => ret Null
  end.

(** [parse_date(x) if x else None] *)
Definition date_if (v : env) (x : option string) : M sqlval :=
  match x with
  | Some (String c r) =>
      o <- lift (Temporal.parse_date (now v) (String c r)) ;;
      ret (opt o)
  | _ => ret Null
  end.

(** *** Deals *)

Record deal_args : Type := mk_deal_args {
  d_id : string;       (* update-deal *)
  d_title : option string;
  d_value : option Q;
  d_contact : option string;
  d_stage : option string;
  d_probability : option Z;
  d_currency : option string;
  d_expected_close : option string;
  d_notes : option string;
  d_reason : option string
}.

Definition add_deal (v : env) (args : deal_args) : M printed :=
  contact_id <- soft_contact (d_contact args) ;;
  expected_close <- date_if v (d_expected_close args) ;;
  let stage := or_default (d_stage args) "lead" in
  rowid <- insert (eng v) Deals
    [("contact_id", contact_id); ("title", opt (d_title args));
     ("value", opt_real (d_value args));
     ("currency", Text (or_default (d_currency args) "USD"));
     ("stage", Text stage); ("probability", opt_int (d_probability args));
     ("expected_close", expected_close); ("notes", opt (d_notes args))] ;;
  found <- query (fun d => by_rowid rowid (deals d)) ;;
  match found with
  | None => lift (Raises TypeError)
  | Some row =>
      _ <- audit_log v "deals" (col "id" row) INSERT None
             (Some [("title", opt (d_title args));
                    ("value", opt_real (d_value args));
                    ("stage", Text stage)])
             (d_reason args) None ;;
      _ <- commit ;;
      ret (Created [("id", col "id" row); ("title", opt (d_title args));
                    ("value", opt_real (d_value args)); ("stage", Text stage)])
  end.

(** [args.stage in ('won', 'lost')] *)
Definition is_terminal (stage : option string) : bool :=
  match stage with
  | Some s => String.eqb s "won" || String.eqb s "lost"
  | None => false
  end.

Definition update_deal (v : env) (args : deal_args) : M printed :=
  found <- query (fun d => fetchone (id_or_label "title" (d_id args)) (deals d)) ;;
  match found with
  | None => sys_exit ("Deal not found: " ++ d_id args)
  | Some row =>
      let old := row in
      let updates := collect
        [("title", opt (d_title args)); ("value", opt_real (d_value args));
         ("currency", opt (d_currency args)); ("stage", opt (d_stage args));
         ("probability", opt_int (d_probability args));
         ("notes", opt (d_notes args))] in
      updates <-
        (if truthy (d_expected_close args)
         then x <- date_if v (d_expected_close args) ;;
              ret (dict_set "expected_close" x updates)
         else ret updates) ;;
      let updates :=
        if is_terminal (d_stage args)
        then dict_set "closed_at" (Text (isoformat (now v))) updates
        else updates in
      match updates with
      | [] => sys_exit "No updates provided"
      | _ =>
          _ <- update_where_id Deals (col "id" row)
                 (updates ++ [("updated_at", Text (isoformat (now v)))])%list ;;
          _ <- audit_log v "deals" (col "id" row) UPDATE (Some old)
                 (Some updates) (d_reason args) None ;;
          _ <- commit ;;
          ret (Updated (col "id" row) updates)
      end
  end.

(** *** The weighted value of [pipeline]

    [SELECT SUM(value * COALESCE(probability, 50) / 100.0) FROM deals
     WHERE stage NOT IN ('won', 'lost')], then [weighted or 0].
    Numbers are exact rationals: the rounding of the store's REAL
    arithmetic is left out. *)

(** The number in a [value] or [probability] column; these hold numbers
    or NULL. *)
Definition sql_num (x : sqlval) : option Q :=
  match x with
  | Int z => Some (inject_Z z)
  | Real q => Some q
  | _ => None
  end.

(** [COALESCE(x, d)] *)
Definition coalesce (x d : sqlval) : sqlval :=
  match x with Null => d | _ => x end.

(** [stage NOT IN ('won', 'lost')]: a NULL stage does not pass. *)
Definition open_stage (r : row) : bool :=
  match col "stage" r with
  | Text s => negb (String.eqb s "won" || String.eqb s "lost")
  | _ => false
  end.

(** [value * COALESCE(probability, 50) / 100.0]: NULL when an operand is *)
Definition weighted_term (r : row) : option Q :=
  match sql_num (col "value" r),
        sql_num (coalesce (col "probability" r) (Int 50)) with
  | Some x, Some p => Some (x * p / 100)%Q
  | _, _ => None
  end.

(** [SUM]: NULL terms are skipped, and the sum of no term is NULL. *)
Fixpoint sql_sum (terms : list (option Q)) : option Q :=
  match terms with
  | [] => None
  | None :: rest => sql_sum rest
  | Some x :: rest =>
      match sql_sum rest with
      | Some y => Some (x + y)%Q
      | None => Some x
      end
  end.

Definition pipeline_weighted_value (d : db) : Q :=
  let weighted := sql_sum (map weighted_term (select open_stage (deals d))) in
  match weighted with
  | Some w => w
  | None => 0%Q
  end.

(** *** Interactions *)

Record interaction_args : Type := mk_interaction_args {
  i_type : string;
  i_summary : string;
  i_contact : option string;
  i_deal : option string;
  i_direction : option string;
  i_date : option string;
  i_raw : option string;
  i_reason : option string
}.

Definition log_interaction (v : env) (args : interaction_args) : M printed :=
  contact_id <- soft_contact (i_contact args) ;;
  occurred <-
    (if truthy (i_date args) then date_if v (i_date args)
     else ret (Text (isoformat (now v)))) ;;
  rowid <- insert (eng v) Interactions
    [("contact_id", contact_id); ("deal_id", opt (i_deal args));
     ("type", Text (i_type args)); ("direction", opt (i_direction args));
     ("summary", Text (i_summary args)); ("raw_content", opt (i_raw args));
     ("occurred_at", occurred)] ;;
  found <- query (fun d => by_rowid rowid (interactions d)) ;;
  match found with
  | None => lift (Raises TypeError)
  | Some row =>
      _ <- audit_log v "interactions" (col "id" row) INSERT None
             (Some [("type", Text (i_type args));
                    ("summary", Text (take 100 (i_summary args)))])
             (i_reason args) None ;;
      _ <- commit ;;
      ret (Logged [("id", col "id" row); ("type", Text (i_type args));
                   ("contact_id", contact_id)])
  end.

(** *** Tasks *)

Record task_args : Type := mk_task_args {
  t_id : string;       (* complete-task *)
  t_title : option string;
  t_contact : option string;
  t_deal : option string;
  t_due : option string;
  t_priority : option string;
  t_reason : option string
}.

Definition add_task (v : env) (args : task_args) : M printed :=
  contact_id <- soft_contact (t_contact args) ;;
  due <- date_if v (t_due args) ;;
  rowid <- insert (eng v) Tasks
    [("contact_id", contact_id); ("deal_id", opt (t_deal args));
     ("title", opt (t_title args)); ("due_at", due);
     ("priority", Text (or_default (t_priority args) "normal"))] ;;
  found <- query (fun d => by_rowid rowid (tasks d)) ;;
  match found with
  | None => lift (Raises TypeError)
  | Some row =>
      _ <- audit_log v "tasks" (col "id" row) INSERT None
             (Some [("title", opt (t_title args)); ("due", due)])
             (t_reason args) None ;;
      _ <- commit ;;
      ret (Created [("id", col "id" row); ("title", opt (t_title args));
                    ("due_at", due)])
  end.

Definition complete_task (v : env) (args : task_args) : M printed :=
  found <- query (fun d => fetchone (id_or_label "title" (t_id args)) (tasks d)) ;;
  match found with
  | None => sys_exit ("Task not found: " ++ t_id args)
  | Some row =>
      let old := row in
      let now_iso := Text (isoformat (now v)) in
      _ <- update_where_id Tasks (col "id" row) [("completed_at", now_iso)] ;;
      _ <- audit_log v "tasks" (col "id" row) UPDATE (Some old)
             (Some [("completed_at", now_iso)]) (t_reason args) None ;;
      _ <- commit ;;
      ret (Completed [("id", col "id" row); ("title", col "title" row)])
  end.

(** *** The mutating commands together *)

Inductive command : Type :=
| AddContact (a : contact_args)
| UpdateContact (a : contact_args)
| DeleteContact (a : contact_args)
| AddDeal (a : deal_args)
| UpdateDeal (a : deal_args)
| LogInteraction (a : interaction_args)
| AddTask (a : task_args)
| CompleteTask (a : task_args).

(** [args.func(args)] *)
Definition dispatch (v : env) (c : command) : M printed :=
  match c with
  | AddContact a => add_contact v a
  | UpdateContact a => update_contact v a
  | DeleteContact a => delete_contact v a
  | AddDeal a => add_deal v a
  | UpdateDeal a => update_deal v a
  | LogInteraction a => log_interaction v a
  | AddTask a => add_task v a
  | CompleteTask a => complete_task v a
  end.

Definition target (c : command) : table_name :=
  match c with
  | AddContact _ | UpdateContact _ | DeleteContact _ => Contacts
  | AddDeal _ | UpdateDeal _ => Deals
  | LogInteraction _ => Interactions
  | AddTask _ | CompleteTask _ => Tasks
  end.

Definition kind (c : command) : action :=
  match c with
  | AddContact _ | AddDeal _ | LogInteraction _ | AddTask _ => INSERT
  | UpdateContact _ | UpdateDeal _ | CompleteTask _ => UPDATE
  | DeleteContact _ => DELETE
  end.

End Crm.

(** ** Backup and restore: [scripts/crm-backup.py] *)

Module Backup.
Import PyStr PyDate.

(** *** The file system

    Paths with the files they name, in the order the directory lists
    them.  A file is its bytes and its modification time. *)
Record file : Type := mk_file { data : string; mtime : Z }.

Definition fs : Type := list (string * file).

Fixpoint fs_lookup (p : string) (s : fs) : option file :=
  match s with
  | [] => None
  | (q, f) :: t => if String.eqb p q then Some f else fs_lookup p t
  end.

(** [Path(p).exists()] *)
Definition fs_exists (p : string) (s : fs) : bool :=
  match fs_lookup p s with Some _ => true | None => false end.

(** Creating or overwriting the file at [p] *)
Fixpoint fs_write (p : string) (f : file) (s : fs) : fs :=
  match s with
  | [] => [(p, f)]
  | (q, g) :: t =>
      if String.eqb p q then (q, f) :: t else (q, g) :: fs_write p f t
  end.

Definition fs_remove (p : string) (s : fs) : fs :=
  filter (fun e => negb (String.eqb p (fst e))) s.

(** What happened to the file system, in order *)
Inductive event : Type :=
| Wrote (path : string) (bytes : string)
| Removed (path : string).

Record world : Type := mk_world {
  files : fs;
  history : list event
}.

Definition F (A : Type) : Type := world -> outcome A * world.

Definition ret {A : Type} (a : A) : F A := fun w => (Returns a, w).

(** An exception leaves what was already written in place. *)
Definition bind {A B : Type} (m : F A) (k : A -> F B) : F B :=
  fun w =>
    match m w with
    | (Returns a, w') => k a w'
    | (Exits n e, w') => (Exits n e, w')
    | (Raises e, w') => (Raises e, w')
    end.

Notation "x <-- m ;; k" := (bind m (fun x => k))
  (at level 61, m at next level, right associativity).

Definition read {A : Type} (f : fs -> A) : F A :=
  fun w => (Returns (f (files w)), w).

(** [s.endswith(suffix)] *)
Definition endswith (suffix s : string) : bool :=
  (String.length suffix <=? String.length s)%nat
  && String.eqb (drop (String.length s - String.length suffix) s) suffix.

Fixpoint has_slash (s : string) : bool :=
  match s with
  | EmptyString => false
  | String c r => (code c =? 47) || has_slash r
  end.

(** [fnmatch(name, 'crm_backup_*.db')] *)
Definition is_backup_name (name : string) : bool :=
  startswith "crm_backup_" name && endswith ".db" name
  && (14 <=? String.length name)%nat.

(** [f.stem.replace('crm_backup_', '')] for a name ending in [.db] *)
Definition stamp_text (name : string) : string :=
  replace "crm_backup_" "" (take (String.length name - 3) name).

(** One entry of [get_backup_files].  [size_human] and [age_days] are
    for display only and are left out. *)
Record backup_info : Type := mk_info {
  path : string;
  filename : string;
  size_bytes : Z;
  created_at : string
}.

(** What [backup_database] returns *)
Inductive backup_result : Type :=
| BackupError (error : string) (db_path : string)
| BackupSuccess (backup_path : string) (size : Z) (timestamp : string)
    (note : option string).

(** What [restore_database] returns *)
Inductive restore_result : Type :=
| RestoreError (error : string) (detail : string)
| SafetyBackupFailed (details : backup_result)
| ConfirmationRequired (message backup_path current_db : string)
| RestoreSuccess (message restored_from : string) (safety_backup : option string).

(** What [prune_backups] returns *)
Inductive prune_result : Type :=
| NoPruningNeeded (existing : Z) (keep : Z)
| Pruned (kept : Z) (removed : Z) (removed_files : list string).

(** [sorted(l, key=lambda x: x['created_at'], reverse=True)]: the sort is
    stable, and with [reverse=True] entries with equal keys keep their
    order. *)
Fixpoint insert_desc (x : backup_info) (l : list backup_info) : list backup_info :=
  match l with
  | [] => [x]
  | y :: t =>
      if str_lt (created_at x) (created_at y) then y :: insert_desc x t
      else x :: l
  end.

Fixpoint sorted_desc (l : list backup_info) : list backup_info :=
  match l with
  | [] => []
  | x :: t => insert_desc x (sorted_desc t)
  end.

(** [l[k:]] *)
Definition slice_from {A : Type} (k : Z) (l : list A) : list A :=
  if 0 <=? k then skipn (Z.to_nat k) l
  else skipn (Z.to_nat (Z.of_nat (List.length l) + k)) l.

Section Manager.

(** The configuration read from the environment *)
Variable DB_PATH : string.
Variable BACKUP_DIR : string.

(** [datetime.now()] and [time.time()] while the command runs *)
Variable now : datetime.
Variable clock : Z.

(** The time a backup file stands for, in ISO format: the stamp
    [%Y%m%d_%H%M%S] its name carries or, when the name carries none, its
    modification time. *)
Variable iso_of_stamp : string -> Z -> string.

(** The probe of [restore_database]: whether
    [SELECT COUNT( * ) FROM contacts] runs on a file with these bytes. *)
Variable has_contacts : string -> bool.

(** The paths that cannot be written or unlinked *)
Variable denied : string -> bool.

(** [os.path.join(BACKUP_DIR, name)] *)
Definition in_backup_dir (name : string) : string := BACKUP_DIR ++ "/" ++ name.

(** The name of [p] when it lies directly in [BACKUP_DIR] *)
Definition name_in_dir (p : string) : option string :=
  let d := BACKUP_DIR ++ "/" in
  if startswith d p then
    let n := drop (String.length d) p in
    if has_slash n then None else Some n
  else None.

(** [Path(BACKUP_DIR).glob('crm_backup_*.db')] with the [stat] of each.
    Directories are not modelled, so [ensure_backup_dir] has nothing to
    do. *)
Fixpoint glob_backups (s : fs) : list backup_info :=
  match s with
  | [] => []
  | (p, f) :: t =>
      match name_in_dir p with
      | Some n =>
          if is_backup_name n
          then mk_info p n (Z.of_nat (String.length (data f)))
                 (iso_of_stamp (stamp_text n) (mtime f)) :: glob_backups t
          else glob_backups t
      | None => glob_backups t
      end
  end.

Definition get_backup_files : F (list backup_info) :=
  read (fun s => sorted_desc (glob_backups s)).

(** [Path(p).unlink()] *)
Definition unlink (p : string) : F unit :=
  fun w =>
    if fs_exists p (files w) && negb (denied p)
    then (Returns tt, mk_world (fs_remove p (files w)) (history w ++ [Removed p]))
    else (Raises OSError, w).

(** Writing [bytes] to [p] with modification time [t]; [e] is what is
    raised when the path is denied. *)
Definition write_file (e : exn) (p bytes : string) (t : Z) : F unit :=
  fun w =>
    if denied p then (Raises e, w)
    else (Returns tt,
          mk_world (fs_write p (mk_file bytes t) (files w))
            (history w ++ [Wrote p bytes])).

(** [now.strftime('%Y%m%d_%H%M%S')] *)
Definition strftime_stamp (t : datetime) : string :=
  fmt04 (year t) ++ fmt02 (month t) ++ fmt02 (day t) ++ "_"
  ++ fmt02 (hour t) ++ fmt02 (minute t) ++ fmt02 (second t).

(** [backup_database(note)].  [source.backup(dest)] leaves at the
    backup path a copy of the live store, or raises
    [sqlite3.OperationalError] when it cannot write there. *)
Definition backup_database (note : option string) : F backup_result :=
  live <-- read (fs_lookup DB_PATH) ;;
  match live with
  | None => ret (BackupError "Database not found" DB_PATH)
  | Some db =>
      let timestamp := strftime_stamp now in
      let backup_path := in_backup_dir ("crm_backup_" ++ timestamp ++ ".db") in
      _ <-- write_file OperationalError backup_path (data db) clock ;;
      match note with
      | Some (String c r) =>
          _ <-- write_file OSError (backup_path ++ ".note") (String c r) clock ;;
          ret (BackupSuccess backup_path (Z.of_nat (String.length (data db)))
                 timestamp note)
      | _ =>
          ret (BackupSuccess backup_path (Z.of_nat (String.length (data db)))
                 timestamp None)
      end
  end.

(** [shutil.copy2(src, dst)]: the bytes and the modification time *)
Definition copy2 (src dst : string) : F unit :=
  found <-- read (fs_lookup src) ;;
  match found with
  | None => fun w => (Raises OSError, w)
  | Some f => write_file OSError dst (data f) (mtime f)
  end.

Definition is_error (r : backup_result) : bool :=
  match r with BackupError _ _ => true | BackupSuccess _ _ _ _ => false end.

(** The local variable [safety_backup] is [None] here while it is unbound. *)
Definition restore_database (backup_path : string) (confirm : bool)
  : F restore_result :=
  present <-- read (fs_exists backup_path) ;;
  if negb present then ret (RestoreError "Backup file not found" backup_path)
  else if negb confirm then
    ret (ConfirmationRequired
           "This will overwrite the current database. Pass --confirm to proceed."
           backup_path DB_PATH)
  else
    (* Create safety backup first *)
    live <-- read (fs_exists DB_PATH) ;;
    safety_backup <--
      (if live
       then r <-- backup_database (Some "Pre-restore safety backup") ;;
            ret (Some r)
       else ret None) ;;
    match safety_backup with
    | Some (BackupError e p) => ret (SafetyBackupFailed (BackupError e p))
    | _ =>
        (* Restore *)
        _ <-- copy2 backup_path DB_PATH ;;
        (* Verify *)
        restored <-- read (fs_lookup DB_PATH) ;;
        let probe := match restored with
                     | Some f => has_contacts (data f)
                     | None => false
                     end in
        if negb probe
        then ret (RestoreError "Restored database appears corrupt" "")
        else
          live' <-- read (fs_exists DB_PATH) ;;
          if live' then
            match safety_backup with
            | Some (BackupSuccess p _ _ _) =>
                ret (RestoreSuccess "Database restored successfully"
                       backup_path (Some p))
            | Some (BackupError _ _) =>
                ret (RestoreSuccess "Database restored successfully"
                       backup_path None)
            | None => fun w => (Raises NameError, w)
            end
          else
            ret (RestoreSuccess "Database restored successfully"
                   backup_path None)
    end.

(** The body of the [try] in [prune_backups] *)
Definition remove_backup (b : backup_info) : F unit :=
  _ <-- unlink (path b) ;;
  let note_path := path b ++ ".note" in
  noted <-- read (fs_exists note_path) ;;
  if noted then unlink note_path else ret tt.

(** The loop of [prune_backups]: [except Exception: pass] *)
Fixpoint remove_loop (to_remove : list backup_info) (removed : list string)
  : F (list string) :=
  match to_remove with
  | [] => ret removed
  | b :: rest =>
      fun w =>
        match remove_backup b w with
        | (Returns _, w') => remove_loop rest (removed ++ [filename b])%list w'
        | (_, w') => remove_loop rest removed w'
        end
  end.

Definition prune_backups (keep : Z) : F prune_result :=
  backups <-- get_backup_files ;;
  if Z.of_nat (List.length backups) <=? keep
  then ret (NoPruningNeeded (Z.of_nat (List.length backups)) keep)
  else
    let to_remove := slice_from keep backups in
    removed <-- remove_loop to_remove [] ;;
    ret (Pruned keep (Z.of_nat (List.length removed)) removed).

End Manager.

End Backup.

(** ** What the properties below talk about *)

Module AuditSpec.
Import Store Crm.
Local Open Scope list_scope.

(** The identity a command reports for the record it touched *)
Definition affected_id (out : printed) : sqlval :=
  match out with
  | Created f | Deleted f | Logged f | Completed f => col "id" f
  | Updated id _ => id
  end.

(** The change an [INSERT], [UPDATE .. WHERE id = ?] or
    [DELETE .. WHERE id = ?] for the record [id] makes to a table *)
Inductive mutated (id : sqlval) : action -> table -> table -> Prop :=
| mutated_insert (n : Z) (r : row) (x : table) :
    col "id" r = id -> mutated id INSERT x (x ++ [(n, r)])
| mutated_update (updates : row) (x : table) :
    mutated id UPDATE x
      (map (fun r => if sql_eqb (col "id" (snd r)) id
                     then (fst r, apply_updates updates (snd r))
                     else r) x)
| mutated_delete (x : table) :
    mutated id DELETE x
      (filter (fun r => negb (sql_eqb (col "id" (snd r)) id)) x).

(** Between the stores [d] and [d'] lies the mutation of command [c]
    together with exactly one new audit entry that names it. *)
Definition logged_with (c : command) (out : printed) (d d' : db) : Prop :=
  exists e,
    audit d' = audit d ++ [e]
    /\ a_table_name e = name_of (target c)
    /\ a_action e = kind c
    /\ a_record_id e = affected_id out
    /\ mutated (a_record_id e) (kind c)
         (get_table (target c) d) (get_table (target c) d')
    /\ (forall t, t <> target c -> get_table t d' = get_table t d).

(** A command that ends with outcome [o] and connection [k] was atomic:
    on success every committed state that could be seen is the store
    before or the store after, and on failure nothing was committed. *)
Definition atomic (d : db) (o : outcome printed) (c : command) (k : conn) : Prop :=
  match o with
  | Returns out =>
      logged_with c out d (committed k)
      /\ Forall (fun s => s = d \/ s = committed k) (observed k)
  | _ => committed k = d /\ Forall (fun s => s = d) (observed k)
  end.

End AuditSpec.

Module ResolverSpec.
Import PyStr Store Crm.
Local Open Scope list_scope.

(** [a] carries a strictly later time stamp than [b] in column [stamp]. *)
Definition later (stamp : string) (a b : row) : bool :=
  match col stamp a, col stamp b with
  | Text x, Text y => str_lt y x
  | _, _ => false
  end.

(** An exact match on [id] wins over a match on the label. *)
Definition exact_match_wins (label : string) : Prop :=
  forall (x : string) (tbl : table) (r r' : row),
    fetchone (id_or_label label x) tbl = Some r ->
    In r' (map snd tbl) -> col "id" r' = Text x ->
    col "id" r = Text x.

(** Among the rows that match, none is later than the one returned. *)
Definition latest_match_wins (label stamp : string) : Prop :=
  forall (x : string) (tbl : table) (r r' : row),
    fetchone (id_or_label label x) tbl = Some r ->
    In r' (map snd tbl) -> id_or_label label x r' = true ->
    later stamp r' r = false.

(** Three contacts added one after the other *)
Definition at_time (t : PyDate.datetime) (id stamp : string) : env :=
  mk_env t (mk_engine id stamp).

Definition named (name : string) : contact_args :=
  mk_contact_args "" (Some name) None None None None None None None None.

Definition three_contacts : db :=
  let d1 := snd (run (add_contact
                   (at_time (PyDate.mk_datetime 2024 1 10 9 0 0 0)
                      "1" "2024-01-10 09:00:00")
                   (named "Anna Karlsson (Studio 3)")) empty_db) in
  let d2 := snd (run (add_contact
                   (at_time (PyDate.mk_datetime 2024 3 5 14 30 0 0)
                      "2" "2024-03-05 14:30:00")
                   (named "Joanna Berg")) d1) in
  snd (run (add_contact
         (at_time (PyDate.mk_datetime 2024 6 1 8 0 0 0)
            "3" "2024-06-01 08:00:00")
         (named "Bob Li")) d2).

End ResolverSpec.

Module DealSpec.
Import PyStr Store Crm.
Local Open Scope list_scope.

(** The current stage of a deal is [won] or [lost]. *)
Definition stage_is_terminal (r : row) : bool :=
  match col "stage" r with
  | Text s => String.eqb s "won" || String.eqb s "lost"
  | _ => false
  end.

(** [closed_at] is not NULL. *)
Definition is_closed (r : row) : bool :=
  match col "closed_at" r with
  | Null => false
  | _ => true
  end.

(** The stores reached from one without deals by [add_deal] calls whose
    arguments pass [allowed] and by [update_deal] calls *)
Inductive reachable (allowed : deal_args -> bool) : db -> Prop :=
| reach_init (d : db) : deals d = [] -> reachable allowed d
| reach_add (v : env) (a : deal_args) (d : db) (out : printed) (d' : db) :
    reachable allowed d -> allowed a = true ->
    run (add_deal v a) d = (Returns out, d') ->
    reachable allowed d'
| reach_update (v : env) (a : deal_args) (d : db) (out : printed) (d' : db) :
    reachable allowed d ->
    run (update_deal v a) d = (Returns out, d') ->
    reachable allowed d'.

Definition any_deal (a : deal_args) : bool := true.

(** A deal that is created in a stage other than [won] and [lost] *)
Definition created_open (a : deal_args) : bool :=
  negb (is_terminal (Some (or_default (d_stage a) "lead"))).

(** [closed_at] is set if and only if the stage is terminal. *)
Definition closed_iff_terminal : Prop :=
  forall d, reachable any_deal d ->
  forall r, In r (map snd (deals d)) -> is_closed r = stage_is_terminal r.

(** The dictionary [updates] of [update_deal] before the statement runs;
    [expected] is the parsed [--expected-close] when one was given. *)
Definition deal_fields (a : deal_args) : row :=
  [("title", opt (d_title a)); ("value", opt_real (d_value a));
   ("currency", opt (d_currency a)); ("stage", opt (d_stage a));
   ("probability", opt_int (d_probability a)); ("notes", opt (d_notes a))].

Definition deal_updates (v : env) (a : deal_args) (expected : option sqlval)
  : row :=
  let u := collect (deal_fields a) in
  let u := match expected with
           | Some x => dict_set "expected_close" x u
           | None => u
           end in
  if is_terminal (d_stage a)
  then dict_set "closed_at" (Text (PyDate.isoformat (now v))) u
  else u.

(** The value a run of assignments leaves in column [k] that held [v0] *)
Definition last_assign (k : string) (updates : row) (v0 : sqlval) : sqlval :=
  fold_left (fun acc kv => if String.eqb k (fst kv) then snd kv else acc)
    updates v0.

(** The same for the fields a command collects, where NULL means that
    the option was not given *)
Definition last_given (k : string) (fields : row) (v0 : sqlval) : sqlval :=
  fold_left (fun acc kv =>
               if String.eqb k (fst kv)
               then match snd kv with Null => acc | v => v end
               else acc) fields v0.

(** A deal is created, won, and moved back to negotiation. *)
Definition deal_env (t : PyDate.datetime) (id stamp : string) : env :=
  mk_env t (mk_engine id stamp).

Definition no_deal_args : deal_args :=
  mk_deal_args "" None None None None None None None None None.

Definition with_title (title : string) (a : deal_args) : deal_args :=
  mk_deal_args (d_id a) (Some title) (d_value a) (d_contact a) (d_stage a)
    (d_probability a) (d_currency a) (d_expected_close a) (d_notes a)
    (d_reason a).

Definition with_stage (id stage : string) : deal_args :=
  mk_deal_args id None None None (Some stage) None None None None None.

Definition new_deal : db :=
  snd (run (add_deal
         (deal_env (PyDate.mk_datetime 2024 1 10 9 0 0 0)
            "1" "2024-01-10 09:00:00")
         (with_title "Website redesign" no_deal_args)) empty_db).

Definition won_deal : db :=
  snd (run (update_deal
         (deal_env (PyDate.mk_datetime 2024 2 1 12 0 0 0)
            "" "2024-02-01 12:00:00")
         (with_stage "1" "won")) new_deal).

Definition reopened_deal : db :=
  snd (run (update_deal
         (deal_env (PyDate.mk_datetime 2024 2 9 16 0 0 0)
            "" "2024-02-09 16:00:00")
         (with_stage "1" "negotiation")) won_deal).

(** What holds of every deal the commands leave behind: it has the
    columns of the table, and a terminal stage comes with a closing time. *)
Definition well_kept (r : row) : Prop :=
  map fst r = columns Deals
  /\ (stage_is_terminal r = true -> is_closed r = true).

End DealSpec.

Module PipelineSpec.
Import PyStr Store Crm.
Local Open Scope list_scope.

(** The weighted value in the words of the specification: the sum, over
    the deals that are neither won nor lost, of value times probability
    (50 when there is none) over 100.  A deal without a value adds
    nothing. *)
Definition is_open (r : row) : bool :=
  negb (sql_eqb (col "stage" r) (Text "won")
        || sql_eqb (col "stage" r) (Text "lost")).

Definition value_of (r : row) : Q :=
  match sql_num (col "value" r) with Some x => x | None => 0%Q end.

Definition probability_or_50 (r : row) : Q :=
  match col "probability" r with
  | Null => 50%Q
  | p => match sql_num p with Some x => x | None => 0%Q end
  end.

Fixpoint weighted_sum (rows : list row) : Q :=
  match rows with
  | [] => 0%Q
  | r :: rest =>
      if is_open r
      then (value_of r * probability_or_50 r / 100 + weighted_sum rest)%Q
      else weighted_sum rest
  end.

Definition weighted_spec (d : db) : Q := weighted_sum (map snd (deals d)).

(** What [crm.py] writes into a deal: a stage, a number or nothing as
    value, an integer or nothing as probability *)
Definition well_formed_deal (r : row) : bool :=
  match col "stage" r with Text _ => true | _ => false end
  && match col "value" r with Null | Int _ | Real _ => true | _ => false end
  && match col "probability" r with Null | Int _ => true | _ => false end.

(** A deal as [crm.py] keeps it: the columns of the table, holding what
    the commands write *)
Definition sound_deal (r : row) : Prop :=
  map fst r = columns Deals /\ well_formed_deal r = true.

(** Two open deals: 1000 without a probability, 2000 at 80 *)
Definition priced (title : string) (value : Q) (probability : option Z)
  : deal_args :=
  mk_deal_args "" (Some title) (Some value) None None probability None None
    None None.

Definition two_open_deals : db :=
  let d1 := snd (run (add_deal
                   (mk_env (PyDate.mk_datetime 2024 1 10 9 0 0 0)
                      (mk_engine "1" "2024-01-10 09:00:00"))
                   (priced "Retainer" 1000 None)) empty_db) in
  snd (run (add_deal
         (mk_env (PyDate.mk_datetime 2024 1 11 9 0 0 0)
            (mk_engine "2" "2024-01-11 09:00:00"))
         (priced "Migration" 2000 (Some 80))) d1).

End PipelineSpec.

Module BackupSpec.
Import PyStr PyDate Backup.
Local Open Scope list_scope.

(** Whether an event is a write to the file at [p] *)
Definition writes_to (p : string) (e : event) : bool :=
  match e with
  | Wrote q _ => String.eqb p q
  | Removed q => String.eqb p q
  end.

(** The claim that a confirmed restore into a store that does not exist
    always ends in [NameError] *)
Definition restore_into_missing_store_always_raises : Prop :=
  forall (DB_PATH BACKUP_DIR : string) (now : datetime) (clock : Z)
         (has_contacts : string -> bool) (denied : string -> bool)
         (w : world) (backup_path : string),
    fs_exists backup_path (files w) = true ->
    fs_exists DB_PATH (files w) = false ->
    fst (restore_database DB_PATH BACKUP_DIR now clock has_contacts denied
           backup_path true w)
    = Raises NameError.

(** A configuration for the examples: the probe accepts the files that
    start with the header of the store's file format and hold the name of
    the table, and no path is denied. *)
Definition example_db_path : string := "/home/u/.local/share/agent-crm/crm.db".
Definition example_backup_dir : string := "/home/u/.local/share/agent-crm/backups".
Definition example_now : datetime := mk_datetime 2024 3 1 8 30 0 0.
Definition example_clock : Z := 1709281800.

Fixpoint contains (needle s : string) : bool :=
  String.prefix needle s
  || match s with
     | EmptyString => false
     | String _ r => contains needle r
     end.

Definition example_probe (bytes : string) : bool :=
  String.prefix "SQLite format 3" bytes && contains "contacts" bytes.

Definition nothing_denied (p : string) : bool := false.

(** The stamp [YYYYmmdd_HHMMSS] of a well-formed name in ISO format *)
Definition example_iso (stamp : string) (mtime : Z) : string :=
  take 4 stamp ++ "-" ++ take 2 (drop 4 stamp) ++ "-"
  ++ take 2 (drop 6 stamp) ++ "T" ++ take 2 (drop 9 stamp) ++ ":"
  ++ take 2 (drop 11 stamp) ++ ":" ++ take 2 (drop 13 stamp).

(** A backup directory with an empty file in it and no live store *)
Definition empty_backup_only : world :=
  mk_world
    [("/home/u/.local/share/agent-crm/backups/crm_backup_20240101_120000.db",
      mk_file "" 1704110400)]
    [].

(** A backup directory with a sound backup in it and no live store *)
Definition sound_backup_only : world :=
  mk_world
    [("/home/u/.local/share/agent-crm/backups/crm_backup_20240101_120000.db",
      mk_file "SQLite format 3 contacts deals v1" 1704110400)]
    [].

(** A live store and one backup of it *)
Definition live_and_backup : world :=
  mk_world
    [("/home/u/.local/share/agent-crm/crm.db",
      mk_file "SQLite format 3 contacts deals v2" 1709200000);
     ("/home/u/.local/share/agent-crm/backups/crm_backup_20240101_120000.db",
      mk_file "SQLite format 3 contacts deals v1" 1704110400)]
    [].

(** Five backups, two of them with a note, listed out of order *)
Definition five_backups : world :=
  mk_world
    [("/home/u/.local/share/agent-crm/backups/crm_backup_20240103_090000.db",
      mk_file "SQLite format 3 contacts c" 1704272400);
     ("/home/u/.local/share/agent-crm/backups/crm_backup_20240101_090000.db",
      mk_file "SQLite format 3 contacts a" 1704099600);
     ("/home/u/.local/share/agent-crm/backups/crm_backup_20240101_090000.db.note",
      mk_file "before import" 1704099600);
     ("/home/u/.local/share/agent-crm/backups/crm_backup_20240105_090000.db",
      mk_file "SQLite format 3 contacts e" 1704445200);
     ("/home/u/.local/share/agent-crm/backups/crm_backup_20240105_090000.db.note",
      mk_file "after cleanup" 1704445200);
     ("/home/u/.local/share/agent-crm/backups/crm_backup_20240102_090000.db",
      mk_file "SQLite format 3 contacts b" 1704186000);
     ("/home/u/.local/share/agent-crm/backups/crm_backup_20240104_090000.db",
      mk_file "SQLite format 3 contacts d" 1704358800);
     ("/home/u/.local/share/agent-crm/crm.db",
      mk_file "SQLite format 3 contacts live" 1704500000)]
    [].

(** The last character of a string *)
Fixpoint last_char (s : string) : option ascii :=
  match s with
  | EmptyString => None
  | String c EmptyString => Some c
  | String _ r => last_char r
  end.

(** [a] is not older than [b]. *)
Definition not_older (a b : backup_info) : Prop :=
  str_lt (created_at a) (created_at b) = false.

(** The paths a prune of the entries [old] deletes *)
Definition doomed (old : list backup_info) : list string :=
  map path old ++ map (fun b => (path b ++ ".note")%string) old.

End BackupSpec.
(** ** The vocabulary of the properties of [parse_date] *)

Module TemporalSpec.
Import PyStr PyDate Temporal.
Local Open Scope list_scope.

(** A string of decimal digits *)
Fixpoint all_digits (s : string) : bool :=
  match s with
  | EmptyString => true
  | String c r => is_digit c && all_digits r
  end.

(** The words for the units of ["in N ..."] and the days each stands for *)
Definition unit_text (u : unit_name) : string :=
  match u with UDay => "day" | UWeek => "week" | UMonth => "month" end.

Definition days_per (u : unit_name) : Z :=
  match u with UDay => 1 | UWeek => 7 | UMonth => 30 end.

(** A number below 100 without and with a leading zero *)
Definition decimal (n : Z) : string :=
  if n <? 10 then String (digit_char n) EmptyString else fmt02 n.

Definition name_of_month (names : list string) (m : Z) : string :=
  nth (Z.to_nat (m - 1)) names EmptyString.

(** The ways of writing the day [d] of month [m] that [parse_date] reads
    as a date of the year 1900: without a year, or with that year spelled
    out *)
Definition yearless_spellings (m d : Z) : list string :=
  [ (fmt02 m ++ "/" ++ fmt02 d)%string;
    (decimal m ++ "/" ++ decimal d)%string;
    (name_of_month month_names m ++ " " ++ decimal d)%string;
    (name_of_month month_abbrs m ++ " " ++ fmt02 d)%string;
    ("1900-" ++ fmt02 m ++ "-" ++ fmt02 d)%string;
    (decimal m ++ "/" ++ decimal d ++ "/1900")%string ].

(** The first day [d] of month [m] that is not before [today] *)
Definition next_occurrence (today : datetime) (m d : Z) : datetime :=
  mk_datetime
    (if (m <? month today) || ((m =? month today) && (d <? day today))
     then year today + 1 else year today)
    m d 0 0 0 0.

(** Whether one of the blocks before the formats recognises [s]; the
    answer does not depend on the day. *)
Definition is_keyword (s : string) : bool :=
  let today := mk_datetime 1 1 1 0 0 0 0 in
  match orelse (relative_dates today s)
          (orelse (next_unit today s)
          (orelse (in_n_units today s) (day_names today s))) with
  | Some _ => true
  | None => false
  end.

(** What the first format that reads [s] makes of it *)
Fixpoint first_reading (s : string) (fmts : list (list directive))
  : option datetime :=
  match fmts with
  | [] => None
  | fmt :: rest =>
      match strptime s fmt with
      | Returns t => Some t
      | _ => first_reading s rest
      end
  end.

(** Whether [s] is a normalised spelling of the day [d] of month [m] of
    the year 1900 that no keyword block takes *)
Definition reads_as_1900 (m d : Z) (s : string) : bool :=
  String.eqb (strip (lower s)) s
  && negb (String.eqb s EmptyString)
  && negb (is_keyword s)
  && match first_reading s formats with
     | Some t =>
         (year t =? 1900) && (month t =? m) && (day t =? d)
         && (hour t =? 0) && (minute t =? 0) && (second t =? 0)
         && (microsecond t =? 0)
     | None => false
     end.

(** The numbers from [lo] on, [n] of them *)
Fixpoint range (lo : Z) (n : nat) : list Z :=
  match n with
  | O => []
  | S k => lo :: range (lo + 1) k
  end.

(** A string without capital letters and without white space, which
    [lower] and [strip] leave as it is *)
Fixpoint is_plain (s : string) : bool :=
  match s with
  | EmptyString => true
  | String c r => negb (is_upper c) && negb (is_space c) && is_plain r
  end.

(** The date part of the ISO format *)
Definition iso_date (y m d : Z) : string :=
  fmt04 y ++ "-" ++ fmt02 m ++ "-" ++ fmt02 d.

(** A call that returns or raises [OverflowError]: it does not leave the
    process and raises nothing else. *)
Definition only_overflow {A : Type} (o : outcome A) : Prop :=
  match o with
  | Returns _ => True
  | Exits _ _ => False
  | Raises e => e = OverflowError
  end.

(** The same of a block of [parse_date], which may also fall through *)
Definition block_ok {A : Type} (b : option (outcome A)) : Prop :=
  match b with
  | Some o => only_overflow o
  | None => True
  end.

End TemporalSpec.
(** ** The reading commands of [scripts/crm.py] *)

Module Queries.
Import PyStr PyDate Store Crm.

(** *** A further slice of SQL: ordering, [LIMIT], [LEFT JOIN], [GROUP BY] *)

(** The storage classes in the order in which they sort: NULL, numbers,
    TEXT *)
Definition storage_class (v : sqlval) : Z :=
  match v with
  | Null => 0
  | Int _ | Real _ => 1
  | Text _ | Tags _ => 2
  end.

(** [a] sorts strictly before [b]: by storage class, numbers by value,
    TEXT byte by byte.  No statement sorts on the tags column or compares
    it: two values of it count as equal. *)
Definition sorts_before (a b : sqlval) : bool :=
  match a, b with
  | Text x, Text y => str_lt x y
  | _, _ =>
      match sql_num a, sql_num b with
      | Some x, Some y => negb (Qle_bool y x)
      | _, _ => storage_class a <? storage_class b
      end
  end.

(** [a < b], [a >= b] and [a <= b] in a [WHERE]: NULL when an operand is
    NULL, and NULL does not pass. *)
Definition sql_ltb (a b : sqlval) : bool :=
  match a, b with
  | Null, _ | _, Null => false
  | _, _ => sorts_before a b
  end.

Definition sql_geb (a b : sqlval) : bool :=
  match a, b with
  | Null, _ | _, Null => false
  | _, _ => negb (sorts_before a b)
  end.

Definition sql_leb (a b : sqlval) : bool := sql_geb b a.

(** [x IS NULL] *)
Definition is_null (v : sqlval) : bool :=
  match v with Null => true | _ => false end.

(** [ORDER BY]: rows that the order does not tell apart stay in the
    order of the scan, which is what the sorter of SQLite does although
    SQL leaves it open. *)
Fixpoint insert_sorted (before : row -> row -> bool) (x : row) (l : list row)
  : list row :=
  match l with
  | [] => [x]
  | y :: t =>
      if before y x then y :: insert_sorted before x t else x :: l
  end.

Fixpoint order_by (before : row -> row -> bool) (l : list row) : list row :=
  match l with
  | [] => []
  | x :: t => insert_sorted before x (order_by before t)
  end.

(** [k ASC], [k DESC] and [k ASC NULLS LAST] *)
Definition asc (k : string) (a b : row) : bool :=
  sorts_before (col k a) (col k b).

Definition desc (k : string) (a b : row) : bool :=
  sorts_before (col k b) (col k a).

Definition asc_nulls_last (k : string) (a b : row) : bool :=
  match col k a, col k b with
  | Null, _ => false
  | _, Null => true
  | x, y => sorts_before x y
  end.

(** [LIMIT n]: a negative [n] is no limit. *)
Definition sql_limit {A : Type} (n : Z) (l : list A) : list A :=
  if n <? 0 then l else firstn (Z.to_nat n) l.

(** [SELECT t.*, c.name as contact_name FROM .. t LEFT JOIN contacts c
    ON t.contact_id = c.id]: every row with the name of each contact it
    refers to, or once with NULL when it refers to none *)
Definition with_contact_name (d : db) (r : row) : list row :=
  match select (fun c => sql_eqb (col "contact_id" r) (col "id" c))
          (contacts d) with
  | [] => [(r ++ [("contact_name", Null)])%list]
  | cs => map (fun c => (r ++ [("contact_name", col "name" c)])%list) cs
  end.

(** [datetime('now')] at the UTC reading [utc] of the clock *)
Definition sql_datetime (utc : datetime) : string :=
  fmt04 (year utc) ++ "-" ++ fmt02 (month utc) ++ "-" ++ fmt02 (day utc)
  ++ " " ++ fmt02 (hour utc) ++ ":" ++ fmt02 (minute utc) ++ ":"
  ++ fmt02 (second utc).

(** [date('now', 'start of month')] *)
Definition sql_start_of_month (utc : datetime) : string :=
  fmt04 (year utc) ++ "-" ++ fmt02 (month utc) ++ "-01".

(** *** Contacts *)

(** [lower(name) LIKE ? OR lower(email) LIKE ? OR lower(company) LIKE ?],
    each bound to [f'%{query}%'] *)
Definition matches_contact (pattern : string) (r : row) : bool :=
  sql_like (sql_lower (col "name" r)) pattern
  || sql_like (sql_lower (col "email" r)) pattern
  || sql_like (sql_lower (col "company" r)) pattern.

Definition find_contact (text : string) (limit : Z) : M (list row) :=
  query (fun d =>
    sql_limit limit
      (order_by (desc "updated_at")
         (select (matches_contact (contains_pattern text)) (contacts d)))).

(** *** Tasks *)

(** [t.completed_at IS NULL] and
    [t.completed_at IS NULL AND t.due_at < datetime('now')] *)
Definition pending (r : row) : bool := is_null (col "completed_at" r).

Definition overdue (utc : datetime) (r : row) : bool :=
  is_null (col "completed_at" r)
  && sql_ltb (col "due_at" r) (Text (sql_datetime utc)).

Definition list_tasks (utc : datetime) (only_pending only_overdue : bool)
    (limit : Z) : M (list row) :=
  query (fun d =>
    let joined := flat_map (with_contact_name d) (map snd (tasks d)) in
    if only_pending then
      sql_limit limit
        (order_by (asc_nulls_last "due_at") (filter pending joined))
    else if only_overdue then
      sql_limit limit (order_by (asc "due_at") (filter (overdue utc) joined))
    else sql_limit limit (order_by (desc "created_at") joined)).

(** *** The pipeline *)

(** One row of [SELECT stage, COUNT( * ) as count, SUM(value) as
    total_value .. GROUP BY stage] *)
Record stage_summary : Type := mk_stage {
  s_stage : string;
  s_count : Z;
  s_total_value : option Q
}.

Record pipeline_result : Type := mk_pipeline {
  stages : list stage_summary;
  total_deals : Z;
  total_value : Q;
  weighted_value : Q
}.

(** The stage of a deal that passed [stage NOT IN ('won', 'lost')], which
    lets only TEXT through *)
Definition stage_text (r : row) : string :=
  match col "stage" r with Text s => s | _ => EmptyString end.

(** The values of a list without repetition, in the order in which they
    first appear *)
Fixpoint distinct (l : list string) : list string :=
  match l with
  | [] => []
  | x :: t => x :: filter (fun y => negb (String.eqb x y)) (distinct t)
  end.

(** [SUM(value)] over rows *)
Definition sum_value (rows : list row) : option Q :=
  sql_sum (map (fun r => sql_num (col "value" r)) rows).

Definition summarise (rows : list row) (stage : string) : stage_summary :=
  let group := filter (fun r => String.eqb (stage_text r) stage) rows in
  mk_stage stage (Z.of_nat (List.length group)) (sum_value group).

(** [CASE stage WHEN 'lead' THEN 1 .. END]; any other stage gives NULL,
    which sorts first and is 0 here. *)
Definition stage_rank (stage : string) : Z :=
  if String.eqb stage "lead" then 1
  else if String.eqb stage "qualified" then 2
  else if String.eqb stage "proposal" then 3
  else if String.eqb stage "negotiation" then 4
  else 0.

Fixpoint insert_by_rank (x : stage_summary) (l : list stage_summary)
  : list stage_summary :=
  match l with
  | [] => [x]
  | y :: t =>
      if stage_rank (s_stage y) <? stage_rank (s_stage x)
      then y :: insert_by_rank x t
      else x :: l
  end.

Fixpoint order_by_rank (l : list stage_summary) : list stage_summary :=
  match l with
  | [] => []
  | x :: t => insert_by_rank x (order_by_rank t)
  end.

(** The grouped statement of [pipeline].  It fixes the order of the four
    stages it names; the others come first, here in the order in which
    the scan meets them. *)
Definition pipeline_stages (d : db) : list stage_summary :=
  let rows := select open_stage (deals d) in
  order_by_rank (map (summarise rows) (distinct (map stage_text rows))).

(** [x or 0]; the sums of [pipeline] are [sum(.. for r in rows)], which
    adds from the left starting at 0. *)
Definition or_zero (x : option Q) : Q :=
  match x with Some q => q | None => 0%Q end.

Definition pipeline : M pipeline_result :=
  rows <- query pipeline_stages ;;
  weighted <- query pipeline_weighted_value ;;
  ret (mk_pipeline rows
         (fold_left Z.add (map s_count rows) 0)
         (fold_left Qplus (map (fun r => or_zero (s_total_value r)) rows) 0%Q)
         weighted).

(** *** Statistics *)

Record stats_result : Type := mk_stats {
  st_contacts : Z;
  st_deals : Z;
  st_open_deals : Z;
  st_interactions : Z;
  st_pending_tasks : Z;
  st_overdue_tasks : Z;
  st_pipeline_value : Q;
  st_won_this_month : Q
}.

(** [SELECT COUNT( * ) .. WHERE p] *)
Definition count (p : row -> bool) (x : table) : Z :=
  Z.of_nat (List.length (select p x)).

(** [stage = 'won' AND closed_at >= date('now', 'start of month')] *)
Definition won_since (start : string) (r : row) : bool :=
  sql_eqb (col "stage" r) (Text "won")
  && sql_geb (col "closed_at" r) (Text start).

Definition stats (utc : datetime) : M stats_result :=
  n_contacts <- query (fun d => count (fun _ => true) (contacts d)) ;;
  n_deals <- query (fun d => count (fun _ => true) (deals d)) ;;
  open_deals <- query (fun d => count open_stage (deals d)) ;;
  n_interactions <- query (fun d => count (fun _ => true) (interactions d)) ;;
  pending_tasks <- query (fun d => count pending (tasks d)) ;;
  overdue_tasks <- query (fun d => count (overdue utc) (tasks d)) ;;
  pipeline_row <- query (fun d => sum_value (select open_stage (deals d))) ;;
  won_row <- query (fun d =>
               sum_value
                 (select (won_since (sql_start_of_month utc)) (deals d))) ;;
  ret (mk_stats n_contacts n_deals open_deals n_interactions pending_tasks
         overdue_tasks (or_zero pipeline_row) (or_zero won_row)).

End Queries.

(** ** The digest: [scripts/crm-digest.py] *)

Module Digest.
Import PyStr PyDate Store Crm Queries.

(** [a == b] on values read back by [json.loads].  The stage of a deal
    is a string or absent; a tags text is compared with another one
    only. *)
Definition py_eqb (a b : sqlval) : bool :=
  match a, b with
  | Null, Null => true
  | Text x, Text y => String.eqb x y
  | Tags x, Tags y =>
      if list_eq_dec string_dec x y then true else false
  | _, _ =>
      match sql_num a, sql_num b with
      | Some x, Some y => Qeq_bool x y
      | _, _ => false
      end
  end.

(** The body of the loop over the audit rows: [old_values] and
    [new_values] are read back as dictionaries, an absent one as [{}].
    The audit entries hold the dictionaries themselves, so that the
    [except] around [json.loads] has nothing to catch. *)
Definition stage_change (e : audit_entry) : option (sqlval * sqlval) :=
  let old := match a_old_values e with Some r => r | None => [] end in
  let new := match a_new_values e with Some r => r | None => [] end in
  match lookup "stage" new with
  | Some to =>
      if negb (py_eqb (col "stage" old) (col "stage" new))
      then Some (col "stage" old, to)
      else None
  | None => None
  end.

(** [table_name = 'deals' AND action = 'UPDATE' AND created_at >= ?] *)
Definition deal_update_since (since : string) (e : audit_entry) : bool :=
  String.eqb (a_table_name e) "deals"
  && match a_action e with UPDATE => true | _ => false end
  && negb (str_lt (a_created_at e) since).

(** [(now - timedelta(days=lookback_days)).isoformat()] *)
Definition yesterday (now : datetime) (lookback_days : Z) : outcome string :=
  obind (timedelta_days lookback_days) (fun k =>
  obind (add_days now (- k)) (fun t => Returns (isoformat t))).

(** [activity['deal_stage_changes']]: the pairs [from], [to] *)
Definition deal_stage_changes (now : datetime) (lookback_days : Z) (d : db)
  : outcome (list (sqlval * sqlval)) :=
  obind (yesterday now lookback_days) (fun since =>
  Returns
    (flat_map (fun e => match stage_change e with
                        | Some c => [c]
                        | None => []
                        end)
       (filter (deal_update_since since) (audit d)))).

(** [now.replace(hour=0, minute=0, second=0).isoformat()] and
    [now.replace(hour=23, minute=59, second=59).isoformat()]: the
    microseconds of [now] stay. *)
Definition today_start (now : datetime) : string :=
  isoformat (mk_datetime (year now) (month now) (day now) 0 0 0
               (microsecond now)).

Definition today_end (now : datetime) : string :=
  isoformat (mk_datetime (year now) (month now) (day now) 23 59 59
               (microsecond now)).

(** [t.completed_at IS NULL AND t.due_at >= ? AND t.due_at <= ?] *)
Definition due_today (now : datetime) (r : row) : bool :=
  is_null (col "completed_at" r)
  && sql_geb (col "due_at" r) (Text (today_start now))
  && sql_leb (col "due_at" r) (Text (today_end now)).

(** [t.completed_at IS NULL AND t.due_at < ?] *)
Definition overdue_before_today (now : datetime) (r : row) : bool :=
  is_null (col "completed_at" r)
  && sql_ltb (col "due_at" r) (Text (today_start now)).

End Digest.
(** ** The vocabulary of the properties of the commands *)

Module CrmSpec.
Import PyStr PyDate Store Crm Queries.
Local Open Scope list_scope.

(** The dictionary [updates] of [update_contact] when the statement runs *)
Definition contact_fields (a : contact_args) : row :=
  [("name", opt (c_name a)); ("email", opt (c_email a));
   ("phone", opt (c_phone a)); ("company", opt (c_company a));
   ("role", opt (c_role a)); ("source", opt (c_source a));
   ("notes", opt (c_notes a))].

Definition contact_updates (v : env) (a : contact_args) : row :=
  let u := collect (contact_fields a) in
  let u := if truthy (c_tags a)
           then dict_set "tags" (tags_value (c_tags a)) u
           else u in
  dict_set "updated_at" (Text (isoformat (now v))) u.

(** [UPDATE .. SET .. WHERE id = ?] on a table *)
Definition updated (id : sqlval) (updates : row) (x : table) : table :=
  map (fun r => if sql_eqb (col "id" (snd r)) id
                then (fst r, apply_updates updates (snd r))
                else r) x.

(** What tells the records of a table apart and dates them: the rowid,
    the id and the time of creation of each, in the order of the scan *)
Definition identity (x : table) : list (Z * sqlval * sqlval) :=
  map (fun r => (fst r, col "id" (snd r), col "created_at" (snd r))) x.

(** The rows whose id is not [id] *)
Definition others (id : sqlval) (rows : list row) : list row :=
  filter (fun r => negb (sql_eqb (col "id" r) id)) rows.

(** What the soft reference [--contact] resolves to *)
Definition resolved_contact (d : db) (contact : option string) : sqlval :=
  match contact with
  | Some (String c r) =>
      match fetchone (id_or_label "name" (String c r)) (contacts d) with
      | Some row => col "id" row
      | None => Null
      end
  | _ => Null
  end.

(** [parse_date(x) if x else None] as a value to store *)
Definition parsed (v : env) (x : option string) : outcome sqlval :=
  match x with
  | Some (String c r) =>
      obind (Temporal.parse_date (now v) (String c r))
        (fun o => Returns (opt o))
  | _ => Returns Null
  end.

(** The same where an absent date means now: [occurred] of
    [log_interaction] *)
Definition parsed_or_now (v : env) (x : option string) : outcome sqlval :=
  if truthy x then parsed v x else Returns (Text (isoformat (now v))).

(** The rows that [add_deal], [add_task] and [log_interaction] insert *)
Definition deal_row (v : env) (d : db) (a : deal_args) (expected : sqlval)
  : row :=
  new_row (eng v) Deals
    [("contact_id", resolved_contact d (d_contact a));
     ("title", opt (d_title a)); ("value", opt_real (d_value a));
     ("currency", Text (or_default (d_currency a) "USD"));
     ("stage", Text (or_default (d_stage a) "lead"));
     ("probability", opt_int (d_probability a));
     ("expected_close", expected); ("notes", opt (d_notes a))].

Definition task_row (v : env) (d : db) (a : task_args) (due : sqlval) : row :=
  new_row (eng v) Tasks
    [("contact_id", resolved_contact d (t_contact a));
     ("deal_id", opt (t_deal a)); ("title", opt (t_title a));
     ("due_at", due);
     ("priority", Text (or_default (t_priority a) "normal"))].

Definition interaction_row (v : env) (d : db) (a : interaction_args)
    (occurred : sqlval) : row :=
  new_row (eng v) Interactions
    [("contact_id", resolved_contact d (i_contact a));
     ("deal_id", opt (i_deal a)); ("type", Text (i_type a));
     ("direction", opt (i_direction a)); ("summary", Text (i_summary a));
     ("raw_content", opt (i_raw a)); ("occurred_at", occurred)].

(** Every row of the table has the column [k]. *)
Definition has_column (k : string) (x : table) : Prop :=
  Forall (fun r => lookup k (snd r) <> None) x.

(** A store for the examples: a contact, an open deal of hers and a task *)
Definition example_env (t : datetime) (id stamp : string) : env :=
  mk_env t (mk_engine id stamp).

Definition one_of_each : db :=
  let d1 := snd (run (add_contact
                   (example_env (mk_datetime 2024 1 10 9 0 0 0)
                      "c1" "2024-01-10 09:00:00")
                   (mk_contact_args "" (Some "Anna Karlsson")
                      (Some "anna@example.org") None (Some "Studio 3") None
                      None None None None)) empty_db) in
  let d2 := snd (run (add_deal
                   (example_env (mk_datetime 2024 1 11 9 0 0 0)
                      "d1" "2024-01-11 09:00:00")
                   (mk_deal_args "" (Some "Website redesign") (Some 1000%Q)
                      (Some "anna") None (Some 40) None None None None)) d1) in
  snd (run (add_task
         (example_env (mk_datetime 2024 1 12 9 0 0 0)
            "t1" "2024-01-12 09:00:00")
         (mk_task_args "" (Some "Send proposal") (Some "anna") None
            (Some "tomorrow") None None)) d2).

End CrmSpec.
(** ** The vocabulary of the properties of due dates *)

Module DueSpec.
Import PyStr PyDate Store Crm Queries.
Local Open Scope list_scope.

(** The date fields are those of a day of the calendar. *)
Definition calendar_day (t : datetime) : Prop :=
  1 <= year t <= 9999 /\ 1 <= month t <= 12 /\ 1 <= day t <= 31.

(** The order of two instants by their days *)
Definition compare_days (a b : datetime) : comparison :=
  match year a ?= year b with
  | Eq => match month a ?= month b with
          | Eq => day a ?= day b
          | c => c
          end
  | c => c
  end.

Definition earlier_day (a b : datetime) : bool :=
  match compare_days a b with Lt => true | _ => false end.

Definition same_day (a b : datetime) : bool :=
  match compare_days a b with Eq => true | _ => false end.

(** A pending task due on the day of [t], as [add-task] stores it when
    [parse_date] recognises the date *)
Definition task_due (t : datetime) : row :=
  [("id", Text "t1"); ("contact_id", Null); ("deal_id", Null);
   ("title", Text "Send proposal");
   ("due_at", Text (isoformat (midnight t)));
   ("priority", Text "normal"); ("completed_at", Null);
   ("created_at", Text "2024-01-12 09:00:00")].

End DueSpec.
(** ** The command line of [scripts/crm-backup.py] *)

Module BackupCli.
Import PyStr PyDate Backup.

(** An entry of [list_backups]: the entry of [get_backup_files] with the
    text of its note file, stripped, when there is one *)
Record listed_backup : Type := mk_listed {
  info : backup_info;
  note : option string
}.

Record listing : Type := mk_listing {
  count : Z;
  backups : list listed_backup;
  backup_dir : string
}.

(** What [main] prints *)
Inductive result : Type :=
| BackupResult (r : backup_result)
| RestoreResult (r : restore_result)
| ListResult (r : listing)
| PruneResult (r : prune_result)
| ErrorResult (error : string).

(** The parsed command line *)
Inductive cli : Type :=
| CmdBackup (note : option string)
| CmdRestore (path : option string) (confirm : bool)
| CmdList
| CmdPrune (keep : Z).

Section Cli.

Variable DB_PATH : string.
Variable BACKUP_DIR : string.
Variable now : datetime.
Variable clock : Z.
Variable iso_of_stamp : string -> Z -> string.
Variable has_contacts : string -> bool.
Variable denied : string -> bool.

Definition list_backups : F listing :=
  backups <-- get_backup_files BACKUP_DIR iso_of_stamp ;;
  noted <-- read (fun s =>
              map (fun b =>
                     mk_listed b
                       (match fs_lookup (path b ++ ".note") s with
                        | Some f => Some (strip (data f))
                        | None => None
                        end)) backups) ;;
  ret (mk_listing (Z.of_nat (List.length backups)) noted BACKUP_DIR).

(** [main()] after [parser.parse_args()] *)
Definition main (args : cli) : F result :=
  match args with
  | CmdBackup note =>
      r <-- backup_database DB_PATH BACKUP_DIR now clock denied note ;;
      ret (BackupResult r)
  | CmdRestore path confirm =>
      match path with
      | Some (String c p) =>
          r <-- restore_database DB_PATH BACKUP_DIR now clock has_contacts
                  denied (String c p) confirm ;;
          ret (RestoreResult r)
      | _ =>
          (* Use latest backup *)
          backups <-- get_backup_files BACKUP_DIR iso_of_stamp ;;
          match backups with
          | [] => ret (ErrorResult "No backups found")
          | latest :: _ =>
              r <-- restore_database DB_PATH BACKUP_DIR now clock
                      has_contacts denied (Backup.path latest) confirm ;;
              ret (RestoreResult r)
          end
      end
  | CmdList =>
      r <-- list_backups ;;
      ret (ListResult r)
  | CmdPrune keep =>
      r <-- prune_backups BACKUP_DIR iso_of_stamp denied keep ;;
      ret (PruneResult r)
  end.

End Cli.

End BackupCli.

(** ** The vocabulary of the further properties of backups *)

Module BackupMoreSpec.
Import PyStr PyDate Backup BackupSpec.
Local Open Scope list_scope.

(** The name and the path of the backup taken at [now] *)
Definition backup_name (now : datetime) : string :=
  "crm_backup_" ++ strftime_stamp now ++ ".db".

(** A live store and a backup of it that carries the stamp of
    [example_now] *)
Definition backup_of_this_second : world :=
  mk_world
    [("/home/u/.local/share/agent-crm/crm.db",
      mk_file "SQLite format 3 contacts deals v2" 1709200000);
     ("/home/u/.local/share/agent-crm/backups/crm_backup_20240301_083000.db",
      mk_file "SQLite format 3 contacts deals v1" 1709281800)]
    [].

End BackupMoreSpec.

(** * Properties *)

Module DateFacts.
Import PyStr PyDate.

(** *** Ordinals and dates

    The calendar repeats every 400 years, that is every 146097 days, so
    that the dates of one such cycle decide all of them. *)

Lemma round_trips_from_spec (fuel : nat) (n k : Z) :
  round_trips_from fuel n = true ->
  n <= k < n + Z.of_nat fuel -> ordinal_round_trips k = true.
Proof.
  revert n. induction fuel as [| f IH]; intros n H Hk; [lia |].
  cbn [round_trips_from] in H. apply andb_prop in H as [H0 H1].
  destruct (Z.eq_dec k n) as [-> | Hne]; [exact H0 |].
  apply (IH (n + 1) H1). lia.
Qed.

Lemma first_cycle_round_trips (r : Z) :
  0 <= r < 146097 -> ordinal_round_trips (r + 1) = true.
Proof.
  intros Hr.
  apply (round_trips_from_spec (Z.to_nat 146097) 1); [| lia].
  vm_cast_no_check (eq_refl true).
Qed.

Lemma is_leap_shift (y a : Z) : is_leap (y + 400 * a) = is_leap y.
Proof.
  unfold is_leap.
  replace (y + 400 * a) with (y + (100 * a) * 4) at 1 by ring.
  replace (y + 400 * a) with (y + (4 * a) * 100) at 1 by ring.
  replace (y + 400 * a) with (y + a * 400) by ring.
  now rewrite !Z.mod_add by lia.
Qed.

Lemma days_before_year_shift (y a : Z) :
  days_before_year (y + 400 * a) = days_before_year y + 146097 * a.
Proof.
  unfold days_before_year. cbv zeta.
  replace (y + 400 * a - 1) with (y - 1 + 400 * a) by ring.
  replace ((y - 1 + 400 * a) / 4) with ((y - 1) / 4 + 100 * a)
    by (replace (y - 1 + 400 * a) with (y - 1 + (100 * a) * 4) by ring;
        now rewrite Z.div_add by lia).
  replace ((y - 1 + 400 * a) / 100) with ((y - 1) / 100 + 4 * a)
    by (replace (y - 1 + 400 * a) with (y - 1 + (4 * a) * 100) by ring;
        now rewrite Z.div_add by lia).
  replace ((y - 1 + 400 * a) / 400) with ((y - 1) / 400 + a)
    by (replace (y - 1 + 400 * a) with (y - 1 + a * 400) by ring;
        now rewrite Z.div_add by lia).
  ring.
Qed.

Lemma ymd2ord_shift (y m d a : Z) :
  ymd2ord (y + 400 * a) m d = ymd2ord y m d + 146097 * a.
Proof.
  unfold ymd2ord, days_before_month.
  rewrite days_before_year_shift, is_leap_shift. ring.
Qed.

Lemma ord2ymd_shift (r a : Z) :
  0 <= r < 146097 ->
  ord2ymd (146097 * a + r + 1)
  = let '(y, m, d) := ord2ymd (r + 1) in (y + 400 * a, m, d).
Proof.
  intros Hr. unfold ord2ymd. cbv zeta.
  replace (146097 * a + r + 1 - 1) with (r + a * 146097) by ring.
  replace (r + 1 - 1) with r by ring.
  rewrite Z.div_add, Z.mod_add by lia.
  rewrite (Z.div_small r 146097), (Z.mod_small r 146097) by lia.
  set (n100 := r / 36524). set (n1 := r mod 36524 mod 1461 / 365).
  replace (0 + a) with a by ring.
  replace (0 * 400 + 1 + n100 * 100 + r mod 36524 / 1461 * 4 + n1)
    with (1 + n100 * 100 + r mod 36524 / 1461 * 4 + n1) by ring.
  replace (a * 400 + 1 + n100 * 100 + r mod 36524 / 1461 * 4 + n1)
    with (1 + n100 * 100 + r mod 36524 / 1461 * 4 + n1 + 400 * a) by ring.
  set (y := 1 + n100 * 100 + r mod 36524 / 1461 * 4 + n1).
  destruct ((n1 =? 4) || (n100 =? 4)); [f_equal; f_equal; ring |].
  match goal with |- context [if ?c then _ else _] => destruct c end;
    reflexivity.
Qed.

(** The date that [date.fromordinal] gives for a day has that day as its
    ordinal. *)
Lemma ordinal_of_ord2ymd (n : Z) :
  0 < n -> let '(y, m, d) := ord2ymd n in ymd2ord y m d = n.
Proof.
  intros Hn.
  pose proof (Z.div_mod (n - 1) 146097 ltac:(lia)) as E.
  pose proof (Z.mod_pos_bound (n - 1) 146097 ltac:(lia)) as B.
  set (a := (n - 1) / 146097) in *. set (r := (n - 1) mod 146097) in *.
  replace n with (146097 * a + r + 1) by lia.
  rewrite (ord2ymd_shift r a B).
  pose proof (first_cycle_round_trips r B) as H.
  unfold ordinal_round_trips in H.
  destruct (ord2ymd (r + 1)) as [[y m] d].
  apply Z.eqb_eq in H. rewrite ymd2ord_shift, H. ring.
Qed.

(** Adding days moves the ordinal by that many days and keeps the time
    of day. *)
Lemma add_days_ordinal (t : datetime) (k : Z) :
  0 < toordinal t + k <= MAXORDINAL ->
  exists t',
    add_days t k = Returns t'
    /\ toordinal t' = toordinal t + k
    /\ (hour t', minute t', second t', microsecond t')
       = (hour t, minute t, second t, microsecond t).
Proof.
  intros [Hlo Hhi]. unfold add_days.
  apply Z.ltb_lt in Hlo as Hlo'. apply Z.leb_le in Hhi.
  rewrite Hlo', Hhi. cbn [andb].
  pose proof (ordinal_of_ord2ymd (toordinal t + k) Hlo) as H.
  destruct (ord2ymd (toordinal t + k)) as [[y m] d].
  eexists. split; [reflexivity |]. split; [exact H | reflexivity].
Qed.

End DateFacts.

Module TemporalFacts.
Import PyStr PyDate Temporal DateFacts.

(** The arithmetic of days across the end of a month, a leap day and
    the end of a year *)
Example add_days_end_of_month :
  add_days (mk_datetime 2025 1 30 0 0 0 0) 3
  = Returns (mk_datetime 2025 2 2 0 0 0 0).
Proof. reflexivity. Qed.

Example add_days_leap_day :
  add_days (mk_datetime 2024 2 27 0 0 0 0) 3
  = Returns (mk_datetime 2024 3 1 0 0 0 0).
Proof. reflexivity. Qed.

Example add_days_end_of_year :
  add_days (mk_datetime 2025 12 30 0 0 0 0) 3
  = Returns (mk_datetime 2026 1 2 0 0 0 0).
Proof. reflexivity. Qed.

Example add_days_out_of_range :
  add_days (mk_datetime 9999 12 30 0 0 0 0) 3 = Raises OverflowError.
Proof. reflexivity. Qed.

(** What no block recognises comes back, but as the string that was
    matched against the blocks: lower-cased and stripped. *)
Lemma unrecognised_comes_back_normalised (now : datetime) (s : string) :
  s <> EmptyString ->
  recognise (midnight now) (strip (lower s)) = None ->
  parse_date now s = Returns (Some (strip (lower s))).
Proof.
  intros Hs Hr. unfold parse_date, parse_normalised.
  destruct s; [contradiction |]. cbv zeta. now rewrite Hr.
Qed.

(** C4 at the input ["ASAP"], which no pattern of the resolver matches:
    the string that comes back is ["asap"], not the input. *)
Theorem parse_date_unparseable_is_lowered (now : datetime) :
  recognise (midnight now) (strip (lower "ASAP")) = None
  /\ parse_date now "ASAP" = Returns (Some "asap")
  /\ "asap" <> "ASAP".
Proof. repeat split. discriminate. Qed.

(** C5: what [parse_date] returns depends on the expression and on the
    calendar day of the reference instant only; ["today"] is midnight of
    that day whatever the time of day; and ["in 3 days"] is that midnight
    plus three days in the arithmetic of [datetime]: the midnight whose
    ordinal is three more, or [OverflowError] past the last day of year
    9999 as for the sum itself. *)
Theorem parse_date_today_and_in_3_days (T : datetime) :
  (forall T' e, midnight T' = midnight T -> parse_date T' e = parse_date T e)
  /\ parse_date T "today"
     = Returns (Some (isoformat
                        (mk_datetime (year T) (month T) (day T) 0 0 0 0)))
  /\ parse_date T "in 3 days"
     = obind (add_days (mk_datetime (year T) (month T) (day T) 0 0 0 0) 3)
         (fun d => Returns (Some (isoformat d)))
  /\ (0 < toordinal T + 3 <= MAXORDINAL ->
      exists d,
        parse_date T "in 3 days" = Returns (Some (isoformat d))
        /\ toordinal d = toordinal T + 3
        /\ (hour d, minute d, second d, microsecond d) = (0, 0, 0, 0)).
Proof.
  split; [| split; [| split]].
  - intros T' e H. unfold parse_date. destruct e as [| c r]; [reflexivity |].
    cbv zeta. rewrite H. reflexivity.
  - reflexivity.
  - reflexivity.
  - intros H.
    destruct (add_days_ordinal (midnight T) 3 H) as (d & E & Ho & Ht).
    exists d. split; [| split; assumption].
    change (parse_date T "in 3 days")
      with (obind (add_days (midnight T) 3)
              (fun d => Returns (Some (isoformat d)))).
    now rewrite E.
Qed.

Lemma parse_date_today_and_in_3_days_witness :
  parse_date (mk_datetime 2026 11 4 8 0 0 0) "friday"
  = parse_date (mk_datetime 2026 11 4 13 45 10 123) "friday"
  /\ parse_date (mk_datetime 2026 11 4 13 45 10 123) "in 3 days"
     = Returns (Some "2026-11-07T00:00:00")
  /\ exists d,
       parse_date (mk_datetime 2026 11 4 13 45 10 123) "in 3 days"
       = Returns (Some (isoformat d))
       /\ toordinal d = toordinal (mk_datetime 2026 11 4 13 45 10 123) + 3.
Proof.
  destruct (parse_date_today_and_in_3_days
              (mk_datetime 2026 11 4 13 45 10 123)) as (Hday & _ & _ & Hord).
  split; [| split].
  - apply Hday. reflexivity.
  - reflexivity.
  - destruct Hord as (d & E & Ho & _).
    + split; [reflexivity | discriminate].
    + exists d. split; assumption.
Defined.

End TemporalFacts.
Module StoreFacts.
Import PyStr PyDate Store.
Local Open Scope list_scope.

Lemma max_rowid_bound (x : table) (r : Z * row) :
  In r x -> fst r <= max_rowid x.
Proof.
  induction x as [| y x IH]; simpl; [tauto |].
  intros [-> | H]; [lia |]. specialize (IH H). lia.
Qed.

Lemma find_rowid_app (n : Z) (x : table) (r : row) :
  (forall y, In y x -> fst y <> n) ->
  find (fun y => fst y =? n) (x ++ [(n, r)]) = Some (n, r).
Proof.
  induction x as [| y x IH]; simpl; intros H.
  - now rewrite Z.eqb_refl.
  - destruct (Z.eqb_spec (fst y) n) as [E | _].
    + exfalso. apply (H y); auto.
    + apply IH. intros z Hz. apply H. now right.
Qed.

Lemma by_rowid_fresh (x : table) (r : row) :
  by_rowid (next_rowid x) (x ++ [(next_rowid x, r)]) = Some r.
Proof.
  unfold by_rowid. rewrite find_rowid_app; [reflexivity |].
  intros y Hy. apply max_rowid_bound in Hy. unfold next_rowid. lia.
Qed.

End StoreFacts.

Module CrmFacts.
Import PyStr PyDate Store Crm AuditSpec StoreFacts.
Local Open Scope list_scope.


#[local] Arguments apply_updates : simpl never.

Lemma bind_bind {A B C : Type} (m : M A) (f : A -> M B) (g : B -> M C) (c : conn) :
  bind (bind m f) g c = bind m (fun x => bind (f x) g) c.
Proof. unfold bind. destruct (m c) as [[a | n e | e] c']; reflexivity. Qed.

Lemma bind_ret {A B : Type} (a : A) (k : A -> M B) (c : conn) :
  bind (ret a) k c = k a c.
Proof. reflexivity. Qed.

Lemma bind_query {A B : Type} (f : db -> A) (k : A -> M B) (c : conn) :
  bind (query f) k c
  = k (f (working c))
      (mk_conn (committed c) (working c) (observed c ++ [committed c])).
Proof. reflexivity. Qed.

Lemma bind_execute {B : Type} (f : db -> db) (k : unit -> M B) (c : conn) :
  bind (execute f) k c
  = k tt (mk_conn (committed c) (f (working c)) (observed c ++ [committed c])).
Proof. reflexivity. Qed.

Lemma bind_commit {B : Type} (k : unit -> M B) (c : conn) :
  bind commit k c
  = k tt (mk_conn (working c) (working c) (observed c ++ [working c])).
Proof. reflexivity. Qed.

Lemma bind_lift {A B : Type} (o : outcome A) (k : A -> M B) (c : conn) :
  bind (lift o) k c
  = match o with
    | Returns a => k a c
    | Exits n e => (Exits n e, c)
    | Raises e => (Raises e, c)
    end.
Proof. destruct o; reflexivity. Qed.

Ltac reduce H :=
  cbn [connect ret lift sys_exit working committed observed get_table
       set_table contacts deals interactions tasks audit fst snd app] in H.

Ltac step H :=
  first
    [ rewrite bind_bind in H | rewrite bind_ret in H | rewrite bind_query in H
    | rewrite bind_execute in H | rewrite bind_commit in H
    | rewrite bind_lift in H | rewrite by_rowid_fresh in H
    | match type of H with
      | context [bind (match ?x with _ => _ end) _ _] => destruct x eqn:?
      | (match ?x with _ => _ end) _ = _ => destruct x eqn:?
      | (match ?x with _ => _ end) = _ => destruct x eqn:?
      end ];
  reduce H.

Tactic Notation "commands" "in" hyp(H) :=
  unfold add_contact, update_contact, delete_contact, add_deal, update_deal,
    log_interaction, add_task, complete_task, soft_contact, date_if, insert,
    audit_log, update_where_id, delete_where_id in H.

Ltac other_tables :=
  let t := fresh "t" in let Ht := fresh "Ht" in
  intros t Ht; destruct t; try reflexivity; exfalso; apply Ht; reflexivity.

Ltac finish :=
  unfold atomic; cbn [committed observed fst snd];
  first
    [ split; [reflexivity | repeat (apply Forall_cons; [reflexivity |]); apply Forall_nil]
    | split;
      [ eexists; split; [unfold add_audit; cbn [audit]; reflexivity |];
        split; [reflexivity |]; split; [reflexivity |];
        split; [reflexivity |]; split;
        [ cbv beta iota delta [a_record_id kind target get_table contacts
               deals interactions tasks add_audit];
          first [ eapply mutated_insert; reflexivity
                | apply mutated_update | apply mutated_delete ]
        | other_tables ]
      | repeat (apply Forall_cons;
                [first [left; reflexivity | right; reflexivity] |]);
        apply Forall_nil ] ].

Lemma dispatch_atomic (v : env) (c : command) (d : db) (o : outcome printed) (k : conn) :
  dispatch v c (connect d) = (o, k) -> atomic d o c k.
Proof.
  intros H.
  destruct c; unfold dispatch in H; commands in H; reduce H; repeat step H;
    unfold ret, sys_exit in H;
    injection H as <- <-; finish.
Qed.

(** A command that does not come back leaves the store as it was, and no
    committed state other than that one was ever visible. *)
Lemma failed_command_commits_nothing (v : env) (c : command) (d d' : db)
    (o : outcome printed) :
  run (dispatch v c) d = (o, d') ->
  (forall out, o <> Returns out) ->
  d' = d /\ Forall (fun s => s = d) (observations (dispatch v c) d).
Proof.
  unfold run, observations. intros H Ho.
  destruct (dispatch v c (connect d)) as [o' k] eqn:E. cbn [snd] in *.
  injection H as -> <-. apply dispatch_atomic in E.
  destruct o as [out | n e | e]; [now elim (Ho out) | exact E | exact E].
Qed.



End CrmFacts.

Module ResolverFacts.
Import PyStr PyDate Store Crm ResolverSpec.
Local Open Scope list_scope.

Lemma fetchone_cons (p : row -> bool) (y : Z * row) (tbl : table) :
  fetchone p (y :: tbl) = if p (snd y) then Some (snd y) else fetchone p tbl.
Proof. unfold fetchone, select. simpl. now destruct (p (snd y)). Qed.

Lemma fetchone_some (p : row -> bool) (tbl : table) (r : row) :
  fetchone p tbl = Some r <->
  exists pre n post,
    tbl = pre ++ (n, r) :: post /\ p r = true
    /\ Forall (fun y => p (snd y) = false) pre.
Proof.
  induction tbl as [| [n0 r0] tbl IH]; split.
  - discriminate.
  - intros ([| y pre] & n & post & E & _); discriminate E.
  - rewrite fetchone_cons. cbn [snd]. destruct (p r0) eqn:P.
    + intros [= <-]. exists [], n0, tbl. auto.
    + intros H. apply IH in H as (pre & n & post & -> & Hr & Hpre).
      exists ((n0, r0) :: pre), n, post. auto.
  - intros (pre & n & post & E & Hr & Hpre). rewrite fetchone_cons. cbn [snd].
    destruct pre as [| y pre]; cbn [app] in E.
    + injection E as -> -> ->. now rewrite Hr.
    + injection E as <- ->. inversion Hpre as [| ? ? P Hpre']; subst.
      cbn [snd] in P. rewrite P. apply IH. exists pre, n, post. auto.
Qed.

Lemma fetchone_none (p : row -> bool) (tbl : table) :
  fetchone p tbl = None <-> Forall (fun y => p (snd y) = false) tbl.
Proof.
  induction tbl as [| y tbl IH]; [split; auto; reflexivity |].
  rewrite fetchone_cons. split.
  - destruct (p (snd y)) eqn:P; [discriminate |]. intros H. constructor; tauto.
  - intros H. inversion H as [| ? ? P H']; subst. rewrite P. tauto.
Qed.

Lemma sql_eqb_text (v : sqlval) (x : string) :
  sql_eqb v (Text x) = true <-> v = Text x.
Proof.
  destruct v; simpl; try (split; [discriminate | discriminate]).
  rewrite String.eqb_eq. split; congruence.
Qed.

(** C2, as the code has it: the lookup by a loose identifier returns the
    first row, in the order the table is scanned, whose id equals the
    identifier or whose lower-cased label matches the pattern
    [%identifier%]; it returns nothing exactly when no row does.  Which row
    comes back is a function of the table and the identifier alone. *)
Theorem resolver_returns_first_match (label x : string) (tbl : table) :
  (forall r,
     fetchone (id_or_label label x) tbl = Some r <->
     exists pre n post,
       tbl = pre ++ (n, r) :: post
       /\ id_or_label label x r = true
       /\ Forall (fun y => id_or_label label x (snd y) = false) pre)
  /\ (fetchone (id_or_label label x) tbl = None <->
      Forall (fun y => id_or_label label x (snd y) = false) tbl)
  /\ (forall r,
        id_or_label label x r = true <->
        col "id" r = Text x
        \/ sql_like (sql_lower (col label r)) (contains_pattern x) = true).
Proof.
  split; [| split].
  - intros r. apply fetchone_some.
  - apply fetchone_none.
  - intros r. unfold id_or_label. rewrite orb_true_iff, sql_eqb_text. tauto.
Qed.

Lemma resolver_returns_first_match_witness :
  exists r pre n post,
    contacts three_contacts = pre ++ (n, r) :: post
    /\ col "id" r = Text "1"
    /\ id_or_label "name" "anna" r = true
    /\ Forall (fun y => id_or_label "name" "anna" (snd y) = false) pre.
Proof.
  destruct (proj1 (proj1 (resolver_returns_first_match "name" "anna"
                            (contacts three_contacts)) _) eq_refl)
    as (pre & n & post & E & Hr & Hpre).
  eexists. exists pre, n, post. split; [exact E |]. split; [reflexivity |].
  split; [exact Hr | exact Hpre].
Defined.

(** C2 as stated fails: in a store of three contacts added one after the
    other, the identifier ["3"] is the id of the third contact but
    resolves to the first one, whose name contains a 3; and ["anna"]
    matches the first two names but resolves to the first contact although
    the second was touched later. *)
Lemma resolver_prefers_scan_order :
  ~ exact_match_wins "name" /\ ~ latest_match_wins "name" "updated_at".
Proof.
  split; intros H.
  - pose proof (H "3" (contacts three_contacts)) as H3. vm_compute in H3.
    specialize (H3 _ _ eq_refl (or_intror (or_intror (or_introl eq_refl)))
                  eq_refl).
    discriminate H3.
  - pose proof (H "anna" (contacts three_contacts)) as Ha. vm_compute in Ha.
    specialize (Ha _ _ eq_refl (or_intror (or_introl eq_refl)) eq_refl).
    discriminate Ha.
Qed.


(** The same through [update_contact]: a note meant for the contact that
    was touched last lands on the first one. *)
Example update_contact_by_name_takes_the_first :
  fst (run (update_contact
              (at_time (mk_datetime 2024 6 2 10 0 0 0) "" "2024-06-02 10:00:00")
              (mk_contact_args "anna" None None None None None None None
                 (Some "prefers email") None))
         three_contacts)
  = Returns (Updated (Text "1")
               [("notes", Text "prefers email");
                ("updated_at", Text "2024-06-02T10:00:00")]).
Proof. reflexivity. Qed.

End ResolverFacts.

Module DealFacts.
Import PyStr PyDate Store Crm AuditSpec StoreFacts CrmFacts DealSpec.
Local Open Scope list_scope.

#[local] Arguments apply_updates : simpl never.

(** *** Rows under [UPDATE] *)

Lemma lookup_set_col (k k' : string) (v : sqlval) (r : row) :
  lookup k (set_col k' v r)
  = if String.eqb k k' then option_map (fun _ => v) (lookup k r)
    else lookup k r.
Proof.
  induction r as [| [k0 v0] r IH]; simpl.
  - now destruct (String.eqb k k').
  - destruct (String.eqb_spec k' k0) as [-> | Hk0]; simpl.
    + destruct (String.eqb_spec k k0) as [-> | Hk]; simpl; [reflexivity |].
      now destruct (String.eqb k k0).
    + destruct (String.eqb_spec k k0) as [-> | Hk]; simpl.
      * destruct (String.eqb_spec k0 k') as [-> | _]; [congruence | reflexivity].
      * exact IH.
Qed.

Lemma lookup_apply_updates (k : string) (updates : row) (r : row) :
  lookup k (apply_updates updates r)
  = option_map (last_assign k updates) (lookup k r).
Proof.
  unfold apply_updates, last_assign. revert r.
  induction updates as [| [k' v] updates IH]; intros r; simpl.
  - now destruct (lookup k r).
  - rewrite IH, lookup_set_col.
    destruct (String.eqb k k'); [| reflexivity].
    now destruct (lookup k r).
Qed.

Lemma keys_set_col (k : string) (v : sqlval) (r : row) :
  map fst (set_col k v r) = map fst r.
Proof.
  induction r as [| [k0 v0] r IH]; simpl; [reflexivity |].
  destruct (String.eqb k k0); simpl; [reflexivity | now rewrite IH].
Qed.

Lemma keys_apply_updates (updates : row) (r : row) :
  map fst (apply_updates updates r) = map fst r.
Proof.
  unfold apply_updates. revert r.
  induction updates as [| [k v] updates IH]; intros r; simpl; [reflexivity |].
  now rewrite IH, keys_set_col.
Qed.

Lemma lookup_of_key (k : string) (r : row) :
  In k (map fst r) -> exists v, lookup k r = Some v.
Proof.
  induction r as [| [k0 v0] r IH]; simpl; [tauto |].
  intros [-> | H].
  - rewrite String.eqb_refl. eauto.
  - destruct (String.eqb k k0); eauto.
Qed.

(** *** The dictionary of updates *)

Lemma last_assign_app (k : string) (a b : row) (v0 : sqlval) :
  last_assign k (a ++ b) v0 = last_assign k b (last_assign k a v0).
Proof. unfold last_assign. apply fold_left_app. Qed.

Lemma last_assign_collect (k : string) (fields : row) (v0 : sqlval) :
  last_assign k (collect fields) v0 = last_given k fields v0.
Proof.
  unfold last_assign, last_given. revert v0.
  induction fields as [| [k' v] fields IH]; intros v0; [reflexivity |].
  destruct v; simpl; rewrite IH; try reflexivity.
  now destruct (String.eqb k k').
Qed.

Lemma last_assign_absent (k : string) (d : row) (v0 : sqlval) :
  ~ In k (map fst d) -> last_assign k d v0 = v0.
Proof.
  unfold last_assign. revert v0.
  induction d as [| [k' v] d IH]; intros v0 H; simpl in *; [reflexivity |].
  destruct (String.eqb_spec k k') as [-> | _]; [tauto |].
  apply IH. tauto.
Qed.

Lemma last_assign_dict_set_other (k k' : string) (v : sqlval) (d : row)
    (v0 : sqlval) :
  k <> k' -> last_assign k (dict_set k' v d) v0 = last_assign k d v0.
Proof.
  intros Hk. unfold last_assign. revert v0.
  induction d as [| [k0 w] d IH]; intros v0; simpl.
  - destruct (String.eqb_spec k k'); [contradiction | reflexivity].
  - destruct (String.eqb_spec k' k0) as [-> | _]; simpl.
    + destruct (String.eqb_spec k k0); [contradiction | reflexivity].
    + apply IH.
Qed.

Lemma dict_set_absent (k : string) (v : sqlval) (d : row) :
  ~ In k (map fst d) -> dict_set k v d = d ++ [(k, v)].
Proof.
  induction d as [| [k0 w] d IH]; simpl; intros H; [reflexivity |].
  destruct (String.eqb_spec k k0) as [-> | _]; [tauto |].
  rewrite IH; tauto.
Qed.

Lemma keys_collect (k : string) (fields : row) :
  In k (map fst (collect fields)) -> In k (map fst fields).
Proof.
  induction fields as [| [k' v] fields IH]; simpl; [tauto |].
  destruct v; simpl; tauto.
Qed.

Lemma keys_dict_set (k k' : string) (v : sqlval) (d : row) :
  In k (map fst (dict_set k' v d)) -> k = k' \/ In k (map fst d).
Proof.
  induction d as [| [k0 w] d IH]; simpl.
  - intros [-> | []]. now left.
  - destruct (String.eqb k' k0); simpl; intros [-> | H]; auto.
    apply IH in H. tauto.
Qed.

Ltac no_such_key :=
  let H := fresh in
  intros H;
  repeat (apply keys_dict_set in H; destruct H as [H | H];
          [discriminate H |]);
  apply keys_collect in H; unfold deal_fields in H; simpl in H;
  repeat (destruct H as [H | H]; [discriminate H |]); exact H.

(** What the updates of [update_deal] leave in [closed_at] and [stage] *)
Lemma closed_at_after (v : env) (a : deal_args) (x : option sqlval)
    (v0 : sqlval) :
  last_assign "closed_at"
    (deal_updates v a x ++ [("updated_at", Text (isoformat (now v)))]) v0
  = if is_terminal (d_stage a) then Text (isoformat (now v)) else v0.
Proof.
  rewrite last_assign_app. unfold deal_updates.
  destruct (is_terminal (d_stage a)).
  - rewrite dict_set_absent, last_assign_app; [reflexivity |].
    destruct x; no_such_key.
  - cbn [last_assign fold_left fst snd]. cbn [String.eqb Ascii.eqb Bool.eqb].
    apply last_assign_absent. destruct x; no_such_key.
Qed.

(** A column that is neither [closed_at], [expected_close] nor
    [updated_at] ends up with what the command line gave for it. *)
Lemma given_after (k : string) (v : env) (a : deal_args) (x : option sqlval)
    (v0 : sqlval) :
  k <> "closed_at" -> k <> "expected_close" -> k <> "updated_at" ->
  last_assign k
    (deal_updates v a x ++ [("updated_at", Text (isoformat (now v)))]) v0
  = last_given k (deal_fields a) v0.
Proof.
  intros Hc He Hu. rewrite last_assign_app. unfold deal_updates.
  cbn [last_assign fold_left fst snd].
  apply String.eqb_neq in Hu. rewrite Hu.
  assert (E : forall u, last_assign k
            (if is_terminal (d_stage a)
             then dict_set "closed_at" (Text (isoformat (now v))) u else u) v0
            = last_assign k u v0).
  { intros u. destruct (is_terminal (d_stage a)); [| reflexivity].
    now apply last_assign_dict_set_other. }
  fold (last_assign k). rewrite E.
  assert (E' : forall u, last_assign k
            match x with Some y => dict_set "expected_close" y u | None => u end
            v0 = last_assign k u v0).
  { intros u. destruct x; [| reflexivity].
    now apply last_assign_dict_set_other. }
  rewrite E'. apply last_assign_collect.
Qed.

Lemma stage_after (v : env) (a : deal_args) (x : option sqlval) (v0 : sqlval) :
  last_assign "stage"
    (deal_updates v a x ++ [("updated_at", Text (isoformat (now v)))]) v0
  = match d_stage a with Some s => Text s | None => v0 end.
Proof.
  rewrite given_after by discriminate. unfold last_given, deal_fields.
  cbn [fold_left fst snd]. cbn [String.eqb Ascii.eqb Bool.eqb].
  now destruct (d_stage a).
Qed.

Lemma value_after (v : env) (a : deal_args) (x : option sqlval) (v0 : sqlval) :
  last_assign "value"
    (deal_updates v a x ++ [("updated_at", Text (isoformat (now v)))]) v0
  = match d_value a with Some q => Real q | None => v0 end.
Proof.
  rewrite given_after by discriminate. unfold last_given, deal_fields.
  cbn [fold_left fst snd]. cbn [String.eqb Ascii.eqb Bool.eqb].
  now destruct (d_value a).
Qed.

Lemma probability_after (v : env) (a : deal_args) (x : option sqlval)
    (v0 : sqlval) :
  last_assign "probability"
    (deal_updates v a x ++ [("updated_at", Text (isoformat (now v)))]) v0
  = match d_probability a with Some p => Int p | None => v0 end.
Proof.
  rewrite given_after by discriminate. unfold last_given, deal_fields.
  cbn [fold_left fst snd]. cbn [String.eqb Ascii.eqb Bool.eqb].
  now destruct (d_probability a).
Qed.

(** *** What the two commands do to the table of deals *)

Lemma add_deal_effect (v : env) (a : deal_args) (d d' : db) (out : printed) :
  run (add_deal v a) d = (Returns out, d') ->
  exists n contact_id expected_close,
    deals d' = deals d ++
      [(n, new_row (eng v) Deals
             [("contact_id", contact_id); ("title", opt (d_title a));
              ("value", opt_real (d_value a));
              ("currency", Text (or_default (d_currency a) "USD"));
              ("stage", Text (or_default (d_stage a) "lead"));
              ("probability", opt_int (d_probability a));
              ("expected_close", expected_close);
              ("notes", opt (d_notes a))])].
Proof.
  unfold run. intros H.
  destruct (add_deal v a (connect d)) as [o k] eqn:E. cbn [snd] in H.
  injection H as -> <-.
  commands in E; reduce E; repeat step E; unfold ret, sys_exit in E;
    try discriminate E; injection E as _ <-; cbn [committed];
    unfold add_audit; cbn [deals]; eauto.
Qed.

Lemma update_deal_effect (v : env) (a : deal_args) (d d' : db) (out : printed) :
  run (update_deal v a) d = (Returns out, d') ->
  exists id x,
    deals d' =
      map (fun r => if sql_eqb (col "id" (snd r)) id
                    then (fst r,
                          apply_updates
                            (deal_updates v a x
                             ++ [("updated_at", Text (isoformat (now v)))])
                            (snd r))
                    else r) (deals d).
Proof.
  unfold run. intros H.
  destruct (update_deal v a (connect d)) as [o k] eqn:E. cbn [snd] in H.
  injection H as -> <-.
  commands in E; reduce E; repeat step E; unfold ret, sys_exit in E;
    try discriminate E; injection E as _ <-; cbn [committed];
    unfold add_audit; cbn [deals].
  all: match goal with
       | H : _ = ?p :: ?l |- context [?p :: ?l ++ ?t] =>
           change (p :: l ++ t) with ((p :: l) ++ t); rewrite <- H
       end.
  all: unfold deal_updates.
  all: repeat match goal with
              | H : truthy ?e = _ |- _ => clear H
              end.
  all: eexists; first [ exists None; reflexivity | eexists (Some _); reflexivity ].
Qed.


(** *** The invariant *)

Lemma new_deal_well_kept (e : engine) (a : deal_args) (cid ec : sqlval) :
  created_open a = true ->
  well_kept
    (new_row e Deals
       [("contact_id", cid); ("title", opt (d_title a));
        ("value", opt_real (d_value a));
        ("currency", Text (or_default (d_currency a) "USD"));
        ("stage", Text (or_default (d_stage a) "lead"));
        ("probability", opt_int (d_probability a));
        ("expected_close", ec); ("notes", opt (d_notes a))]).
Proof.
  intros Ha. split; [reflexivity |].
  unfold created_open, is_terminal in Ha.
  change (stage_is_terminal _)
    with (String.eqb (or_default (d_stage a) "lead") "won"
          || String.eqb (or_default (d_stage a) "lead") "lost").
  intros H. rewrite H in Ha. discriminate Ha.
Qed.

Lemma updated_deal_well_kept (v : env) (a : deal_args) (x : option sqlval)
    (r : row) :
  well_kept r ->
  well_kept
    (apply_updates
       (deal_updates v a x ++ [("updated_at", Text (isoformat (now v)))]) r).
Proof.
  intros [Hk Hc].
  destruct (lookup_of_key "closed_at" r) as [c0 Ec];
    [rewrite Hk; simpl; tauto |].
  destruct (lookup_of_key "stage" r) as [s0 Es];
    [rewrite Hk; simpl; tauto |].
  split; [now rewrite keys_apply_updates |].
  unfold stage_is_terminal, is_closed, col in *.
  rewrite !lookup_apply_updates, Ec, Es in *. cbn [option_map] in *.
  rewrite closed_at_after, stage_after.
  destruct (d_stage a) as [s |] eqn:S; cbn [is_terminal].
  - intros ->. reflexivity.
  - exact Hc.
Qed.

Lemma reachable_well_kept (d : db) :
  reachable created_open d -> Forall well_kept (map snd (deals d)).
Proof.
  induction 1 as [d E | v a d out d' _ IH Ha Hrun | v a d out d' _ IH Hrun].
  - rewrite E. constructor.
  - apply add_deal_effect in Hrun as (n & cid & ec & ->).
    rewrite map_app. apply Forall_app. split; [exact IH |].
    constructor; [| constructor]. now apply new_deal_well_kept.
  - apply update_deal_effect in Hrun as (id & x & ->).
    rewrite map_map. rewrite Forall_map in *.
    eapply Forall_impl; [| exact IH]. intros [n r] Hr. cbn [snd] in *.
    destruct (sql_eqb (col "id" r) id); cbn [snd]; [| exact Hr].
    now apply updated_deal_well_kept.
Qed.

(** C3, as the code has it: in every store reached from one without deals
    by [add_deal] calls that create the deal in a stage other than won and
    lost and by any [update_deal] calls, a deal whose stage is won or lost
    has a [closed_at]; and an [update_deal] whose [--stage] is absent or
    is neither won nor lost (a change of notes only, say) leaves the
    [closed_at] of every deal as it was, set or not. *)
Theorem closed_at_follows_terminal_updates :
  (forall d, reachable created_open d ->
   forall r, In r (map snd (deals d)) ->
   stage_is_terminal r = true -> is_closed r = true)
  /\ (forall v a d out d',
        run (update_deal v a) d = (Returns out, d') ->
        is_terminal (d_stage a) = false ->
        map (fun r => col "closed_at" (snd r)) (deals d')
        = map (fun r => col "closed_at" (snd r)) (deals d)).
Proof.
  split.
  - intros d Hd r Hr. apply reachable_well_kept in Hd.
    rewrite Forall_forall in Hd. apply (Hd r Hr).
  - intros v a d out d' Hrun Ht.
    apply update_deal_effect in Hrun as (id & x & ->).
    rewrite map_map. apply map_ext. intros [n r]. cbn [snd].
    destruct (sql_eqb (col "id" r) id); cbn [snd]; [| reflexivity].
    unfold col. rewrite lookup_apply_updates.
    destruct (lookup "closed_at" r) as [c0 |]; [| reflexivity].
    cbn [option_map]. now rewrite closed_at_after, Ht.
Qed.

Lemma won_deal_reachable (allowed : deal_args -> bool) :
  allowed (with_title "Website redesign" no_deal_args) = true ->
  reachable allowed won_deal.
Proof.
  intros Ha.
  apply (reach_update allowed
           (deal_env (mk_datetime 2024 2 1 12 0 0 0) "" "2024-02-01 12:00:00")
           (with_stage "1" "won") new_deal
           (Updated (Text "1")
              [("stage", Text "won");
               ("closed_at", Text "2024-02-01T12:00:00")])).
  - apply (reach_add allowed
             (deal_env (mk_datetime 2024 1 10 9 0 0 0) "1" "2024-01-10 09:00:00")
             (with_title "Website redesign" no_deal_args) empty_db
             (Created [("id", Text "1"); ("title", Text "Website redesign");
                       ("value", Null); ("stage", Text "lead")])).
    + apply reach_init. reflexivity.
    + exact Ha.
    + reflexivity.
  - reflexivity.
Qed.

Lemma closed_at_follows_terminal_updates_witness :
  (forall r, In r (map snd (deals won_deal)) -> is_closed r = true)
  /\ map (fun r => col "closed_at" (snd r)) (deals reopened_deal)
     = map (fun r => col "closed_at" (snd r)) (deals won_deal).
Proof.
  split.
  - intros r Hr.
    apply (proj1 closed_at_follows_terminal_updates won_deal
             (won_deal_reachable created_open eq_refl) r Hr).
    destruct Hr as [<- | []]. reflexivity.
  - apply (proj2 closed_at_follows_terminal_updates
             (deal_env (mk_datetime 2024 2 9 16 0 0 0) "" "2024-02-09 16:00:00")
             (with_stage "1" "negotiation") won_deal
             (Updated (Text "1") [("stage", Text "negotiation")])
             reopened_deal);
      reflexivity.
Defined.

(** C3 as stated fails: a deal that is created, marked won and then moved
    back to negotiation keeps the [closed_at] it was given although its
    stage is neither won nor lost. *)
Lemma reopened_deal_keeps_closed_at : ~ closed_iff_terminal.
Proof.
  intros H.
  assert (R : reachable any_deal reopened_deal).
  { apply (reach_update any_deal
             (deal_env (mk_datetime 2024 2 9 16 0 0 0) "" "2024-02-09 16:00:00")
             (with_stage "1" "negotiation") won_deal
             (Updated (Text "1") [("stage", Text "negotiation")])).
    - apply (won_deal_reachable any_deal eq_refl).
    - reflexivity. }
  specialize (H reopened_deal R _ (or_introl eq_refl)).
  vm_compute in H. discriminate H.
Qed.


(** A deal that is created in the stage won has no [closed_at]: only
    [update_deal] sets it. *)
Example deal_created_won_is_not_closed :
  map (fun r => (col "stage" (snd r), col "closed_at" (snd r)))
    (deals (snd (run (add_deal
                        (deal_env (mk_datetime 2024 1 10 9 0 0 0)
                           "1" "2024-01-10 09:00:00")
                        (with_title "Renewal" (with_stage "" "won")))
                   empty_db)))
  = [(Text "won", Null)].
Proof. reflexivity. Qed.

End DealFacts.

Module PipelineFacts.
Import PyStr PyDate Store Crm DealSpec PipelineSpec DealFacts.
Local Open Scope list_scope.

Lemma select_filter (p : row -> bool) (x : table) :
  select p x = filter p (map snd x).
Proof.
  unfold select. induction x as [| y x IH]; simpl; [reflexivity |].
  destruct (p (snd y)); simpl; now rewrite IH.
Qed.

Lemma open_stage_is_open (r : row) :
  well_formed_deal r = true -> open_stage r = is_open r.
Proof.
  unfold well_formed_deal, open_stage, is_open.
  destruct (col "stage" r); simpl; try discriminate. reflexivity.
Qed.

Lemma weighted_term_spec (r : row) :
  well_formed_deal r = true ->
  match weighted_term r with
  | Some t => (t == value_of r * probability_or_50 r / 100)%Q
  | None => (value_of r * probability_or_50 r / 100 == 0)%Q
  end.
Proof.
  unfold well_formed_deal, weighted_term, value_of, probability_or_50.
  destruct (col "stage" r); simpl; try discriminate.
  destruct (col "value" r), (col "probability" r); simpl;
    try discriminate; intros _; try reflexivity; field.
Qed.

Lemma sql_sum_weighted (rows : list row) :
  forallb well_formed_deal rows = true ->
  match sql_sum (map weighted_term (filter open_stage rows)) with
  | Some w => (w == weighted_sum rows)%Q
  | None => (weighted_sum rows == 0)%Q
  end.
Proof.
  induction rows as [| r rows IH]; simpl; [reflexivity |].
  intros H. apply andb_prop in H as [Hr Hrows]. specialize (IH Hrows).
  rewrite (open_stage_is_open r Hr).
  destruct (is_open r); [| exact IH]. simpl.
  pose proof (weighted_term_spec r Hr) as Ht.
  destruct (weighted_term r) as [t |];
    destruct (sql_sum (map weighted_term (filter open_stage rows))) as [w |].
  - now rewrite Ht, IH.
  - rewrite Ht, IH. ring.
  - rewrite Ht, IH. ring.
  - rewrite Ht, IH. ring.
Qed.

(** *** The deals the commands leave behind *)

Lemma new_deal_sound (e : engine) (a : deal_args) (cid ec : sqlval) :
  sound_deal
    (new_row e Deals
       [("contact_id", cid); ("title", opt (d_title a));
        ("value", opt_real (d_value a));
        ("currency", Text (or_default (d_currency a) "USD"));
        ("stage", Text (or_default (d_stage a) "lead"));
        ("probability", opt_int (d_probability a));
        ("expected_close", ec); ("notes", opt (d_notes a))]).
Proof.
  split; [reflexivity |].
  change (well_formed_deal _)
    with (true
          && match opt_real (d_value a) with
             | Null | Int _ | Real _ => true | _ => false end
          && match opt_int (d_probability a) with
             | Null | Int _ => true | _ => false end).
  now destruct (d_value a), (d_probability a).
Qed.

Lemma updated_deal_sound (v : env) (a : deal_args) (x : option sqlval)
    (r : row) :
  sound_deal r ->
  sound_deal
    (apply_updates
       (deal_updates v a x ++ [("updated_at", Text (isoformat (now v)))]) r).
Proof.
  intros [Hk Hw]. split; [now rewrite keys_apply_updates |].
  destruct (lookup_of_key "stage" r) as [s0 Es]; [rewrite Hk; simpl; tauto |].
  destruct (lookup_of_key "value" r) as [x0 Ex]; [rewrite Hk; simpl; tauto |].
  destruct (lookup_of_key "probability" r) as [p0 Ep];
    [rewrite Hk; simpl; tauto |].
  unfold well_formed_deal, col in *.
  rewrite !lookup_apply_updates, Es, Ex, Ep in *. cbn [option_map] in *.
  rewrite stage_after, value_after, probability_after.
  apply andb_prop in Hw as [Hw Hp]. apply andb_prop in Hw as [Hs Hv].
  destruct (d_stage a), (d_value a), (d_probability a);
    now rewrite ?Hs, ?Hv, ?Hp.
Qed.

Lemma reachable_sound (d : db) :
  reachable any_deal d -> Forall sound_deal (map snd (deals d)).
Proof.
  induction 1 as [d E | v a d out d' _ IH Ha Hrun | v a d out d' _ IH Hrun].
  - rewrite E. constructor.
  - apply add_deal_effect in Hrun as (n & cid & ec & ->).
    rewrite map_app. apply Forall_app. split; [exact IH |].
    constructor; [| constructor]. apply new_deal_sound.
  - apply update_deal_effect in Hrun as (id & x & ->).
    rewrite map_map. rewrite Forall_map in *.
    eapply Forall_impl; [| exact IH]. intros [n r] Hr. cbn [snd] in *.
    destruct (sql_eqb (col "id" r) id); cbn [snd]; [| exact Hr].
    now apply updated_deal_sound.
Qed.



End PipelineFacts.

Module BackupFacts.
Import PyStr PyDate Backup BackupSpec.
Local Open Scope list_scope.

(** *** The file system *)

Lemma fs_lookup_write_same (p : string) (f : file) (s : fs) :
  fs_lookup p (fs_write p f s) = Some f.
Proof.
  induction s as [| [q g] s IH]; simpl; [now rewrite String.eqb_refl |].
  destruct (String.eqb p q) eqn:E; simpl; now rewrite E.
Qed.

Lemma fs_lookup_write_other (p q : string) (f : file) (s : fs) :
  p <> q -> fs_lookup p (fs_write q f s) = fs_lookup p s.
Proof.
  intros Hpq. induction s as [| [q' g] s IH]; simpl.
  - destruct (String.eqb_spec p q); [contradiction | reflexivity].
  - destruct (String.eqb_spec q q') as [<- | _]; simpl.
    + destruct (String.eqb_spec p q); [contradiction | reflexivity].
    + now rewrite IH.
Qed.

Lemma fs_exists_write (p q : string) (f : file) (s : fs) :
  fs_exists p s = true -> fs_exists p (fs_write q f s) = true.
Proof.
  unfold fs_exists. destruct (String.eqb_spec p q) as [-> | Hpq].
  - now rewrite fs_lookup_write_same.
  - now rewrite fs_lookup_write_other.
Qed.

(** *** Running the commands *)

Lemma fbind_bind {A B C : Type} (m : F A) (f : A -> F B) (g : B -> F C) (w : world) :
  bind (bind m f) g w = bind m (fun x => bind (f x) g) w.
Proof. unfold bind. destruct (m w) as [[a | n e | e] w']; reflexivity. Qed.

Lemma fbind_ret {A B : Type} (a : A) (k : A -> F B) (w : world) :
  bind (ret a) k w = k a w.
Proof. reflexivity. Qed.

Lemma fbind_read {A B : Type} (f : fs -> A) (k : A -> F B) (w : world) :
  bind (read f) k w = k (f (files w)) w.
Proof. reflexivity. Qed.

Lemma fbind_write {B : Type} (denied : string -> bool) (e : exn)
    (p bytes : string) (t : Z) (k : unit -> F B) (w : world) :
  bind (write_file denied e p bytes t) k w
  = if denied p then (Raises e, w)
    else k tt (mk_world (fs_write p (mk_file bytes t) (files w))
                 (history w ++ [Wrote p bytes])).
Proof. unfold bind, write_file. now destruct (denied p). Qed.

Lemma fbind_raise {A B : Type} (e : exn) (k : A -> F B) (w : world) :
  bind (fun w0 => (Raises e, w0)) k w = (Raises e, w).
Proof. reflexivity. Qed.

Ltac fstep :=
  first [ rewrite fbind_bind | rewrite fbind_ret | rewrite fbind_read
        | rewrite fbind_raise ];
  cbv beta iota; cbn [files history negb data mtime].

Section Restore.

Variable DB_PATH BACKUP_DIR : string.
Variable now : datetime.
Variable clock : Z.
Variable has_contacts : string -> bool.
Variable denied : string -> bool.

Local Notation "'restore'" :=
  (restore_database DB_PATH BACKUP_DIR now clock has_contacts denied).

Local Notation "'safety_path'" :=
  (in_backup_dir BACKUP_DIR ("crm_backup_" ++ strftime_stamp now ++ ".db")%string).

(** C6: for a backup that exists, a restore without the confirmation flag
    returns the confirmation-required result with the backup path and the
    path of the current database, and leaves every file, the live store
    among them, as it was. *)
Theorem restore_without_confirm_changes_nothing (w : world) (backup_path : string) :
  fs_exists backup_path (files w) = true ->
  restore backup_path false w
  = (Returns (ConfirmationRequired
                "This will overwrite the current database. Pass --confirm to proceed."
                backup_path DB_PATH), w).
Proof.
  intros H. unfold restore_database, bind, read. rewrite H. reflexivity.
Qed.



End Restore.

Lemma restore_without_confirm_changes_nothing_witness :
  exists r,
    restore_database example_db_path example_backup_dir example_now
      example_clock example_probe nothing_denied
      "/home/u/.local/share/agent-crm/backups/crm_backup_20240101_120000.db"
      false live_and_backup
    = (Returns r, live_and_backup).
Proof.
  eexists.
  apply (restore_without_confirm_changes_nothing example_db_path
           example_backup_dir example_now example_clock example_probe
           nothing_denied live_and_backup).
  reflexivity.
Defined.

End BackupFacts.

Module PruneFacts.
Import PyStr PyDate Backup BackupSpec BackupFacts.
Local Open Scope list_scope.

(** *** Strings: prefixes, suffixes and the last character *)

Lemma last_char_cons (c : ascii) (r : string) :
  r <> EmptyString -> last_char (String c r) = last_char r.
Proof. destruct r; [congruence | reflexivity]. Qed.

Lemma last_char_drop (k : nat) (s : string) (c : ascii) :
  last_char (drop k s) = Some c -> last_char s = Some c.
Proof.
  revert s. induction k as [| k IH]; intros s H; [exact H |].
  destruct s as [| a r]; [discriminate H |]. simpl in H.
  rewrite last_char_cons; [now apply IH |].
  intros ->. destruct k; discriminate H.
Qed.

Lemma last_char_app (q t : string) :
  t <> EmptyString -> last_char (q ++ t)%string = last_char t.
Proof.
  intros Ht. induction q as [| a q IH]; [reflexivity |].
  cbn [append]. rewrite last_char_cons; [exact IH |].
  destruct q; [exact Ht | discriminate].
Qed.

Lemma prefix_drop (d p : string) :
  String.prefix d p = true -> p = (d ++ drop (String.length d) p)%string.
Proof.
  revert p. induction d as [| a d IH]; intros p H; [reflexivity |].
  destruct p as [| b p]; [discriminate H |]. simpl in H.
  destruct (ascii_dec a b) as [-> | _]; [| discriminate H].
  simpl. f_equal. now apply IH.
Qed.

Lemma append_assoc (a b c : string) :
  ((a ++ b) ++ c)%string = (a ++ (b ++ c))%string.
Proof. induction a as [| x a IH]; [reflexivity |]. cbn. now rewrite IH. Qed.

Lemma append_inv_tail (a b t : string) :
  (a ++ t)%string = (b ++ t)%string -> a = b.
Proof.
  intros H.
  assert (L : forall x y,
            list_ascii_of_string (x ++ y)%string
            = list_ascii_of_string x ++ list_ascii_of_string y).
  { induction x as [| c x IH]; intros y; [reflexivity |].
    cbn. now rewrite IH. }
  apply (f_equal list_ascii_of_string) in H. rewrite !L in H.
  apply app_inv_tail in H.
  rewrite <- (string_of_list_ascii_of_string a),
          <- (string_of_list_ascii_of_string b).
  now rewrite H.
Qed.

(** *** Lists *)

Lemma in_skipn {A : Type} (k : nat) (l : list A) (x : A) :
  In x (skipn k l) -> In x l.
Proof.
  revert l. induction k as [| k IH]; intros l H; [exact H |].
  destruct l as [| y l]; [exact H |]. right. now apply IH.
Qed.

Lemma in_firstn {A : Type} (k : nat) (l : list A) (x : A) :
  In x (firstn k l) -> In x l.
Proof.
  revert l. induction k as [| k IH]; intros l H; [destruct H |].
  destruct l as [| y l]; [exact H |]. destruct H as [-> | H]; [now left |].
  right. now apply IH.
Qed.

(** *** The order of time stamps *)

Lemma str_lt_asym (a b : string) : str_lt a b = true -> str_lt b a = false.
Proof.
  unfold str_lt. intros H.
  destruct (String_as_OT.compare_spec a b) as [E | L | G]; try discriminate H.
  destruct (String_as_OT.compare_spec b a) as [E' | L' | G']; try reflexivity.
  exfalso. apply (StrictOrder_Irreflexive a).
  now transitivity b.
Qed.

Lemma str_lt_true (a b : string) : str_lt a b = true <-> String_as_OT.lt a b.
Proof.
  unfold str_lt, String_as_OT.lt.
  destruct (String_as_OT.compare a b); split; congruence.
Qed.

Lemma not_older_trans (a b c : string) :
  str_lt a b = false -> str_lt b c = false -> str_lt a c = false.
Proof.
  intros Hab Hbc. destruct (str_lt a c) eqn:Hac; [| reflexivity].
  exfalso. apply str_lt_true in Hac.
  destruct (String_as_OT.compare_spec a b) as [E | L | G].
  - hnf in E. subst b. apply str_lt_true in Hac. congruence.
  - apply str_lt_true in L. congruence.
  - assert (String_as_OT.lt b c) by (now transitivity a).
    apply str_lt_true in H. congruence.
Qed.

Lemma insert_desc_perm (x : backup_info) (l : list backup_info) :
  Permutation (insert_desc x l) (x :: l).
Proof.
  induction l as [| y l IH]; simpl; [reflexivity |].
  destruct (str_lt (created_at x) (created_at y)); [| reflexivity].
  rewrite IH. apply perm_swap.
Qed.

Lemma sorted_desc_perm (l : list backup_info) : Permutation (sorted_desc l) l.
Proof.
  induction l as [| x l IH]; simpl; [reflexivity |].
  rewrite insert_desc_perm. now constructor.
Qed.

Lemma insert_desc_sorted (x : backup_info) (l : list backup_info) :
  StronglySorted not_older l -> StronglySorted not_older (insert_desc x l).
Proof.
  induction 1 as [| y l Hs IH Hy]; simpl.
  - repeat constructor.
  - destruct (str_lt (created_at x) (created_at y)) eqn:E.
    + constructor; [exact IH |].
      rewrite insert_desc_perm. constructor; [| exact Hy].
      now apply str_lt_asym.
    + constructor; [now constructor |].
      constructor; [exact E |].
      eapply Forall_impl; [| exact Hy]. intros z Hz.
      unfold not_older in *. eapply not_older_trans; eassumption.
Qed.

Lemma sorted_desc_sorted (l : list backup_info) :
  StronglySorted not_older (sorted_desc l).
Proof.
  induction l as [| x l IH]; simpl; [constructor |].
  now apply insert_desc_sorted.
Qed.

Lemma sorted_split (k : nat) (l : list backup_info) :
  StronglySorted not_older l ->
  forall a b, In a (firstn k l) -> In b (skipn k l) -> not_older a b.
Proof.
  revert l. induction k as [| k IH]; intros l Hs a b Ha Hb; [destruct Ha |].
  destruct l as [| x l]; [destruct Ha |].
  inversion Hs as [| ? ? Hs' Hx]; subst. simpl in Ha, Hb.
  destruct Ha as [<- | Ha].
  - rewrite Forall_forall in Hx. apply Hx. eapply in_skipn; eauto.
  - eapply IH; eauto.
Qed.

Lemma nodup_split {A B : Type} (f : A -> B) (k : nat) (l : list A) :
  NoDup (map f l) ->
  forall a b, In a (firstn k l) -> In b (skipn k l) -> f a <> f b.
Proof.
  revert l. induction k as [| k IH]; intros l Hn a b Ha Hb; [destruct Ha |].
  destruct l as [| x l]; [destruct Ha |].
  simpl in Hn. inversion Hn as [| ? ? Hx Hn']; subst. simpl in Ha, Hb.
  destruct Ha as [<- | Ha].
  - intros E. apply Hx. rewrite E. apply in_map.
    eapply in_skipn; eauto.
  - eapply IH; eauto.
Qed.


(** *** Unlinking *)

Lemma fs_lookup_remove_same (p : string) (s : fs) :
  fs_lookup p (fs_remove p s) = None.
Proof.
  induction s as [| [q f] s IH]; simpl; [reflexivity |].
  destruct (String.eqb p q) eqn:E; simpl; [exact IH | now rewrite E].
Qed.

Lemma fs_lookup_remove_other (p q : string) (s : fs) :
  q <> p -> fs_lookup q (fs_remove p s) = fs_lookup q s.
Proof.
  intros Hqp. induction s as [| [q' f] s IH]; simpl; [reflexivity |].
  destruct (String.eqb_spec p q') as [<- | _]; simpl.
  - destruct (String.eqb_spec q p); [contradiction | exact IH].
  - now rewrite IH.
Qed.

Lemma fs_lookup_in (p : string) (f : file) (s : fs) :
  In (p, f) s -> fs_exists p s = true.
Proof.
  unfold fs_exists. induction s as [| [q g] s IH]; simpl; [tauto |].
  intros [[= -> ->] | H].
  - now rewrite String.eqb_refl.
  - destruct (String.eqb p q); [reflexivity | now apply IH].
Qed.

Lemma doomed_cons (b : backup_info) (rest : list backup_info) (q : string) :
  In q (doomed (b :: rest)) <->
  q = path b \/ q = (path b ++ ".note")%string \/ In q (doomed rest).
Proof.
  unfold doomed. cbn [map]. rewrite !in_app_iff. cbn [In].
  intuition congruence.
Qed.

Section Prune.

Variable BACKUP_DIR : string.
Variable iso_of_stamp : string -> Z -> string.
Variable denied : string -> bool.

Local Notation "'glob'" := (glob_backups BACKUP_DIR iso_of_stamp).

(** *** What the directory listing holds *)

Lemma glob_entry (s : fs) (b : backup_info) :
  In b (glob s) ->
  In (path b) (map fst s)
  /\ fs_exists (path b) s = true
  /\ path b = in_backup_dir BACKUP_DIR (filename b)
  /\ last_char (path b) = Some "b"%char.
Proof.
  induction s as [| [p f] s IH]; simpl; [tauto |].
  assert (Later : In b (glob s) ->
            (p = path b \/ In (path b) (map fst s))
            /\ fs_exists (path b) ((p, f) :: s) = true
            /\ path b = in_backup_dir BACKUP_DIR (filename b)
            /\ last_char (path b) = Some "b"%char).
  { intros H. destruct (IH H) as (H1 & H2 & H3 & H4).
    repeat split; auto. unfold fs_exists in *. simpl.
    destruct (String.eqb (path b) p); [reflexivity | exact H2]. }
  unfold name_in_dir. destruct (startswith _ p) eqn:Hpre; [| exact Later].
  destruct (has_slash _) eqn:Hs; [exact Later |].
  destruct (is_backup_name _) eqn:Hn; [| exact Later].
  intros [<- | H]; [| now apply Later]. cbn [path filename].
  repeat split.
  - now left.
  - unfold fs_exists. simpl. now rewrite String.eqb_refl.
  - apply prefix_drop in Hpre. unfold in_backup_dir.
    rewrite Hpre at 1. now rewrite append_assoc.
  - unfold is_backup_name, endswith in Hn.
    apply andb_prop in Hn as [Hn _]. apply andb_prop in Hn as [_ Hn].
    apply andb_prop in Hn as [_ Hn]. apply String.eqb_eq in Hn.
    eapply last_char_drop. eapply last_char_drop. rewrite Hn. reflexivity.
Qed.

Lemma glob_nodup (s : fs) :
  NoDup (map fst s) -> NoDup (map path (glob s)).
Proof.
  induction s as [| [p f] s IH]; simpl; [constructor |].
  intros Hn. inversion Hn as [| ? ? Hp Hn']; subst. specialize (IH Hn').
  destruct (name_in_dir BACKUP_DIR p) as [n |]; [| exact IH].
  destruct (is_backup_name n); [| exact IH].
  cbn [map path]. constructor; [| exact IH].
  intros H. apply in_map_iff in H as (b & <- & Hb).
  apply Hp. now apply glob_entry.
Qed.

Lemma not_a_note (s : fs) (b b' : backup_info) :
  In b' (glob s) -> path b' <> (path b ++ ".note")%string.
Proof.
  intros Hb' E. apply glob_entry in Hb' as (_ & _ & _ & L).
  rewrite E, last_char_app in L; [discriminate L | discriminate].
Qed.

(** *** The loop of [prune_backups] *)

(** The loop always comes back; it reports only entries whose file could
    be unlinked, and a file that cannot be unlinked is still there. *)
Lemma remove_loop_report (bs : list backup_info) (acc : list string) (w : world) :
  exists ok w',
    remove_loop denied bs acc w = (Returns (acc ++ map filename ok), w')
    /\ (forall b, In b ok -> In b bs /\ denied (path b) = false)
    /\ (forall q, denied q = true ->
          fs_lookup q (files w') = fs_lookup q (files w)).
Proof.
  revert acc w. induction bs as [| b bs IH]; intros acc w.
  - exists [], w. cbn. rewrite app_nil_r. repeat split; tauto.
  - cbn [remove_loop]. unfold remove_backup, unlink.
    unfold bind at 1.
    destruct (fs_exists (path b) (files w) && negb (denied (path b))) eqn:E1.
    + apply andb_prop in E1 as [_ D]. apply negb_true_iff in D.
      rewrite fbind_read. cbn [files history].
      assert (K1 : forall q, denied q = true ->
                fs_lookup q (fs_remove (path b) (files w))
                = fs_lookup q (files w)).
      { intros q Hq. apply fs_lookup_remove_other. congruence. }
      destruct (fs_exists (path b ++ ".note") (fs_remove (path b) (files w)))
        eqn:E2; cbv beta iota; cbn [files history].
      * rewrite E2. cbn [andb].
        destruct (denied (path b ++ ".note")%string) eqn:D'; cbn [negb].
        -- match goal with
           | |- context [remove_loop denied bs acc ?w1] =>
               destruct (IH acc w1) as (ok & w' & R & Hok & Hden)
           end.
           exists ok, w'. rewrite R. split; [reflexivity |]. split.
           ++ intros x Hx. destruct (Hok x Hx). split; [now right | assumption].
           ++ intros q Hq. rewrite (Hden q Hq). cbn [files]. now apply K1.
        -- match goal with
           | |- context [remove_loop denied bs (acc ++ [filename b]) ?w1] =>
               destruct (IH (acc ++ [filename b]) w1)
                 as (ok & w' & R & Hok & Hden)
           end.
           exists (b :: ok), w'. rewrite R. cbn [map].
           rewrite <- app_assoc. split; [reflexivity |]. split.
           ++ intros x [<- | Hx]; [split; [now left | exact D] |].
              destruct (Hok x Hx). split; [now right | assumption].
           ++ intros q Hq. rewrite (Hden q Hq). cbn [files].
              rewrite fs_lookup_remove_other by congruence. now apply K1.
      * unfold ret.
        match goal with
        | |- context [remove_loop denied bs (acc ++ [filename b]) ?w1] =>
            destruct (IH (acc ++ [filename b]) w1)
              as (ok & w' & R & Hok & Hden)
        end.
        exists (b :: ok), w'. rewrite R. cbn [map].
        rewrite <- app_assoc. split; [reflexivity |]. split.
        -- intros x [<- | Hx]; [split; [now left | exact D] |].
           destruct (Hok x Hx). split; [now right | assumption].
        -- intros q Hq. rewrite (Hden q Hq). cbn [files]. now apply K1.
    + destruct (IH acc w) as (ok & w' & R & Hok & Hden).
      exists ok, w'. rewrite R. split; [reflexivity |]. split.
      * intros x Hx. destruct (Hok x Hx). split; [now right | assumption].
      * exact Hden.
Qed.


Lemma remove_backup_ok (b : backup_info) (w : world) :
  fs_exists (path b) (files w) = true ->
  denied (path b) = false ->
  denied (path b ++ ".note")%string = false ->
  exists w1,
    remove_backup denied b w = (Returns tt, w1)
    /\ forall q,
         fs_lookup q (files w1)
         = if String.eqb q (path b) || String.eqb q (path b ++ ".note")%string
           then None else fs_lookup q (files w).
Proof.
  intros Hex Dp Dn. unfold remove_backup, unlink. unfold bind at 1.
  rewrite Hex, Dp. cbn [andb negb]. rewrite fbind_read. cbn [files history].
  set (s1 := fs_remove (path b) (files w)).
  assert (L : forall q, q <> (path b ++ ".note")%string ->
            fs_lookup q s1
            = if String.eqb q (path b) || String.eqb q (path b ++ ".note")%string
              then None else fs_lookup q (files w)).
  { intros q N. apply String.eqb_neq in N. rewrite N, orb_false_r. unfold s1.
    destruct (String.eqb_spec q (path b)) as [-> | N'].
    - apply fs_lookup_remove_same.
    - now apply fs_lookup_remove_other. }
  destruct (fs_exists (path b ++ ".note") s1) eqn:E2; cbv beta iota;
    cbn [files history].
  - rewrite E2, Dn. cbn [andb negb].
    eexists. split; [reflexivity |]. intros q. cbn [files].
    destruct (String.eqb_spec q (path b ++ ".note")%string) as [-> | N].
    + rewrite orb_true_r. apply fs_lookup_remove_same.
    + rewrite fs_lookup_remove_other by exact N. rewrite (L q N).
      apply String.eqb_neq in N. now rewrite N.
  - eexists. split; [reflexivity |]. intros q. cbn [files].
    destruct (String.eqb_spec q (path b ++ ".note")%string) as [-> | N].
    + rewrite orb_true_r. unfold fs_exists in E2.
      now destruct (fs_lookup (path b ++ ".note") s1).
    + rewrite (L q N). apply String.eqb_neq in N. now rewrite N.
Qed.

(** When nothing is denied the loop unlinks every entry and its note and
    touches no other file. *)
Lemma remove_loop_ok (bs : list backup_info) (acc : list string) (w : world) :
  NoDup (map path bs) ->
  (forall b, In b bs -> fs_exists (path b) (files w) = true) ->
  (forall b b', In b bs -> In b' bs -> path b' <> (path b ++ ".note")%string) ->
  (forall q, In q (doomed bs) -> denied q = false) ->
  exists w',
    remove_loop denied bs acc w = (Returns (acc ++ map filename bs), w')
    /\ (forall q, In q (doomed bs) -> fs_lookup q (files w') = None)
    /\ (forall q, ~ In q (doomed bs) ->
          fs_lookup q (files w') = fs_lookup q (files w)).
Proof.
  revert acc w. induction bs as [| b bs IH]; intros acc w Hn Hex Hnote Hden.
  - exists w. cbn. rewrite app_nil_r. repeat split; tauto.
  - inversion Hn as [| ? ? Hb Hn']; subst.
    assert (Dp : denied (path b) = false)
      by (apply Hden, doomed_cons; now left).
    assert (Dn : denied (path b ++ ".note")%string = false)
      by (apply Hden, doomed_cons; right; now left).
    cbn [remove_loop].
    destruct (remove_backup_ok b w (Hex b (or_introl eq_refl)) Dp Dn)
      as (w1 & -> & L1).
    destruct (IH (acc ++ [filename b]) w1) as (w' & R & Gone & Kept).
    + exact Hn'.
    + intros x Hx. unfold fs_exists. rewrite L1.
      assert (N1 : path x <> path b).
      { intros E. apply Hb. rewrite <- E. now apply in_map. }
      assert (N2 : path x <> (path b ++ ".note")%string)
        by (apply Hnote; [now left | now right]).
      apply String.eqb_neq in N1, N2. rewrite N1, N2. cbn [orb].
      apply (Hex x). now right.
    + intros x x' Hx Hx'. apply Hnote; now right.
    + intros q Hq. apply Hden, doomed_cons. tauto.
    + exists w'. rewrite R. cbn [map]. rewrite <- app_assoc.
      split; [reflexivity |]. split.
      * intros q Hq. apply doomed_cons in Hq.
        destruct (in_dec string_dec q (doomed bs)) as [I | I];
          [now apply Gone |].
        rewrite (Kept q I), L1.
        destruct Hq as [-> | [-> | Hq]]; [| | contradiction].
        -- now rewrite String.eqb_refl.
        -- now rewrite String.eqb_refl, orb_true_r.
      * intros q Hq. rewrite doomed_cons in Hq.
        rewrite Kept by tauto. rewrite L1.
        destruct (String.eqb_spec q (path b)); [tauto |].
        destruct (String.eqb_spec q (path b ++ ".note")%string); [tauto |].
        reflexivity.
Qed.

(** C8: with a keep count [keep] that is not negative, [prune_backups]
    keeps the first [keep] entries of the listing sorted by time stamp,
    newest first, so that no entry it keeps is older than one it removes;
    it always comes back with a report; an entry whose file cannot be
    unlinked stays in place and is not in the report; and when none of
    the files to delete is denied it deletes exactly the older entries and
    their note files, reports exactly these entries, and leaves every
    other file, the entries it keeps and their notes among them, as it
    was. *)
Theorem prune_keeps_the_newest (keep : Z) (w : world) :
  0 <= keep ->
  NoDup (map fst (files w)) ->
  let backups := sorted_desc (glob (files w)) in
  let kept := firstn (Z.to_nat keep) backups in
  let old := skipn (Z.to_nat keep) backups in
  (forall a b, In a kept -> In b old ->
     str_lt (created_at a) (created_at b) = false)
  /\ exists r w',
       prune_backups BACKUP_DIR iso_of_stamp denied keep w = (Returns r, w')
       /\ (forall b, In b old -> denied (path b) = true ->
             fs_exists (path b) (files w') = true
             /\ forall k n l, r = Pruned k n l -> ~ In (filename b) l)
       /\ ((forall q, In q (doomed old) -> denied q = false) ->
           (old = []
            \/ r = Pruned keep (Z.of_nat (List.length old)) (map filename old))
           /\ (forall q, In q (doomed old) -> fs_lookup q (files w') = None)
           /\ (forall q, ~ In q (doomed old) ->
                 fs_lookup q (files w') = fs_lookup q (files w))
           /\ (forall a, In a kept ->
                 ~ In (path a) (doomed old)
                 /\ ~ In (path a ++ ".note")%string (doomed old))).
Proof.
  intros Hk Hnd backups kept old.
  assert (InB : forall b, In b backups -> In b (glob (files w))).
  { intros b Hb. eapply Permutation_in; [apply sorted_desc_perm | exact Hb]. }
  assert (NdB : NoDup (map path backups)).
  { eapply Permutation_NoDup; [| apply (glob_nodup _ Hnd)].
    apply Permutation_map. symmetry. apply sorted_desc_perm. }
  assert (InOld : forall b, In b old -> In b (glob (files w)))
    by (intros b Hb; apply InB; eapply in_skipn; exact Hb).
  assert (InKept : forall b, In b kept -> In b (glob (files w)))
    by (intros b Hb; apply InB; eapply in_firstn; exact Hb).
  assert (KeptFresh : forall a, In a kept ->
            ~ In (path a) (doomed old)
            /\ ~ In (path a ++ ".note")%string (doomed old)).
  { intros a Ha. unfold doomed. rewrite !in_app_iff, !in_map_iff. split.
    - intros [(b & E & Hb) | (b & E & Hb)].
      + now apply (nodup_split path _ _ NdB a b Ha Hb).
      + symmetry in E. revert E. apply (not_a_note (files w)). now apply InKept.
    - intros [(b & E & Hb) | (b & E & Hb)].
      + revert E. apply (not_a_note (files w)). now apply InOld.
      + apply append_inv_tail in E.
        now apply (nodup_split path _ _ NdB a b Ha Hb). }
  split.
  { intros a b Ha Hb.
    apply (sorted_split _ _ (sorted_desc_sorted (glob (files w))) a b Ha Hb). }
  unfold prune_backups, get_backup_files. rewrite fbind_read.
  fold backups. unfold slice_from.
  destruct (Z.leb_spec (Z.of_nat (List.length backups)) keep) as [Le | Gt].
  - assert (E : old = []) by (apply skipn_all2; lia).
    exists (NoPruningNeeded (Z.of_nat (List.length backups)) keep), w.
    split; [reflexivity |]. rewrite E. split; [intros b [] |].
    intros _. repeat split; auto; try (intros q []).
  - destruct (Z.leb_spec 0 keep) as [_ | Neg]; [| lia]. fold old.
    destruct (remove_loop_report old [] w) as (ok & w' & R & Hok & Hden).
    exists (Pruned keep (Z.of_nat (List.length (map filename ok)))
              (map filename ok)), w'.
    unfold bind at 1. rewrite R. cbn [app].
    split; [reflexivity |]. split.
    + intros b Hb Db. split.
      * unfold fs_exists. rewrite (Hden _ Db).
        apply InOld, glob_entry in Hb as (_ & Hb & _). exact Hb.
      * intros k n l [= _ _ <-] H. apply in_map_iff in H as (b' & E & Hb').
        destruct (Hok b' Hb') as [Hb'' Db'].
        apply InOld, glob_entry in Hb as (_ & _ & Pb & _).
        apply InOld, glob_entry in Hb'' as (_ & _ & Pb' & _).
        rewrite Pb', E, <- Pb in Db'. congruence.
    + intros Hfree.
      destruct (remove_loop_ok old [] w) as (w2 & R2 & Gone & Kept).
      * eapply NoDup_map_inv with (f := fun x => x). rewrite map_id.
        assert (S : map path backups = firstn (Z.to_nat keep) (map path backups)
                                       ++ map path old).
        { unfold old. now rewrite <- skipn_map, firstn_skipn. }
        rewrite S in NdB. now apply NoDup_app_remove_l in NdB.
      * intros b Hb. now apply InOld, glob_entry in Hb.
      * intros b b' _ Hb'. apply (not_a_note (files w)). now apply InOld.
      * exact Hfree.
      * rewrite R2 in R. injection R as R <-. cbn [app] in R.
        split; [right; now rewrite <- R, length_map |].
        repeat split; auto; now apply KeptFresh.
Qed.

End Prune.

End PruneFacts.

Module BackupExamples.
Import PyStr PyDate Backup BackupSpec BackupFacts PruneFacts.
Local Open Scope list_scope.




Lemma five_backups_distinct : NoDup (map fst (files five_backups)).
Proof.
  cbn [five_backups files map fst].
  repeat (constructor;
          [cbn [In]; intros H;
           repeat (destruct H as [H | H]; [discriminate H |]); exact H |]).
  constructor.
Qed.

Lemma prune_keeps_the_newest_witness :
  exists w',
    prune_backups example_backup_dir example_iso nothing_denied 2 five_backups
    = (Returns (Pruned 2 3 ["crm_backup_20240103_090000.db";
                            "crm_backup_20240102_090000.db";
                            "crm_backup_20240101_090000.db"]), w')
    /\ fs_lookup
         "/home/u/.local/share/agent-crm/backups/crm_backup_20240101_090000.db.note"
         (files w') = None
    /\ fs_lookup
         "/home/u/.local/share/agent-crm/backups/crm_backup_20240105_090000.db.note"
         (files w')
       = Some (mk_file "after cleanup" 1704445200).
Proof.
  destruct (prune_keeps_the_newest example_backup_dir example_iso
              nothing_denied 2 five_backups) as (_ & r & w' & Hrun & _ & Hfree).
  - apply Z.leb_le. reflexivity.
  - exact five_backups_distinct.
  - destruct Hfree as (Hr & Gone & Kept & _); [reflexivity |].
    exists w'. split; [| split].
    + rewrite Hrun. destruct Hr as [E | ->]; [discriminate E | reflexivity].
    + apply Gone. vm_compute. tauto.
    + rewrite Kept; [reflexivity |]. vm_compute.
      intros H. repeat (destruct H as [H | H]; [discriminate H |]). exact H.
Defined.

End BackupExamples.
Module TemporalMore.
Import PyStr PyDate Temporal TemporalSpec DateFacts.
Local Open Scope list_scope.

(** *** Days and their ordinals *)

Lemma days_before_year_nonneg (y : Z) : 1 <= y -> 0 <= days_before_year y.
Proof.
  intros Hy. unfold days_before_year. cbv zeta.
  pose proof (Z.div_le_compat_l (y - 1) 4 100 ltac:(lia) ltac:(lia)).
  pose proof (Z.div_pos (y - 1) 400 ltac:(lia) ltac:(lia)).
  lia.
Qed.

Lemma month_cases (m : Z) :
  1 <= m <= 12 ->
  m = 1 \/ m = 2 \/ m = 3 \/ m = 4 \/ m = 5 \/ m = 6 \/ m = 7 \/ m = 8
  \/ m = 9 \/ m = 10 \/ m = 11 \/ m = 12.
Proof. lia. Qed.

Lemma valid_date_bounds (y m d : Z) :
  valid_date y m d = true ->
  1 <= y <= 9999 /\ 1 <= m <= 12 /\ 1 <= d <= days_in_month y m.
Proof.
  unfold valid_date, MINYEAR, MAXYEAR. rewrite !andb_true_iff, !Z.leb_le. lia.
Qed.

Lemma valid_ordinal_pos (y m d : Z) :
  valid_date y m d = true -> 0 < ymd2ord y m d.
Proof.
  intros H. apply valid_date_bounds in H as (Hy & Hm & Hd).
  pose proof (days_before_year_nonneg y ltac:(lia)).
  assert (0 <= days_before_month y m).
  { unfold days_before_month.
    destruct (month_cases m Hm) as [-> | [-> | [-> | [-> | [-> | [-> | [-> | [-> | [-> | [-> | [-> | ->]]]]]]]]]]];
      cbn [DAYS_BEFORE_MONTH Z.ltb Z.compare Pos.compare Pos.compare_cont andb];
      destruct (is_leap y); lia. }
  unfold ymd2ord. lia.
Qed.

(** *** Weekday names *)

Lemma day_name_recognised (today : datetime) (i : nat) (name : string) :
  nth_error days i = Some name ->
  recognise today name = recognise today ("next " ++ name)%string
  /\ recognise today name
     = Some (iso (plus_days today
                    (if Z.of_nat i - weekday today <=? 0
                     then Z.of_nat i - weekday today + 7
                     else Z.of_nat i - weekday today))).
Proof.
  intros H.
  do 7 (destruct i as [| i];
        [injection H as <-; split; reflexivity |]).
  destruct i; discriminate H.
Qed.

Lemma day_name_not_empty (i : nat) (name : string) :
  nth_error days i = Some name -> name <> EmptyString.
Proof.
  intros H.
  do 7 (destruct i as [| i]; [injection H as <-; discriminate |]).
  destruct i; discriminate H.
Qed.

(** X1: the name of a weekday, alone or after ["next "], in any letter
    case and with white space around it, resolves to midnight of the
    first day after today that is such a weekday: between one and seven
    days ahead, so that today's own weekday means a week from today. *)
Theorem weekday_name_is_the_next_such_day (now : datetime) (i : nat)
    (name s : string) :
  nth_error days i = Some name ->
  strip (lower s) = name \/ strip (lower s) = ("next " ++ name)%string ->
  valid_date (year now) (month now) (day now) = true ->
  toordinal now + 7 <= MAXORDINAL ->
  exists t,
    parse_date now s = Returns (Some (isoformat t))
    /\ weekday t = Z.of_nat i
    /\ toordinal now < toordinal t <= toordinal now + 7
    /\ (hour t, minute t, second t, microsecond t) = (0, 0, 0, 0).
Proof.
  intros Hi Hs Hnow Hmax.
  pose proof (day_name_not_empty i name Hi) as Hne.
  assert (Hlen : (i < 7)%nat)
    by (apply (proj1 (nth_error_Some days i)); congruence).
  destruct (day_name_recognised (midnight now) i name Hi) as [Enext Erec].
  assert (E : parse_date now s
              = iso (plus_days (midnight now)
                       (if Z.of_nat i - weekday (midnight now) <=? 0
                        then Z.of_nat i - weekday (midnight now) + 7
                        else Z.of_nat i - weekday (midnight now)))).
  { destruct s as [| c r].
    - destruct Hs as [Hs | Hs]; [now elim Hne | discriminate Hs].
    - unfold parse_date, parse_normalised. cbv zeta.
      destruct Hs as [-> | ->]; [| rewrite <- Enext]; now rewrite Erec. }
  rewrite E. clear E Enext Erec.
  change (weekday (midnight now)) with (weekday now).
  pose proof (valid_ordinal_pos _ _ _ Hnow) as Hpos.
  fold (toordinal now) in Hpos.
  set (delta := if Z.of_nat i - weekday now <=? 0
                then Z.of_nat i - weekday now + 7
                else Z.of_nat i - weekday now).
  assert (Hw : 0 <= weekday now < 7)
    by (unfold weekday; apply Z.mod_pos_bound; lia).
  assert (Hd : 1 <= delta <= 7
               /\ (delta = Z.of_nat i - weekday now
                   \/ delta = Z.of_nat i - weekday now + 7)).
  { unfold delta. destruct (Z.leb_spec (Z.of_nat i - weekday now) 0); lia. }
  destruct (add_days_ordinal (midnight now) delta) as (t & Et & Ho & Ht).
  { change (toordinal (midnight now)) with (toordinal now). lia. }
  change (toordinal (midnight now)) with (toordinal now) in Ho.
  exists t. unfold iso, plus_days, timedelta_days, MAX_DELTA_DAYS.
  replace (Z.abs delta <=? 999999999) with true
    by (symmetry; apply Z.leb_le; lia).
  cbn [obind]. rewrite Et. cbn [obind].
  split; [reflexivity |]. split; [| split; [lia | exact Ht]].
  unfold weekday in *. rewrite Ho.
  destruct Hd as [_ [Hd | Hd]]; rewrite Hd.
  - replace (toordinal now + (Z.of_nat i - (toordinal now + 6) mod 7) + 6)
      with (Z.of_nat i + ((toordinal now + 6) - (toordinal now + 6) mod 7))
      by ring.
    rewrite (Z.div_mod (toordinal now + 6) 7) at 1 by lia.
    replace (Z.of_nat i
             + (7 * ((toordinal now + 6) / 7) + (toordinal now + 6) mod 7
                - (toordinal now + 6) mod 7))
      with (Z.of_nat i + ((toordinal now + 6) / 7) * 7) by ring.
    rewrite Z.mod_add by lia. apply Z.mod_small. lia.
  - replace (toordinal now + (Z.of_nat i - (toordinal now + 6) mod 7 + 7) + 6)
      with (Z.of_nat i + ((toordinal now + 6) - (toordinal now + 6) mod 7) + 7)
      by ring.
    rewrite (Z.div_mod (toordinal now + 6) 7) at 1 by lia.
    replace (Z.of_nat i
             + (7 * ((toordinal now + 6) / 7) + (toordinal now + 6) mod 7
                - (toordinal now + 6) mod 7) + 7)
      with (Z.of_nat i + ((toordinal now + 6) / 7 + 1) * 7) by ring.
    rewrite Z.mod_add by lia. apply Z.mod_small. lia.
Qed.

Lemma weekday_name_is_the_next_such_day_witness :
  exists t,
    parse_date (mk_datetime 2026 11 4 13 45 10 0) " Next Wednesday"
    = Returns (Some (isoformat t))
    /\ weekday t = 2
    /\ toordinal (mk_datetime 2026 11 4 13 45 10 0) < toordinal t.
Proof.
  destruct (weekday_name_is_the_next_such_day
              (mk_datetime 2026 11 4 13 45 10 0) 2 "wednesday"
              " Next Wednesday" eq_refl (or_intror eq_refl) eq_refl)
    as (t & E & Hw & Ho & _).
  - apply Z.leb_le. reflexivity.
  - exists t. split; [exact E |]. split; [exact Hw | apply Ho].
Defined.

(** *** Dates without a year *)

Lemma in_range (k lo : Z) (n : nat) :
  lo <= k < lo + Z.of_nat n -> In k (range lo n).
Proof.
  revert lo. induction n as [| n IH]; intros lo H; [lia |].
  cbn [range]. destruct (Z.eq_dec lo k) as [-> | Hne]; [now left | right].
  apply IH. lia.
Qed.

Lemma not_a_keyword (today : datetime) (s : string) :
  is_keyword s = false ->
  recognise today s = try_formats today s formats.
Proof.
  unfold is_keyword, recognise, orelse, relative_dates, next_unit,
    in_n_units, day_names.
  destruct (String.eqb s "today"); [discriminate |].
  destruct (String.eqb s "tomorrow"); [discriminate |].
  destruct (String.eqb s "yesterday"); [discriminate |].
  destruct (startswith "next " s).
  - destruct (String.eqb (drop 5 s) "week"); [discriminate |].
    destruct (String.eqb (drop 5 s) "month"); [discriminate |].
    destruct (match_in_n s) as [[ds []] |]; try discriminate.
    destruct (mem s days || (true && mem (drop 5 s) days));
      [| reflexivity].
    destruct (index_of (replace "next " "" s) days); discriminate.
  - destruct (match_in_n s) as [[ds []] |]; try discriminate.
    destruct (mem s days || (false && mem (drop 5 s) days));
      [| reflexivity].
    destruct (index_of (replace "next " "" s) days); discriminate.
Qed.

Lemma strptime_raises (s : string) (fmt : list directive) :
  match strptime s fmt with
  | Returns _ => True
  | Exits _ _ => False
  | Raises e => e = ValueError
  end.
Proof.
  unfold strptime.
  destruct (read_format fmt (mk_found None 1 1) s) as [[f [| c r]] |];
    try reflexivity.
  destruct (valid_date _ _ _); [exact I | reflexivity].
Qed.

(** The loop over the formats stops at the first format that reads the
    string when what follows the reading goes through. *)
Lemma try_formats_first_reading (today : datetime) (s : string)
    (fmts : list (list directive)) (t r : datetime) :
  first_reading s fmts = Some t ->
  (if year t =? 1900
   then obind (replace_year t (year today)) (fun dt1 =>
          if lt dt1 today then replace_year dt1 (year today + 1)
          else Returns dt1)
   else Returns t) = Returns r ->
  try_formats today s fmts = Some (Returns (Some (isoformat r))).
Proof.
  intros Hf Hr. induction fmts as [| fmt rest IH]; [discriminate Hf |].
  cbn [first_reading] in Hf. cbn [try_formats]. unfold try_format.
  pose proof (strptime_raises s fmt) as Hs.
  destruct (strptime s fmt) as [t0 | n e | e].
  - injection Hf as ->. cbn [obind]. rewrite Hr. reflexivity.
  - contradiction.
  - subst e. cbn [obind]. now apply IH.
Qed.

Lemma common_day_is_valid (y m d : Z) :
  1 <= y <= 9999 -> valid_date 1900 m d = true -> valid_date y m d = true.
Proof.
  intros Hy H. apply valid_date_bounds in H as (_ & Hm & Hd).
  unfold valid_date, MINYEAR, MAXYEAR.
  rewrite !andb_true_iff, !Z.leb_le.
  assert (days_in_month 1900 m <= days_in_month y m); [| lia].
  unfold days_in_month. change (is_leap 1900) with false.
  rewrite andb_false_r.
  destruct ((m =? 2) && is_leap y) eqn:E; [| lia].
  apply andb_prop in E as [E _]. apply Z.eqb_eq in E. subst m. cbn. lia.
Qed.

(** Every spelling of every day of a common year reads as that day of
    1900: there are 365 days and six spellings of each. *)
Lemma all_spellings_read :
  forallb (fun m =>
    forallb (fun d =>
      negb (valid_date 1900 m d)
      || forallb (reads_as_1900 m d) (yearless_spellings m d))
      (range 1 31))
    (range 1 12) = true.
Proof. vm_cast_no_check (eq_refl true). Qed.

Lemma spelling_reads (m d : Z) (s : string) :
  valid_date 1900 m d = true ->
  In s (yearless_spellings m d) ->
  reads_as_1900 m d s = true.
Proof.
  intros Hmd Hs.
  pose proof all_spellings_read as Hall.
  pose proof (valid_date_bounds _ _ _ Hmd) as (_ & Hm & Hd).
  assert (Hd31 : d <= 31).
  { unfold days_in_month in Hd. change (is_leap 1900) with false in Hd.
    rewrite andb_false_r in Hd.
    destruct (month_cases m Hm) as [-> | [-> | [-> | [-> | [-> | [-> | [-> | [-> | [-> | [-> | [-> | ->]]]]]]]]]]];
      cbn in Hd; lia. }
  rewrite forallb_forall in Hall.
  specialize (Hall m (in_range m 1 12 ltac:(lia))).
  rewrite forallb_forall in Hall.
  specialize (Hall d (in_range d 1 31 ltac:(lia))).
  rewrite Hmd in Hall. cbn [negb orb] in Hall.
  rewrite forallb_forall in Hall. now apply Hall.
Qed.



(** *** ["in N days"], ["in N weeks"], ["in N months"] *)

Lemma span_digits_app (ds rest : string) :
  all_digits ds = true ->
  match rest with
  | String c _ => is_digit c = false
  | EmptyString => True
  end ->
  span_digits (ds ++ rest) = (ds, rest).
Proof.
  intros Hds Hrest. induction ds as [| c ds IH]; cbn [append span_digits].
  - destruct rest as [| c r]; [reflexivity |].
    cbn [span_digits]. now rewrite Hrest.
  - cbn [all_digits] in Hds. apply andb_prop in Hds as [Hc Hds].
    now rewrite Hc, IH.
Qed.

Lemma prefix_app (lit rest : string) :
  String.prefix lit (lit ++ rest) = true.
Proof.
  induction lit as [| c lit IH]; cbn [append].
  - now destruct rest.
  - cbn [String.prefix]. now destruct (ascii_dec c c).
Qed.

Lemma drop_app (lit rest : string) :
  drop (String.length lit) (lit ++ rest) = rest.
Proof.
  induction lit as [| c lit IH]; cbn [append String.length drop].
  - now destruct rest.
  - exact IH.
Qed.

Lemma expect_app (lit rest : string) : expect lit (lit ++ rest) = Some rest.
Proof. unfold expect. now rewrite prefix_app, drop_app. Qed.

Lemma match_in_n_units (ds tail : string) (u : unit_name) :
  ds <> EmptyString -> all_digits ds = true ->
  match_in_n ("in " ++ ds ++ " " ++ unit_text u ++ tail) = Some (ds, u).
Proof.
  intros Hne Hds. unfold match_in_n.
  rewrite expect_app.
  rewrite span_digits_app by (assumption || reflexivity).
  destruct ds as [| c ds]; [now elim Hne |].
  rewrite expect_app.
  destruct u; cbn [unit_text]; rewrite ?prefix_app; reflexivity.
Qed.



(** *** Dates in ISO format *)

Lemma digit_char_is_digit (d : Z) : is_digit (digit_char d) = true.
Proof.
  unfold digit_char.
  pose proof (Z.mod_pos_bound d 10 ltac:(lia)) as H.
  assert (C : d mod 10 = 0 \/ d mod 10 = 1 \/ d mod 10 = 2 \/ d mod 10 = 3
              \/ d mod 10 = 4 \/ d mod 10 = 5 \/ d mod 10 = 6
              \/ d mod 10 = 7 \/ d mod 10 = 8 \/ d mod 10 = 9) by lia.
  destruct C as [-> | [-> | [-> | [-> | [-> | [-> | [-> | [-> | [-> | ->]]]]]]]]];
    reflexivity.
Qed.

Lemma digit_is_plain (c : ascii) :
  is_digit c = true -> is_upper c = false /\ is_space c = false.
Proof.
  unfold is_digit, is_upper, is_space, between.
  rewrite andb_true_iff, !Z.leb_le. intros H. split.
  - apply andb_false_iff. left. apply Z.leb_gt. lia.
  - rewrite !orb_false_iff, !andb_false_iff, !Z.leb_gt, Z.eqb_neq. lia.
Qed.

Lemma is_plain_app (a b : string) :
  is_plain (a ++ b) = is_plain a && is_plain b.
Proof.
  induction a as [| c a IH]; cbn [append is_plain]; [reflexivity |].
  now rewrite IH, andb_assoc.
Qed.

Lemma is_plain_fmt02 (n : Z) : is_plain (fmt02 n) = true.
Proof.
  unfold fmt02. cbn [is_plain].
  destruct (digit_is_plain _ (digit_char_is_digit (n / 10))) as [-> ->].
  destruct (digit_is_plain _ (digit_char_is_digit n)) as [-> ->].
  reflexivity.
Qed.

Lemma plain_lower (s : string) : is_plain s = true -> lower s = s.
Proof.
  induction s as [| c r IH]; cbn [is_plain lower]; [reflexivity |].
  rewrite !andb_true_iff, !negb_true_iff. intros [[Hu _] Hr].
  unfold lower_char. now rewrite Hu, IH.
Qed.

Lemma plain_strip (s : string) : is_plain s = true -> strip s = s.
Proof.
  intros H. unfold strip.
  assert (L : lstrip s = s).
  { destruct s as [| c r]; [reflexivity |]. cbn [is_plain lstrip] in *.
    rewrite !andb_true_iff, !negb_true_iff in H.
    destruct H as [[_ Hs] _]. now rewrite Hs. }
  rewrite L. clear L.
  induction s as [| c r IH]; [reflexivity |].
  cbn [is_plain rstrip] in *.
  rewrite !andb_true_iff, !negb_true_iff in H.
  destruct H as [[_ Hs] Hr]. rewrite (IH Hr), Hs.
  now destruct r.
Qed.

Lemma digit_is_no_letter (c l : ascii) :
  is_digit c = true -> is_digit l = false -> Ascii.eqb c l = false.
Proof.
  intros Hc Hl. destruct (Ascii.eqb_spec c l) as [-> | _];
    [congruence | reflexivity].
Qed.

Lemma digit_is_no_prefix (c l : ascii) (p r : string) :
  is_digit c = true -> is_digit l = false ->
  String.prefix (String l p) (String c r) = false.
Proof.
  intros Hc Hl. cbn [String.prefix].
  destruct (ascii_dec l c) as [-> | _]; [congruence | reflexivity].
Qed.

(** No keyword block takes a string that starts with a digit. *)
Lemma digits_are_no_keyword (c : ascii) (r : string) :
  is_digit c = true -> is_keyword (String c r) = false.
Proof.
  intros Hc.
  unfold is_keyword, orelse, relative_dates, next_unit, in_n_units,
    day_names, match_in_n, expect, startswith, mem, days.
  cbn [existsb String.eqb].
  rewrite !(digit_is_no_letter c) by (assumption || reflexivity).
  rewrite !(digit_is_no_prefix c) by (assumption || reflexivity).
  reflexivity.
Qed.

Lemma int_of_fmt04_checked :
  forallb (fun y => int_of_digits (fmt04 y) =? y) (range 0 (Z.to_nat 10000))
  = true.
Proof. vm_cast_no_check (eq_refl true). Qed.

Lemma int_of_fmt04 (y : Z) :
  0 <= y <= 9999 -> int_of_digits (fmt04 y) = y.
Proof.
  intros Hy. pose proof int_of_fmt04_checked as H.
  rewrite forallb_forall in H. apply Z.eqb_eq. apply H.
  apply in_range. rewrite Z2Nat.id; lia.
Qed.

Lemma day_cases (d : Z) :
  1 <= d <= 31 ->
  d = 1 \/ d = 2 \/ d = 3 \/ d = 4 \/ d = 5 \/ d = 6 \/ d = 7 \/ d = 8
  \/ d = 9 \/ d = 10 \/ d = 11 \/ d = 12 \/ d = 13 \/ d = 14 \/ d = 15
  \/ d = 16 \/ d = 17 \/ d = 18 \/ d = 19 \/ d = 20 \/ d = 21 \/ d = 22
  \/ d = 23 \/ d = 24 \/ d = 25 \/ d = 26 \/ d = 27 \/ d = 28 \/ d = 29
  \/ d = 30 \/ d = 31.
Proof. lia. Qed.

Lemma read_month_and_day (acc : found) (m d : Z) :
  1 <= m <= 12 -> 1 <= d <= 31 ->
  read_format [Lit "-"; Dm; Lit "-"; Dd] acc
    ("-" ++ fmt02 m ++ "-" ++ fmt02 d)
  = Some (mk_found (f_year acc) m d, EmptyString).
Proof.
  intros Hm Hd.
  destruct (month_cases m Hm) as [-> | [-> | [-> | [-> | [-> | [-> | [-> | [-> | [-> | [-> | [-> | ->]]]]]]]]]]];
    repeat (destruct Hd as [Hd1 Hd2];
            destruct (day_cases d (conj Hd1 Hd2)) as [-> | [-> | [-> | [-> | [-> | [-> | [-> | [-> | [-> | [-> | [-> | [-> | [-> | [-> | [-> | [-> | [-> | [-> | [-> | [-> | [-> | [-> | [-> | [-> | [-> | [-> | [-> | [-> | [-> | [-> | ->]]]]]]]]]]]]]]]]]]]]]]]]]]]]]];
            reflexivity).
Qed.

(** X4: a date in ISO format, [YYYY-MM-DD] with a year other than
    1900, is taken as it is, whatever the clock says: the result is that
    day at midnight, never rolled into another year. *)
Theorem iso_date_is_taken_as_it_is (now : datetime) (y m d : Z) :
  valid_date y m d = true ->
  y <> 1900 ->
  parse_date now (iso_date y m d)
  = Returns (Some (iso_date y m d ++ "T00:00:00")%string).
Proof.
  intros Hv Hy.
  pose proof (valid_date_bounds _ _ _ Hv) as (By & Bm & Bd).
  assert (Bd31 : 1 <= d <= 31).
  { split; [lia |]. unfold days_in_month in Bd.
    destruct ((m =? 2) && is_leap y); [lia |].
    destruct (month_cases m Bm) as [-> | [-> | [-> | [-> | [-> | [-> | [-> | [-> | [-> | [-> | [-> | ->]]]]]]]]]]];
      cbn in Bd; lia. }
  assert (Hplain : is_plain (iso_date y m d) = true).
  { unfold iso_date, fmt04.
    rewrite !is_plain_app, !is_plain_fmt02. reflexivity. }
  assert (Hshape : iso_date y m d
            = String (digit_char (y / 100 / 10))
                (String (digit_char (y / 100))
                   (String (digit_char (y mod 100 / 10))
                      (String (digit_char (y mod 100))
                         ("-" ++ fmt02 m ++ "-" ++ fmt02 d)))))
    by reflexivity.
  assert (Hread : strptime (iso_date y m d) fmt_Y_m_d
                  = Returns (mk_datetime y m d 0 0 0 0)).
  { unfold strptime, fmt_Y_m_d. rewrite Hshape.
    change (read_format (DY :: [Lit "-"; Dm; Lit "-"; Dd])) with
      (fun acc s =>
         match read_directive DY acc s with
         | Some (acc', r) => read_format [Lit "-"; Dm; Lit "-"; Dd] acc' r
         | None => None
         end).
    cbv beta. cbn [read_directive read_Y].
    rewrite !digit_char_is_digit. cbn [andb take].
    change (String (digit_char (y / 100 / 10))
              (String (digit_char (y / 100))
                 (String (digit_char (y mod 100 / 10))
                    (String (digit_char (y mod 100)) EmptyString))))
      with (fmt04 y).
    rewrite int_of_fmt04 by lia.
    rewrite read_month_and_day by assumption.
    cbn [f_year f_month f_day]. now rewrite Hv. }
  assert (Hgo : parse_date now (iso_date y m d)
                = parse_normalised (midnight now)
                    (strip (lower (iso_date y m d))))
    by (rewrite Hshape; reflexivity).
  rewrite Hgo, (plain_lower _ Hplain), (plain_strip _ Hplain).
  unfold parse_normalised. rewrite not_a_keyword
    by (rewrite Hshape; apply digits_are_no_keyword, digit_char_is_digit).
  unfold formats. cbn [try_formats]. unfold try_format. rewrite Hread.
  cbn [obind year]. apply Z.eqb_neq in Hy. rewrite Hy. cbn [obind].
  reflexivity.
Qed.

(** On 1 March 2024 the past date 2023-12-25 stays in 2023. *)
Lemma iso_date_is_taken_as_it_is_witness :
  parse_date (mk_datetime 2024 3 1 8 30 0 0) (iso_date 2023 12 25)
  = Returns (Some (iso_date 2023 12 25 ++ "T00:00:00")%string).
Proof.
  apply iso_date_is_taken_as_it_is; [reflexivity | lia].
Defined.

(** *** What [parse_date] can end in *)

Lemma only_overflow_obind {A B : Type} (o : outcome A) (f : A -> outcome B) :
  only_overflow o -> (forall a, only_overflow (f a)) ->
  only_overflow (obind o f).
Proof. destruct o; cbn [obind only_overflow]; auto. Qed.

Lemma only_overflow_add_days (t : datetime) (k : Z) :
  only_overflow (add_days t k).
Proof.
  unfold add_days. cbv zeta.
  destruct ((0 <? toordinal t + k) && (toordinal t + k <=? MAXORDINAL));
    [| reflexivity].
  now destruct (ord2ymd (toordinal t + k)) as [[y m] d].
Qed.

Lemma only_overflow_timedelta (k : Z) : only_overflow (timedelta_days k).
Proof.
  unfold timedelta_days. now destruct (Z.abs k <=? MAX_DELTA_DAYS).
Qed.

Lemma only_overflow_plus_days (t : datetime) (k : Z) :
  only_overflow (iso (plus_days t k)).
Proof.
  unfold iso, plus_days. apply only_overflow_obind; [| intros; exact I].
  apply only_overflow_obind;
    [apply only_overflow_timedelta | intros; apply only_overflow_add_days].
Qed.

Lemma only_overflow_plus_weeks (t : datetime) (k : Z) :
  only_overflow (iso (plus_weeks t k)).
Proof.
  unfold iso, plus_weeks, timedelta_weeks.
  apply only_overflow_obind; [| intros; exact I].
  apply only_overflow_obind;
    [apply only_overflow_timedelta | intros; apply only_overflow_add_days].
Qed.

Lemma mem_days (s : string) :
  mem s days = true -> In s days.
Proof.
  unfold mem. rewrite existsb_exists. intros (x & Hx & E).
  apply String.eqb_eq in E. now subst x.
Qed.

(** [days.index] finds what the test before it let through. *)
Lemma day_names_index (s : string) :
  mem s days || (startswith "next " s && mem (drop 5 s) days) = true ->
  index_of (replace "next " "" s) days <> None.
Proof.
  intros H. apply orb_prop in H as [H | H].
  - apply mem_days in H. cbn in H.
    repeat (destruct H as [<- | H]; [vm_compute; intros E; discriminate E |]).
    contradiction.
  - apply andb_prop in H as [Hp H]. apply mem_days in H.
    unfold startswith in Hp. apply PruneFacts.prefix_drop in Hp.
    change (String.length "next ") with 5%nat in Hp.
    rewrite Hp. unfold days in H. cbn [In] in H.
    repeat (destruct H as [<- | H]; [vm_compute; intros E; discriminate E |]).
    contradiction.
Qed.

Lemma block_ok_orelse {A : Type} (a b : option (outcome A)) :
  block_ok a -> block_ok b -> block_ok (orelse a b).
Proof. destruct a; cbn [orelse block_ok]; auto. Qed.

Lemma block_ok_relative_dates (today : datetime) (s : string) :
  block_ok (relative_dates today s).
Proof.
  unfold relative_dates.
  destruct (String.eqb s "today"); [exact I |].
  destruct (String.eqb s "tomorrow"); [apply only_overflow_plus_days |].
  destruct (String.eqb s "yesterday"); [| exact I].
  unfold block_ok, iso. apply only_overflow_obind; [| intros; exact I].
  apply only_overflow_obind;
    [apply only_overflow_timedelta | intros; apply only_overflow_add_days].
Qed.

Lemma block_ok_next_unit (today : datetime) (s : string) :
  block_ok (next_unit today s).
Proof.
  unfold next_unit. destruct (startswith "next " s); [| exact I].
  destruct (String.eqb (drop 5 s) "week"); [apply only_overflow_plus_weeks |].
  destruct (String.eqb (drop 5 s) "month"); [apply only_overflow_plus_days |].
  exact I.
Qed.

Lemma block_ok_in_n_units (today : datetime) (s : string) :
  block_ok (in_n_units today s).
Proof.
  unfold in_n_units. destruct (match_in_n s) as [[ds u] |]; [| exact I].
  destruct u;
    [apply only_overflow_plus_days | apply only_overflow_plus_weeks
    | apply only_overflow_plus_days].
Qed.

Lemma block_ok_day_names (today : datetime) (s : string) :
  block_ok (day_names today s).
Proof.
  unfold day_names.
  destruct (mem s days || (startswith "next " s && mem (drop 5 s) days))
    eqn:Hd; [| exact I].
  pose proof (day_names_index s Hd) as Hi.
  destruct (index_of (replace "next " "" s) days);
    [apply only_overflow_plus_days | now elim Hi].
Qed.

Lemma block_ok_try_formats (today : datetime) (s : string)
    (fmts : list (list directive)) :
  block_ok (try_formats today s fmts).
Proof.
  induction fmts as [| fmt rest IH]; [exact I |].
  cbn [try_formats]. unfold try_format.
  pose proof (strptime_raises s fmt) as Hs.
  destruct (strptime s fmt) as [dt | n e | e]; cbn [obind].
  - destruct (year dt =? 1900); cbn [obind]; [| exact I].
    unfold replace_year at 1.
    destruct (valid_date (year today) (month dt) (day dt)); cbn [obind];
      [| exact IH].
    match goal with |- context [lt ?a today] => destruct (lt a today) end;
      cbn [obind]; [| exact I].
    unfold replace_year.
    cbn [year month day hour minute second microsecond].
    destruct (valid_date (year today + 1) (month dt) (day dt)); cbn [obind];
      [exact I | exact IH].
  - contradiction.
  - subst e. exact IH.
Qed.


End TemporalMore.
Module CrmMore.
Import PyStr PyDate Store Crm AuditSpec StoreFacts CrmFacts DealSpec DealFacts.
Import Queries CrmSpec.
Local Open Scope list_scope.

#[local] Arguments apply_updates : simpl never.

(** *** What the commands leave behind *)

Lemma update_contact_run (v : env) (a : contact_args) (d d' : db)
    (o : outcome printed) :
  run (update_contact v a) d = (o, d') ->
  d' = d /\ (forall out, o <> Returns out)
  \/ exists row,
       fetchone (id_or_label "name" (c_id a)) (contacts d) = Some row
       /\ o = Returns (Updated (col "id" row) (contact_updates v a))
       /\ d' = mk_db (updated (col "id" row) (contact_updates v a) (contacts d))
                 (deals d) (interactions d) (tasks d)
                 (audit d ++ [mk_audit "contacts" (col "id" row) UPDATE
                                (dumps_if (Some row))
                                (dumps_if (Some (contact_updates v a)))
                                (c_reason a) None
                                (current_timestamp (eng v))]).
Proof.
  unfold run. intros H.
  destruct (update_contact v a (connect d)) as [o' k] eqn:E. cbn [snd] in H.
  injection H as -> <-.
  commands in E; reduce E; repeat step E; unfold ret, sys_exit in E;
    injection E as <- <-; cbn [committed];
    try (left; split; [reflexivity | discriminate]).
  all: right; eexists; split; [reflexivity |].
  all: unfold contact_updates, contact_fields, updated, add_audit;
    cbn [contacts deals interactions tasks audit].
  all: match goal with H : _ = _ :: _ |- _ => rewrite H end.
  all: split; reflexivity.
Qed.

Lemma update_deal_run (v : env) (a : deal_args) (d d' : db)
    (o : outcome printed) :
  run (update_deal v a) d = (o, d') ->
  d' = d /\ (forall out, o <> Returns out)
  \/ exists row x,
       fetchone (id_or_label "title" (d_id a)) (deals d) = Some row
       /\ deal_updates v a x <> []
       /\ o = Returns (Updated (col "id" row) (deal_updates v a x))
       /\ d' = mk_db (contacts d)
                 (updated (col "id" row)
                    (deal_updates v a x
                     ++ [("updated_at", Text (isoformat (now v)))])
                    (deals d))
                 (interactions d) (tasks d)
                 (audit d ++ [mk_audit "deals" (col "id" row) UPDATE
                                (dumps_if (Some row))
                                (Some (deal_updates v a x)) (d_reason a) None
                                (current_timestamp (eng v))]).
Proof.
  unfold run. intros H.
  destruct (update_deal v a (connect d)) as [o' k] eqn:E. cbn [snd] in H.
  injection H as -> <-.
  commands in E; reduce E; repeat step E; unfold ret, sys_exit in E;
    injection E as <- <-; cbn [committed];
    try (left; split; [reflexivity | discriminate]).
  all: try match goal with
            | H : truthy (Some "") = true |- _ => discriminate H
            end.
  all: right; unfold add_audit, updated;
    cbn [deals contacts interactions tasks audit].
  all: match goal with
       | H : _ = ?p :: ?l |- _ =>
           assert (Hne : p :: l <> []) by discriminate;
           change (p :: l ++ [("updated_at", Text (isoformat (now v)))])
             with ((p :: l) ++ [("updated_at", Text (isoformat (now v)))]);
           rewrite <- H in *; clear H
       end.
  all: repeat match goal with
              | H : truthy ?e = _ |- _ => clear H
              end.
  all: eexists.
  all: first [ exists None; unfold deal_updates;
               split; [reflexivity |]; split; [exact Hne |];
               split; reflexivity
             | eexists (Some _); unfold deal_updates;
               split; [reflexivity |]; split; [exact Hne |];
               split; reflexivity ].
Qed.

Lemma complete_task_run (v : env) (a : task_args) (d d' : db)
    (o : outcome printed) :
  run (complete_task v a) d = (o, d') ->
  d' = d /\ (forall out, o <> Returns out)
  \/ exists row,
       fetchone (id_or_label "title" (t_id a)) (tasks d) = Some row
       /\ o = Returns (Completed [("id", col "id" row);
                                  ("title", col "title" row)])
       /\ d' = mk_db (contacts d) (deals d) (interactions d)
                 (updated (col "id" row)
                    [("completed_at", Text (isoformat (now v)))] (tasks d))
                 (audit d ++ [mk_audit "tasks" (col "id" row) UPDATE
                                (dumps_if (Some row))
                                (Some [("completed_at",
                                        Text (isoformat (now v)))])
                                (t_reason a) None
                                (current_timestamp (eng v))]).
Proof.
  unfold run. intros H.
  destruct (complete_task v a (connect d)) as [o' k] eqn:E. cbn [snd] in H.
  injection H as -> <-.
  commands in E; reduce E; repeat step E; unfold ret, sys_exit in E;
    injection E as <- <-; cbn [committed];
    try (left; split; [reflexivity | discriminate]).
  right. eexists. split; [reflexivity |]. split; reflexivity.
Qed.

Lemma delete_contact_run (v : env) (a : contact_args) (d : db) :
  run (delete_contact v a) d
  = match fetchone (fun r => sql_eqb (col "id" r) (Text (c_id a)))
            (contacts d) with
    | None => (Exits 1 ("Contact not found: " ++ c_id a)%string, d)
    | Some old =>
        (Returns (Deleted [("id", Text (c_id a)); ("name", col "name" old)]),
         mk_db (filter (fun r => negb (sql_eqb (col "id" (snd r))
                                         (Text (c_id a))))
                  (contacts d))
           (deals d) (interactions d) (tasks d)
           (audit d ++ [mk_audit "contacts" (Text (c_id a)) DELETE
                          (dumps_if (Some old)) None (c_reason a) None
                          (current_timestamp (eng v))]))
    end.
Proof.
  unfold run.
  destruct (delete_contact v a (connect d)) as [o k] eqn:E.
  commands in E; reduce E; repeat step E; unfold ret, sys_exit in E;
    injection E as <- <-; reflexivity.
Qed.

Ltac resolve_contact :=
  unfold resolved_contact;
  repeat match goal with
         | H : ?x = _ |- context [match ?x with _ => _ end] => rewrite H
         end.

Lemma add_deal_run (v : env) (a : deal_args) (d : db) :
  run (add_deal v a) d
  = match parsed v (d_expected_close a) with
    | Returns expected =>
        (Returns (Created [("id", Text (new_id (eng v)));
                           ("title", opt (d_title a));
                           ("value", opt_real (d_value a));
                           ("stage", Text (or_default (d_stage a) "lead"))]),
         mk_db (contacts d)
           (deals d ++ [(next_rowid (deals d), deal_row v d a expected)])
           (interactions d) (tasks d)
           (audit d ++ [mk_audit "deals" (Text (new_id (eng v))) INSERT None
                          (Some [("title", opt (d_title a));
                                 ("value", opt_real (d_value a));
                                 ("stage",
                                  Text (or_default (d_stage a) "lead"))])
                          (d_reason a) None (current_timestamp (eng v))]))
    | Exits n e => (Exits n e, d)
    | Raises e => (Raises e, d)
    end.
Proof.
  unfold run.
  destruct (add_deal v a (connect d)) as [o k] eqn:E.
  commands in E; reduce E; repeat step E; unfold ret, sys_exit in E;
    injection E as <- <-; unfold parsed, deal_row; resolve_contact;
    try reflexivity;
    match goal with
    | H : Temporal.parse_date _ _ = _ |- _ => rewrite H; reflexivity
    end.
Qed.

Lemma add_task_run (v : env) (a : task_args) (d : db) :
  run (add_task v a) d
  = match parsed v (t_due a) with
    | Returns due =>
        (Returns (Created [("id", Text (new_id (eng v)));
                           ("title", opt (t_title a)); ("due_at", due)]),
         mk_db (contacts d) (deals d) (interactions d)
           (tasks d ++ [(next_rowid (tasks d), task_row v d a due)])
           (audit d ++ [mk_audit "tasks" (Text (new_id (eng v))) INSERT None
                          (Some [("title", opt (t_title a)); ("due", due)])
                          (t_reason a) None (current_timestamp (eng v))]))
    | Exits n e => (Exits n e, d)
    | Raises e => (Raises e, d)
    end.
Proof.
  unfold run.
  destruct (add_task v a (connect d)) as [o k] eqn:E.
  commands in E; reduce E; repeat step E; unfold ret, sys_exit in E;
    injection E as <- <-; unfold parsed, task_row; resolve_contact;
    try reflexivity;
    match goal with
    | H : Temporal.parse_date _ _ = _ |- _ => rewrite H; reflexivity
    end.
Qed.

Lemma log_interaction_run (v : env) (a : interaction_args) (d : db) :
  run (log_interaction v a) d
  = match parsed_or_now v (i_date a) with
    | Returns occurred =>
        (Returns (Logged [("id", Text (new_id (eng v)));
                          ("type", Text (i_type a));
                          ("contact_id", resolved_contact d (i_contact a))]),
         mk_db (contacts d) (deals d)
           (interactions d
            ++ [(next_rowid (interactions d), interaction_row v d a occurred)])
           (tasks d)
           (audit d ++ [mk_audit "interactions" (Text (new_id (eng v))) INSERT
                          None
                          (Some [("type", Text (i_type a));
                                 ("summary", Text (take 100 (i_summary a)))])
                          (i_reason a) None (current_timestamp (eng v))]))
    | Exits n e => (Exits n e, d)
    | Raises e => (Raises e, d)
    end.
Proof.
  unfold run.
  destruct (log_interaction v a (connect d)) as [o k] eqn:E.
  commands in E; reduce E; repeat step E; unfold ret, sys_exit in E;
    injection E as <- <-; unfold parsed_or_now, parsed, interaction_row;
    resolve_contact;
    repeat match goal with
           | H : truthy _ = _ |- _ => rewrite H
           end;
    try reflexivity;
    match goal with
    | H : Temporal.parse_date _ _ = _ |- _ => rewrite H; reflexivity
    end.
Qed.

(** *** Rows under [UPDATE] and under the join *)

Lemma col_apply_updates_absent (k : string) (updates r : row) :
  ~ In k (map fst updates) -> col k (apply_updates updates r) = col k r.
Proof.
  intros H. unfold col. rewrite lookup_apply_updates.
  destruct (lookup k r) as [v0 |]; [| reflexivity].
  cbn [option_map]. now rewrite last_assign_absent.
Qed.

Lemma col_apply_updates_last (k : string) (updates r : row) (v : sqlval) :
  lookup k r <> None ->
  col k (apply_updates (updates ++ [(k, v)]) r) = v.
Proof.
  intros H. unfold col. rewrite lookup_apply_updates.
  destruct (lookup k r) as [v0 |]; [| now elim H].
  cbn [option_map]. rewrite last_assign_app.
  cbn [last_assign fold_left fst snd]. now rewrite String.eqb_refl.
Qed.

Lemma identity_updated (id : sqlval) (updates : row) (x : table) :
  ~ In "id" (map fst updates) -> ~ In "created_at" (map fst updates) ->
  identity (updated id updates x) = identity x.
Proof.
  intros Hid Hc. unfold identity, updated. rewrite map_map.
  apply map_ext. intros [n r]. cbn [fst snd].
  destruct (sql_eqb (col "id" r) id); cbn [fst snd]; [| reflexivity].
  now rewrite !col_apply_updates_absent.
Qed.

Lemma contact_updates_keys (v : env) (a : contact_args) (k : string) :
  In k (map fst (contact_updates v a)) ->
  In k ["updated_at"; "tags"; "name"; "email"; "phone"; "company"; "role";
        "source"; "notes"].
Proof.
  unfold contact_updates. intros H.
  apply keys_dict_set in H as [-> | H]; [now left |].
  destruct (truthy (c_tags a)).
  - apply keys_dict_set in H as [-> | H]; [right; now left |].
    apply keys_collect in H. right. right. exact H.
  - apply keys_collect in H. right. right. exact H.
Qed.

Lemma deal_updates_keys (v : env) (a : deal_args) (x : option sqlval)
    (k : string) :
  In k (map fst (deal_updates v a x
                 ++ [("updated_at", Text (isoformat (now v)))])) ->
  In k ["updated_at"; "closed_at"; "expected_close"; "title"; "value";
        "currency"; "stage"; "probability"; "notes"].
Proof.
  rewrite map_app, in_app_iff. intros [H | [<- | []]]; [| now left].
  unfold deal_updates in H.
  assert (G : forall u, In k (map fst
                (match x with
                 | Some y => dict_set "expected_close" y u
                 | None => u
                 end)) -> k = "expected_close" \/ In k (map fst u)).
  { intros u Hu. destruct x; [now apply keys_dict_set in Hu | now right]. }
  destruct (is_terminal (d_stage a)).
  - apply keys_dict_set in H as [-> | H]; [right; now left |].
    apply G in H as [-> | H]; [right; right; now left |].
    apply keys_collect in H. right. right. right. exact H.
  - apply G in H as [-> | H]; [right; right; now left |].
    apply keys_collect in H. right. right. right. exact H.
Qed.


(** X7: an update never touches what identifies a record.  After
    [update-contact], [update-deal] and [complete-task], successful or
    not, the table holds the same records in the same order, each with
    the rowid, the id and the creation time it had. *)
Theorem updates_keep_identity (v : env) (d : db) :
  (forall a, identity (contacts (snd (run (update_contact v a) d)))
             = identity (contacts d))
  /\ (forall a, identity (deals (snd (run (update_deal v a) d)))
               = identity (deals d))
  /\ (forall a, identity (tasks (snd (run (complete_task v a) d)))
               = identity (tasks d)).
Proof.
  split; [| split]; intros a.
  - destruct (run (update_contact v a) d) as [o d'] eqn:E. cbn [snd].
    apply update_contact_run in E as [[-> _] | (row & _ & _ & ->)];
      [reflexivity |].
    cbn [contacts]. apply identity_updated; intros H;
      apply contact_updates_keys in H; cbn [In] in H;
      repeat (destruct H as [H | H]; [discriminate H |]); exact H.
  - destruct (run (update_deal v a) d) as [o d'] eqn:E. cbn [snd].
    apply update_deal_run in E as [[-> _] | (row & x & _ & _ & _ & ->)];
      [reflexivity |].
    cbn [deals]. apply identity_updated; intros H;
      apply deal_updates_keys in H; cbn [In] in H;
      repeat (destruct H as [H | H]; [discriminate H |]); exact H.
  - destruct (run (complete_task v a) d) as [o d'] eqn:E. cbn [snd].
    apply complete_task_run in E as [[-> _] | (row & _ & _ & ->)];
      [reflexivity |].
    cbn [tasks]. apply identity_updated; cbn [map fst In];
      intros [H | []]; discriminate H.
Qed.

(** X8: [delete-contact] takes the id and nothing else.  When no
    contact has exactly that id the command exits with "Contact not
    found", whatever the names, and nothing changes; otherwise every
    contact with that id is gone, the others stay in their order, and the
    audit trail receives the full row of the one that was found. *)
Theorem delete_contact_needs_the_exact_id (v : env) (a : contact_args)
    (d : db) :
  let same_id := fun r => sql_eqb (col "id" r) (Text (c_id a)) in
  let d' := snd (run (delete_contact v a) d) in
  match fetchone same_id (contacts d) with
  | None =>
      Forall (fun r => col "id" (snd r) <> Text (c_id a)) (contacts d)
      /\ run (delete_contact v a) d
         = (Exits 1 ("Contact not found: " ++ c_id a)%string, d)
  | Some old =>
      col "id" old = Text (c_id a)
      /\ fst (run (delete_contact v a) d)
         = Returns (Deleted [("id", Text (c_id a)); ("name", col "name" old)])
      /\ contacts d'
         = filter (fun r => negb (same_id (snd r))) (contacts d)
      /\ Forall (fun r => col "id" (snd r) <> Text (c_id a)) (contacts d')
      /\ exists e,
           audit d' = audit d ++ [e]
           /\ a_action e = DELETE
           /\ a_record_id e = Text (c_id a)
           /\ a_old_values e = dumps_if (Some old)
  end.
Proof.
  cbv zeta. rewrite delete_contact_run.
  destruct (fetchone _ (contacts d)) as [old |] eqn:E.
  - cbn [fst snd contacts audit].
    apply ResolverFacts.fetchone_some in E as (pre & n & post & _ & Hold & _).
    apply ResolverFacts.sql_eqb_text in Hold.
    split; [exact Hold |]. split; [reflexivity |]. split; [reflexivity |].
    split; [| eexists; repeat split].
    apply Forall_forall. intros r Hr. apply filter_In in Hr as [_ Hr].
    apply negb_true_iff in Hr. intros Heq.
    apply ResolverFacts.sql_eqb_text in Heq. congruence.
  - split; [| reflexivity].
    apply ResolverFacts.fetchone_none in E.
    eapply Forall_impl; [| exact E]. intros r Hr Heq. cbv beta in Hr.
    apply ResolverFacts.sql_eqb_text in Heq. congruence.
Qed.



(** *** Records that leave a listing *)

Lemma select_updated (p : row -> bool) (id : sqlval) (updates : row)
    (x : table) :
  Forall (fun r => sql_eqb (col "id" (snd r)) id = true ->
                   p (apply_updates updates (snd r)) = false) x ->
  select p (updated id updates x) = others id (select p x).
Proof.
  unfold select, updated, others.
  induction 1 as [| [n r] x Hr Hx IH]; [reflexivity |].
  cbn [map filter fst snd] in *.
  destruct (sql_eqb (col "id" r) id) eqn:E; cbn [snd].
  - rewrite (Hr eq_refl). rewrite IH.
    destruct (p r); cbn [map filter snd negb]; [now rewrite E | reflexivity].
  - destruct (p r); cbn [map filter snd negb]; rewrite ?E; cbn [negb];
      now rewrite IH.
Qed.

Lemma col_app_other (k k' : string) (v : sqlval) (r : row) :
  k <> k' -> col k (r ++ [(k', v)]) = col k r.
Proof.
  intros Hk. unfold col.
  induction r as [| [k0 v0] r IH]; cbn [app lookup].
  - destruct (String.eqb_spec k k'); [contradiction | reflexivity].
  - destruct (String.eqb k k0); [reflexivity | exact IH].
Qed.

Lemma in_insert_sorted (before : row -> row -> bool) (x y : row)
    (l : list row) :
  In y (insert_sorted before x l) <-> y = x \/ In y l.
Proof.
  induction l as [| z l IH]; cbn [insert_sorted In]; [intuition |].
  destruct (before z x); cbn [In]; [rewrite IH |]; intuition.
Qed.

Lemma in_order_by (before : row -> row -> bool) (y : row) (l : list row) :
  In y (order_by before l) <-> In y l.
Proof.
  induction l as [| x l IH]; cbn [order_by In]; [reflexivity |].
  rewrite in_insert_sorted, IH. intuition.
Qed.

Lemma in_sql_limit {A : Type} (n : Z) (l : list A) (y : A) :
  In y (sql_limit n l) -> In y l.
Proof.
  unfold sql_limit. destruct (n <? 0); [auto | apply PruneFacts.in_firstn].
Qed.

Lemma in_with_contact_name (d : db) (t r : row) :
  In r (with_contact_name d t) ->
  forall k, k <> "contact_name"%string -> col k r = col k t.
Proof.
  unfold with_contact_name. intros H k Hk.
  destruct (select _ (contacts d)) as [| c cs].
  - destruct H as [<- | []]. now apply col_app_other.
  - apply in_map_iff in H as (c' & <- & _). now apply col_app_other.
Qed.

(** X10: closing a deal takes it out of the pipeline, and nothing
    else.  After an [update-deal] that sets the stage to won or lost, the
    deals that count as open are those that did before, in the same
    order, without the deal that was updated. *)
Theorem closing_a_deal_takes_it_out_of_the_pipeline (v : env) (a : deal_args)
    (d d' : db) (out : printed) :
  run (update_deal v a) d = (Returns out, d') ->
  is_terminal (d_stage a) = true ->
  has_column "stage" (deals d) ->
  select open_stage (deals d')
  = others (affected_id out) (select open_stage (deals d)).
Proof.
  intros Hrun Ht Hcol.
  apply update_deal_run in Hrun as [[_ Hno] | (row & x & _ & _ & Ho & ->)];
    [now elim (Hno out) |].
  injection Ho as ->. cbn [deals affected_id].
  apply select_updated. unfold has_column in Hcol.
  eapply Forall_impl; [| exact Hcol]. intros [n r] Hr _. cbn [snd] in *.
  unfold open_stage, col. rewrite lookup_apply_updates.
  destruct (lookup "stage" r) as [s0 |]; [| now elim Hr].
  cbn [option_map]. rewrite stage_after.
  unfold is_terminal in Ht. destruct (d_stage a) as [s |]; [| discriminate].
  now rewrite Ht.
Qed.

Lemma closing_a_deal_takes_it_out_of_the_pipeline_witness :
  exists out d',
    run (update_deal
           (example_env (mk_datetime 2024 2 1 12 0 0 0) "" "2024-02-01 12:00:00")
           (with_stage "redesign" "lost")) one_of_each
    = (Returns out, d')
    /\ select open_stage (deals one_of_each) <> []
    /\ select open_stage (deals d') = [].
Proof.
  assert (E : exists out d',
            run (update_deal
                   (example_env (mk_datetime 2024 2 1 12 0 0 0) ""
                      "2024-02-01 12:00:00")
                   (with_stage "redesign" "lost")) one_of_each
            = (Returns out, d')).
  { vm_compute. eexists. eexists. reflexivity. }
  destruct E as (out & d' & E).
  exists out, d'. split; [exact E |]. split; [discriminate |].
  rewrite (closing_a_deal_takes_it_out_of_the_pipeline _ _ _ _ _ E eq_refl).
  - vm_compute in E. injection E as <- _. vm_compute. reflexivity.
  - repeat constructor. discriminate.
Defined.

(** X11: a completed task is no longer pending.  After a successful
    [complete-task] the pending tasks are those that were pending before
    without the one that was completed, no listing of pending tasks shows
    it, and its [completed_at] is the time of this completion whether or
    not it had been completed before. *)
Theorem completed_task_is_no_longer_pending (v : env) (a : task_args)
    (d d' : db) (out : printed) :
  run (complete_task v a) d = (Returns out, d') ->
  has_column "completed_at" (tasks d) ->
  select pending (tasks d')
  = others (affected_id out) (select pending (tasks d))
  /\ (forall utc limit rows,
        fst (run (list_tasks utc true false limit) d') = Returns rows ->
        Forall (fun r => sql_eqb (col "id" r) (affected_id out) = false) rows)
  /\ Forall (fun r => sql_eqb (col "id" (snd r)) (affected_id out) = true ->
                      col "completed_at" (snd r)
                      = Text (isoformat (now v)))
       (tasks d').
Proof.
  intros Hrun Hcol.
  apply complete_task_run in Hrun as [[_ Hno] | (row & _ & Ho & ->)];
    [now elim (Hno out) |].
  injection Ho as ->. cbn [tasks].
  change (affected_id _) with (col "id" row).
  assert (Hsel : select pending
                   (updated (col "id" row)
                      [("completed_at", Text (isoformat (now v)))] (tasks d))
                 = others (col "id" row) (select pending (tasks d))).
  { apply select_updated. unfold has_column in Hcol.
    eapply Forall_impl; [| exact Hcol]. intros [n r] Hr _. cbn [snd] in *.
    unfold pending.
    pose proof (col_apply_updates_last "completed_at" [] r
                  (Text (isoformat (now v))) Hr) as Hc.
    cbn [app] in Hc. now rewrite Hc. }
  split; [exact Hsel |]. split.
  - intros utc limit rows. unfold run, list_tasks, query, connect.
    cbn [fst working tasks]. intros [= <-].
    apply Forall_forall. intros r Hr.
    apply in_sql_limit, in_order_by, filter_In in Hr as [Hr Hp].
    apply in_flat_map in Hr as (t & Ht & Hr).
    pose proof (in_with_contact_name _ _ _ Hr) as Hsame.
    unfold pending in Hp.
    rewrite Hsame in Hp by discriminate. rewrite Hsame by discriminate.
    assert (Hin : In t (select pending
                          (updated (col "id" row)
                             [("completed_at", Text (isoformat (now v)))]
                             (tasks d)))).
    { unfold select. apply in_map_iff in Ht as (y & <- & Hy).
      apply in_map. apply filter_In. split; [exact Hy | exact Hp]. }
    rewrite Hsel in Hin. unfold others in Hin.
    apply filter_In in Hin as [_ Hin]. now apply negb_true_iff in Hin.
  - unfold updated. apply Forall_forall. intros y Hy.
    apply in_map_iff in Hy as ([n r] & <- & Hy). cbn [fst snd].
    unfold has_column in Hcol. rewrite Forall_forall in Hcol.
    specialize (Hcol _ Hy). cbn [snd] in Hcol.
    destruct (sql_eqb (col "id" r) (col "id" row)) eqn:E; cbn [snd].
    + intros _.
      apply (col_apply_updates_last "completed_at" [] r
               (Text (isoformat (now v))) Hcol).
    + intros H. rewrite E in H. discriminate H.
Qed.

Lemma completed_task_is_no_longer_pending_witness :
  exists out d',
    run (complete_task
           (example_env (mk_datetime 2024 1 13 17 0 0 0) ""
              "2024-01-13 17:00:00")
           (mk_task_args "proposal" None None None None None None))
      one_of_each
    = (Returns out, d')
    /\ select pending (tasks one_of_each) <> []
    /\ select pending (tasks d') = [].
Proof.
  assert (E : exists out d',
            run (complete_task
                   (example_env (mk_datetime 2024 1 13 17 0 0 0) ""
                      "2024-01-13 17:00:00")
                   (mk_task_args "proposal" None None None None None None))
              one_of_each
            = (Returns out, d')).
  { vm_compute. eexists. eexists. reflexivity. }
  destruct E as (out & d' & E).
  exists out, d'. split; [exact E |]. split; [discriminate |].
  rewrite (proj1 (completed_task_is_no_longer_pending _ _ _ _ _ E
                    ltac:(repeat constructor; discriminate))).
  vm_compute in E. injection E as <- _. vm_compute. reflexivity.
Defined.

Lemma dumps_if_dict_set (k : string) (x : sqlval) (u : row) :
  dumps_if (Some (dict_set k x u)) = Some (dict_set k x u).
Proof.
  destruct u as [| [k0 v0] u]; cbn [dict_set]; [reflexivity |].
  destruct (String.eqb k k0); reflexivity.
Qed.

(** X12: the audit entry of an update records what was written.  Its
    old values are the row that the identifier resolved to and its new
    values are the assignments of the [UPDATE], so that the table after
    the command is the table before with the new values applied to the
    record the entry names; [update-deal] alone writes one thing more
    than it records, the [updated_at] stamp. *)
Theorem update_is_what_the_audit_entry_records (v : env) (d : db) :
  (forall a out d',
     run (update_contact v a) d = (Returns out, d') ->
     exists e old new,
       audit d' = audit d ++ [e]
       /\ fetchone (id_or_label "name" (c_id a)) (contacts d) = Some old
       /\ a_old_values e = dumps_if (Some old)
       /\ a_new_values e = Some new
       /\ contacts d' = updated (a_record_id e) new (contacts d))
  /\ (forall a out d',
       run (update_deal v a) d = (Returns out, d') ->
       exists e old new,
         audit d' = audit d ++ [e]
         /\ fetchone (id_or_label "title" (d_id a)) (deals d) = Some old
         /\ a_old_values e = dumps_if (Some old)
         /\ a_new_values e = Some new
         /\ deals d'
            = updated (a_record_id e)
                (new ++ [("updated_at", Text (isoformat (now v)))])
                (deals d))
  /\ (forall a out d',
       run (complete_task v a) d = (Returns out, d') ->
       exists e old new,
         audit d' = audit d ++ [e]
         /\ fetchone (id_or_label "title" (t_id a)) (tasks d) = Some old
         /\ a_old_values e = dumps_if (Some old)
         /\ a_new_values e = Some new
         /\ tasks d' = updated (a_record_id e) new (tasks d)).
Proof.
  split; [| split]; intros a out d' Hrun.
  - apply update_contact_run in Hrun as [[_ Hno] | (row & Hrow & _ & ->)];
      [now elim (Hno out) |].
    eexists. exists row. eexists. cbn [audit contacts].
    split; [reflexivity |]. split; [exact Hrow |].
    cbn [a_old_values a_new_values a_record_id].
    split; [reflexivity |]. split; [| reflexivity].
    unfold contact_updates. apply dumps_if_dict_set.
  - apply update_deal_run in Hrun
      as [[_ Hno] | (row & x & Hrow & _ & _ & ->)]; [now elim (Hno out) |].
    eexists. exists row. eexists. cbn [audit deals].
    split; [reflexivity |]. split; [exact Hrow |].
    cbn [a_old_values a_new_values a_record_id].
    split; [reflexivity |]. split; reflexivity.
  - apply complete_task_run in Hrun as [[_ Hno] | (row & Hrow & _ & ->)];
      [now elim (Hno out) |].
    eexists. exists row. eexists. cbn [audit tasks].
    split; [reflexivity |]. split; [exact Hrow |].
    cbn [a_old_values a_new_values a_record_id].
    split; [reflexivity |]. split; reflexivity.
Qed.

Lemma update_is_what_the_audit_entry_records_witness :
  exists out d' e new,
    run (update_deal
           (example_env (mk_datetime 2024 2 1 12 0 0 0) "" "2024-02-01 12:00:00")
           (with_stage "redesign" "proposal")) one_of_each
    = (Returns out, d')
    /\ audit d' = audit one_of_each ++ [e]
    /\ a_new_values e = Some new
    /\ deals d'
       = updated (a_record_id e)
           (new ++ [("updated_at", Text "2024-02-01T12:00:00")])
           (deals one_of_each).
Proof.
  assert (E : exists out d',
            run (update_deal
                   (example_env (mk_datetime 2024 2 1 12 0 0 0) ""
                      "2024-02-01 12:00:00")
                   (with_stage "redesign" "proposal")) one_of_each
            = (Returns out, d')).
  { vm_compute. eexists. eexists. reflexivity. }
  destruct E as (out & d' & E).
  destruct (proj1 (proj2 (update_is_what_the_audit_entry_records
              (example_env (mk_datetime 2024 2 1 12 0 0 0) ""
                 "2024-02-01 12:00:00") one_of_each)) _ out d' E)
    as (e & old & new & Ha & _ & _ & Hn & Hd).
  exists out, d', e, new. split; [exact E |]. split; [exact Ha |].
  split; [exact Hn | exact Hd].
Defined.

End CrmMore.
Module QueryFacts.
Import PyStr PyDate Store Crm Queries CrmSpec.
Local Open Scope list_scope.

(** *** [ORDER BY] and [LIMIT] *)

Lemma sorts_before_asym (a b : sqlval) :
  sorts_before a b = true -> sorts_before b a = false.
Proof.
  assert (HQ : forall x y, negb (Qle_bool y x) = true ->
                           negb (Qle_bool x y) = false).
  { intros x y H. apply negb_true_iff in H. apply negb_false_iff.
    apply Qle_bool_iff. apply Qlt_le_weak. apply Qnot_le_lt.
    intros Hle. apply Qle_bool_iff in Hle. congruence. }
  destruct a, b; cbn; try discriminate; try reflexivity; try apply HQ;
    try apply PruneFacts.str_lt_asym.
Qed.

Lemma insert_sorted_sorted (before : row -> row -> bool) (x : row)
    (l : list row) :
  (forall a b, before a b = true -> before b a = false) ->
  Sorted (fun a b => before b a = false) l ->
  Sorted (fun a b => before b a = false) (insert_sorted before x l).
Proof.
  intros Hasym. induction 1 as [| y t Ht IH Hy]; cbn [insert_sorted].
  - repeat constructor.
  - destruct (before y x) eqn:E.
    + constructor; [exact IH |].
      destruct t as [| z t]; cbn [insert_sorted].
      * constructor. now apply Hasym.
      * destruct (before z x); constructor;
          [now inversion Hy | now apply Hasym].
    + constructor; [now constructor | now constructor].
Qed.

Lemma order_by_sorted (before : row -> row -> bool) (l : list row) :
  (forall a b, before a b = true -> before b a = false) ->
  Sorted (fun a b => before b a = false) (order_by before l).
Proof.
  intros Hasym. induction l as [| x l IH]; cbn [order_by]; [constructor |].
  now apply insert_sorted_sorted.
Qed.

Lemma insert_sorted_length (before : row -> row -> bool) (x : row)
    (l : list row) :
  List.length (insert_sorted before x l) = S (List.length l).
Proof.
  induction l as [| y t IH]; cbn [insert_sorted]; [reflexivity |].
  destruct (before y x); cbn [List.length]; [now rewrite IH | reflexivity].
Qed.

Lemma order_by_length (before : row -> row -> bool) (l : list row) :
  List.length (order_by before l) = List.length l.
Proof.
  induction l as [| x l IH]; cbn [order_by]; [reflexivity |].
  now rewrite insert_sorted_length, IH.
Qed.

Lemma sorted_firstn {A : Type} (R : A -> A -> Prop) (n : nat) (l : list A) :
  Sorted R l -> Sorted R (firstn n l).
Proof.
  revert l. induction n as [| n IH]; intros l H; [constructor |].
  destruct l as [| x l]; [constructor |]. cbn [firstn].
  inversion H as [| ? ? Hl Hx]; subst. constructor; [now apply IH |].
  destruct l as [| y l]; [destruct n; constructor |].
  destruct n; cbn [firstn]; constructor. now inversion Hx.
Qed.


(** *** The pipeline and the statistics *)

Lemma in_distinct (x : string) (l : list string) :
  In x (distinct l) <-> In x l.
Proof.
  induction l as [| y l IH]; cbn [distinct In]; [reflexivity |].
  rewrite filter_In, IH, negb_true_iff. split.
  - intros [-> | [H _]]; auto.
  - intros [-> | H]; [now left |].
    destruct (String.eqb_spec y x) as [-> | Hne]; [now left | right; auto].
Qed.

Lemma nodup_distinct (l : list string) : NoDup (distinct l).
Proof.
  induction l as [| y l IH]; cbn [distinct]; constructor.
  - rewrite filter_In, negb_true_iff, String.eqb_refl. intros [_ H].
    discriminate H.
  - now apply NoDup_filter.
Qed.

Lemma insert_by_rank_perm (x : stage_summary) (l : list stage_summary) :
  Permutation (insert_by_rank x l) (x :: l).
Proof.
  induction l as [| y t IH]; cbn [insert_by_rank]; [reflexivity |].
  destruct (stage_rank (s_stage y) <? stage_rank (s_stage x));
    [| reflexivity].
  rewrite IH. apply perm_swap.
Qed.

Lemma order_by_rank_perm (l : list stage_summary) :
  Permutation (order_by_rank l) l.
Proof.
  induction l as [| x l IH]; cbn [order_by_rank]; [reflexivity |].
  rewrite insert_by_rank_perm. now constructor.
Qed.

Lemma fold_left_add_acc (l : list Z) (a : Z) :
  fold_left Z.add l a = a + fold_right Z.add 0 l.
Proof.
  revert a. induction l as [| x l IH]; intros a; cbn [fold_left fold_right];
    [lia |].
  rewrite IH. lia.
Qed.

Lemma fold_right_add_perm (l l' : list Z) :
  Permutation l l' -> fold_right Z.add 0 l = fold_right Z.add 0 l'.
Proof. induction 1; cbn [fold_right]; lia. Qed.

Lemma fold_left_Qplus_acc (l : list Q) (a : Q) :
  (fold_left Qplus l a == a + fold_right Qplus 0 l)%Q.
Proof.
  revert a. induction l as [| x l IH]; intros a; cbn [fold_left fold_right].
  - ring.
  - rewrite IH. ring.
Qed.

Lemma fold_right_Qplus_perm (l l' : list Q) :
  Permutation l l' ->
  (fold_right Qplus 0 l == fold_right Qplus 0 l')%Q.
Proof.
  induction 1 as [| x l l' _ IH | x y l | l l' l'' _ IH1 _ IH2];
    cbn [fold_right].
  - reflexivity.
  - now rewrite IH.
  - ring.
  - now rewrite IH1.
Qed.

(** The rows whose stage is among [ks], and their count and value *)
Lemma count_by_stage (rows : list row) (ks : list string) :
  NoDup ks ->
  fold_right Z.add 0
    (map (fun k => Z.of_nat
            (List.length
               (filter (fun r => String.eqb (stage_text r) k) rows))) ks)
  = Z.of_nat
      (List.length
         (filter (fun r => existsb (String.eqb (stage_text r)) ks) rows)).
Proof.
  induction 1 as [| k ks Hk Hks IH]; cbn [map fold_right existsb].
  - induction rows as [| r rows IHr]; [reflexivity | exact IHr].
  - rewrite IH. clear IH.
    induction rows as [| r rows IHr]; [reflexivity |].
    cbn [filter].
    destruct (String.eqb_spec (stage_text r) k) as [E | Hne]; cbn [orb].
    + replace (existsb (String.eqb (stage_text r)) ks) with false.
      * cbn [List.length]. lia.
      * symmetry. apply not_true_is_false. intros Hex.
        apply existsb_exists in Hex as (k' & Hin & Heq).
        apply String.eqb_eq in Heq. congruence.
    + destruct (existsb (String.eqb (stage_text r)) ks); cbn [List.length];
        lia.
Qed.

Lemma or_zero_sql_sum (terms : list (option Q)) :
  (or_zero (sql_sum terms) == fold_right Qplus 0 (map or_zero terms))%Q.
Proof.
  induction terms as [| [x |] terms IH]; cbn [sql_sum map fold_right or_zero].
  - reflexivity.
  - destruct (sql_sum terms) as [y |]; cbn [or_zero] in *.
    + now rewrite IH.
    + rewrite <- IH. ring.
  - rewrite IH. ring.
Qed.

Lemma value_by_stage (rows : list row) (ks : list string) :
  NoDup ks ->
  (fold_right Qplus 0
     (map (fun k => or_zero
             (sum_value (filter (fun r => String.eqb (stage_text r) k) rows)))
        ks)
   == or_zero
        (sum_value
           (filter (fun r => existsb (String.eqb (stage_text r)) ks) rows)))%Q.
Proof.
  unfold sum_value.
  induction 1 as [| k ks Hk Hks IH]; cbn [map fold_right existsb].
  - rewrite or_zero_sql_sum.
    induction rows as [| r rows IHr]; [reflexivity | exact IHr].
  - rewrite IH. clear IH. rewrite !or_zero_sql_sum.
    induction rows as [| r rows IHr]; [cbn; ring |].
    cbn [filter].
    destruct (String.eqb_spec (stage_text r) k) as [E | Hne]; cbn [orb].
    + replace (existsb (String.eqb (stage_text r)) ks) with false.
      * cbn [map fold_right]. rewrite <- IHr. ring.
      * symmetry. apply not_true_is_false. intros Hex.
        apply existsb_exists in Hex as (k' & Hin & Heq).
        apply String.eqb_eq in Heq. congruence.
    + destruct (existsb (String.eqb (stage_text r)) ks);
        cbn [map fold_right]; rewrite <- IHr; ring.
Qed.

Lemma filter_all {A : Type} (p : A -> bool) (l : list A) :
  (forall x, In x l -> p x = true) -> filter p l = l.
Proof.
  induction l as [| x l IH]; intros H; [reflexivity |]. cbn [filter].
  rewrite (H x (or_introl eq_refl)). f_equal. apply IH.
  intros y Hy. apply H. now right.
Qed.

Lemma every_stage_listed (rows : list row) :
  filter (fun r => existsb (String.eqb (stage_text r))
                     (distinct (map stage_text rows))) rows
  = rows.
Proof.
  apply filter_all. intros r Hr. apply existsb_exists.
  exists (stage_text r). split; [| apply String.eqb_refl].
  apply in_distinct. now apply in_map.
Qed.


End QueryFacts.
Module DueFacts.
Import PyStr PyDate Store Crm Queries Digest DueSpec.
Local Open Scope list_scope.

(** *** The order of strings that print numbers *)

Lemma compare_cons (a b : ascii) (s t : string) :
  String_as_OT.compare (String a s) (String b t)
  = match Ascii_as_OT.compare a b with
    | Eq => String_as_OT.compare s t
    | Lt => Lt
    | Gt => Gt
    end.
Proof. reflexivity. Qed.

Lemma compare_same_char (c : ascii) (s t : string) :
  String_as_OT.compare (String c s) (String c t) = String_as_OT.compare s t.
Proof.
  rewrite compare_cons. unfold Ascii_as_OT.compare.
  now rewrite N.compare_refl.
Qed.

Lemma digit_cases (a : Z) :
  0 <= a < 10 ->
  a = 0 \/ a = 1 \/ a = 2 \/ a = 3 \/ a = 4 \/ a = 5 \/ a = 6 \/ a = 7
  \/ a = 8 \/ a = 9.
Proof. lia. Qed.

Lemma compare_digit (a b : Z) :
  0 <= a < 10 -> 0 <= b < 10 ->
  Ascii_as_OT.compare (digit_char a) (digit_char b) = (a ?= b).
Proof.
  intros Ha Hb.
  destruct (digit_cases a Ha) as [-> | [-> | [-> | [-> | [-> | [-> | [-> | [-> | [-> | ->]]]]]]]]];
    destruct (digit_cases b Hb) as [-> | [-> | [-> | [-> | [-> | [-> | [-> | [-> | [-> | ->]]]]]]]]];
    reflexivity.
Qed.

Lemma digit_char_mod (a : Z) : digit_char a = digit_char (a mod 10).
Proof. unfold digit_char. now rewrite Z.mod_mod by lia. Qed.

Lemma compare_fmt02 (a b : Z) (s t : string) :
  0 <= a < 100 -> 0 <= b < 100 ->
  String_as_OT.compare (fmt02 a ++ s) (fmt02 b ++ t)
  = match a ?= b with
    | Eq => String_as_OT.compare s t
    | c => c
    end.
Proof.
  intros Ha Hb. unfold fmt02. cbn [append].
  rewrite (digit_char_mod a), (digit_char_mod b).
  rewrite !compare_cons.
  rewrite (compare_digit (a / 10) (b / 10))
    by (split; [apply Z.div_pos | apply Z.div_lt_upper_bound]; lia).
  rewrite (compare_digit (a mod 10) (b mod 10))
    by (apply Z.mod_pos_bound; lia).
  pose proof (Z.div_mod a 10 ltac:(lia)).
  pose proof (Z.div_mod b 10 ltac:(lia)).
  pose proof (Z.mod_pos_bound a 10 ltac:(lia)).
  pose proof (Z.mod_pos_bound b 10 ltac:(lia)).
  destruct (Z.compare_spec (a / 10) (b / 10));
    destruct (Z.compare_spec (a mod 10) (b mod 10));
    destruct (Z.compare_spec a b); try reflexivity; lia.
Qed.

Lemma compare_fmt04 (a b : Z) (s t : string) :
  0 <= a < 10000 -> 0 <= b < 10000 ->
  String_as_OT.compare (fmt04 a ++ s) (fmt04 b ++ t)
  = match a ?= b with
    | Eq => String_as_OT.compare s t
    | c => c
    end.
Proof.
  intros Ha Hb. unfold fmt04. rewrite !PruneFacts.append_assoc.
  pose proof (Z.div_mod a 100 ltac:(lia)).
  pose proof (Z.div_mod b 100 ltac:(lia)).
  pose proof (Z.mod_pos_bound a 100 ltac:(lia)).
  pose proof (Z.mod_pos_bound b 100 ltac:(lia)).
  assert (0 <= a / 100 < 100)
    by (split; [apply Z.div_pos | apply Z.div_lt_upper_bound]; lia).
  assert (0 <= b / 100 < 100)
    by (split; [apply Z.div_pos | apply Z.div_lt_upper_bound]; lia).
  rewrite compare_fmt02 by assumption.
  rewrite compare_fmt02 by assumption.
  destruct (Z.compare_spec (a / 100) (b / 100));
    destruct (Z.compare_spec (a mod 100) (b mod 100));
    destruct (Z.compare_spec a b); try reflexivity; lia.
Qed.

(** Two texts that start with a date [YYYY-MM-DD] compare as the days
    do, and as what follows the dates when the days are the same. *)
Lemma compare_date_texts (a b : datetime) (s t : string) :
  calendar_day a -> calendar_day b ->
  String_as_OT.compare
    (fmt04 (year a) ++ "-" ++ fmt02 (month a) ++ "-" ++ fmt02 (day a) ++ s)
    (fmt04 (year b) ++ "-" ++ fmt02 (month b) ++ "-" ++ fmt02 (day b) ++ t)
  = match compare_days a b with
    | Eq => String_as_OT.compare s t
    | c => c
    end.
Proof.
  intros (Hya & Hma & Hda) (Hyb & Hmb & Hdb). unfold compare_days.
  rewrite compare_fmt04 by lia.
  destruct (year a ?= year b); try reflexivity.
  cbn [append]. rewrite compare_same_char.
  rewrite compare_fmt02 by lia.
  destruct (month a ?= month b); try reflexivity.
  cbn [append]. rewrite compare_same_char.
  rewrite compare_fmt02 by lia. reflexivity.
Qed.

Lemma compare_days_antisym (a b : datetime) :
  compare_days b a = CompOpp (compare_days a b).
Proof.
  unfold compare_days.
  rewrite (Z.compare_antisym (year a)), (Z.compare_antisym (month a)),
    (Z.compare_antisym (day a)).
  destruct (year a ?= year b), (month a ?= month b), (day a ?= day b);
    reflexivity.
Qed.

(** X15: for [stats] and for [list-tasks --overdue] a pending task
    whose due date [parse_date] recognised is overdue exactly when its
    day lies before the current day of UTC.  The stored text has a [T]
    where [datetime('now')] has a blank, so that on the day itself the
    task is not overdue at any time of that day. *)
Theorem overdue_is_decided_by_the_utc_day (t utc : datetime) (r : row) :
  calendar_day t -> calendar_day utc ->
  col "due_at" r = Text (isoformat (midnight t)) ->
  overdue utc r = pending r && earlier_day t utc.
Proof.
  intros Ht Hu Hdue. unfold overdue, pending. rewrite Hdue.
  f_equal. unfold sql_ltb, sorts_before, str_lt, earlier_day.
  unfold isoformat, sql_datetime, midnight.
  cbn [year month day hour minute second microsecond].
  rewrite (compare_date_texts t utc) by assumption.
  destruct (compare_days t utc); reflexivity.
Qed.

Lemma overdue_is_decided_by_the_utc_day_witness :
  overdue (mk_datetime 2024 1 13 23 59 59 0)
    (task_due (mk_datetime 2024 1 13 9 30 0 0)) = false
  /\ overdue (mk_datetime 2024 1 14 0 0 0 0)
       (task_due (mk_datetime 2024 1 13 9 30 0 0)) = true.
Proof.
  split.
  - rewrite (overdue_is_decided_by_the_utc_day
               (mk_datetime 2024 1 13 9 30 0 0)
               (mk_datetime 2024 1 13 23 59 59 0)).
    + reflexivity.
    + unfold calendar_day. cbn. lia.
    + unfold calendar_day. cbn. lia.
    + reflexivity.
  - rewrite (overdue_is_decided_by_the_utc_day
               (mk_datetime 2024 1 13 9 30 0 0)
               (mk_datetime 2024 1 14 0 0 0 0)).
    + reflexivity.
    + unfold calendar_day. cbn. lia.
    + unfold calendar_day. cbn. lia.
    + reflexivity.
Defined.

(** X16: the digest files a pending task that is due today under
    the overdue tasks, not under today's.  Its bounds of today keep the
    microseconds of the clock, so that the stored midnight of today lies
    before the start of today unless the digest runs on a whole second;
    a task due on an earlier day is overdue and one due later is
    neither. *)
Theorem digest_takes_today_for_overdue (t now : datetime) (r : row) :
  calendar_day t -> calendar_day now ->
  col "due_at" r = Text (isoformat (midnight t)) ->
  due_today now r
  = pending r && same_day t now && (microsecond now =? 0)
  /\ overdue_before_today now r
     = pending r
       && (earlier_day t now
           || (same_day t now && negb (microsecond now =? 0))).
Proof.
  intros Ht Hn Hdue.
  unfold due_today, overdue_before_today, pending. rewrite Hdue.
  unfold sql_leb, sql_geb, sql_ltb, sorts_before, str_lt, earlier_day,
    same_day.
  unfold today_start, today_end, isoformat, midnight.
  cbn [year month day hour minute second microsecond].
  rewrite (compare_date_texts t now) by assumption.
  rewrite (compare_date_texts now t) by assumption.
  rewrite (compare_days_antisym t now).
  destruct (is_null (col "completed_at" r)); [| split; reflexivity].
  destruct (compare_days t now); cbn [CompOpp andb orb negb];
    destruct (microsecond now =? 0); split; reflexivity.
Qed.

Lemma digest_takes_today_for_overdue_witness :
  due_today (mk_datetime 2024 1 13 8 0 0 250000)
    (task_due (mk_datetime 2024 1 13 9 30 0 0)) = false
  /\ overdue_before_today (mk_datetime 2024 1 13 8 0 0 250000)
       (task_due (mk_datetime 2024 1 13 9 30 0 0)) = true.
Proof.
  destruct (digest_takes_today_for_overdue
              (mk_datetime 2024 1 13 9 30 0 0)
              (mk_datetime 2024 1 13 8 0 0 250000)
              (task_due (mk_datetime 2024 1 13 9 30 0 0))) as [H1 H2].
  - unfold calendar_day. cbn. lia.
  - unfold calendar_day. cbn. lia.
  - reflexivity.
  - split; [rewrite H1 | rewrite H2]; reflexivity.
Defined.

End DueFacts.
Module DigestFacts.
Import PyStr PyDate Store Crm AuditSpec DealSpec DealFacts Queries Digest.
Import CrmSpec.
Local Open Scope list_scope.

Lemma lookup_dict_set_other (k k' : string) (v : sqlval) (d : row) :
  k <> k' -> lookup k (dict_set k' v d) = lookup k d.
Proof.
  intros Hk. induction d as [| [k0 w] d IH]; cbn [dict_set lookup].
  - destruct (String.eqb_spec k k'); [contradiction | reflexivity].
  - destruct (String.eqb_spec k' k0) as [-> | _]; cbn [lookup].
    + destruct (String.eqb_spec k k0); [contradiction | reflexivity].
    + now rewrite IH.
Qed.

(** The dictionary of updates holds a stage exactly when [--stage] was
    given. *)
Lemma stage_in_updates (v : env) (a : deal_args) (x : option sqlval) :
  lookup "stage" (deal_updates v a x) = option_map Text (d_stage a).
Proof.
  unfold deal_updates.
  assert (E : lookup "stage" (collect (deal_fields a))
              = option_map Text (d_stage a)).
  { unfold deal_fields.
    destruct (d_title a), (d_value a), (d_currency a), (d_stage a),
      (d_probability a), (d_notes a); reflexivity. }
  destruct (is_terminal (d_stage a)), x;
    rewrite ?lookup_dict_set_other by discriminate; exact E.
Qed.

(** X17: the digest reports the stage moves that [update-deal] makes,
    and only those.  After a successful [update-deal] its list of stage
    changes is the list before, followed by the move from the stage the
    deal had to the stage given, provided that a stage was given, that it
    differs from the one the deal had, and that the audit entry falls
    into the window of the digest; an update of other fields adds
    nothing. *)
Theorem digest_reports_the_stage_moves (v : env) (a : deal_args) (d d' : db)
    (out : printed) (now : datetime) (lookback_days : Z) :
  run (update_deal v a) d = (Returns out, d') ->
  exists row,
    fetchone (id_or_label "title" (d_id a)) (deals d) = Some row
    /\ deal_stage_changes now lookback_days d'
       = obind (yesterday now lookback_days) (fun since =>
         obind (deal_stage_changes now lookback_days d) (fun before =>
         Returns
           (before
            ++ match d_stage a with
               | Some s =>
                   if str_lt (current_timestamp (eng v)) since
                      || py_eqb (col "stage" row) (Text s)
                   then []
                   else [(col "stage" row, Text s)]
               | None => []
               end))).
Proof.
  intros Hrun.
  apply CrmMore.update_deal_run in Hrun
    as [[_ Hno] | (row & x & Hrow & Hne & _ & ->)]; [now elim (Hno out) |].
  exists row. split; [exact Hrow |].
  unfold deal_stage_changes.
  destruct (yesterday now lookback_days) as [since | n e | e];
    cbn [obind]; try reflexivity.
  f_equal. cbn [audit]. rewrite filter_app, flat_map_app. f_equal.
  cbn [filter]. unfold deal_update_since at 1.
  cbn [a_table_name a_action a_created_at String.eqb Ascii.eqb Bool.eqb andb].
  unfold stage_change.
  cbn [a_old_values a_new_values].
  assert (Hold : col "stage"
                   match dumps_if (Some row) with
                   | Some r => r
                   | None => []
                   end = col "stage" row) by (now destruct row).
  destruct (str_lt (current_timestamp (eng v)) since);
    cbn [negb orb flat_map]; [now destruct (d_stage a) |].
  unfold stage_change. cbn [a_old_values a_new_values].
  assert (Hnew : col "stage" (deal_updates v a x)
                 = match d_stage a with Some s => Text s | None => Null end).
  { unfold col. rewrite stage_in_updates. now destruct (d_stage a). }
  rewrite Hold, Hnew, stage_in_updates.
  destruct (d_stage a) as [s |]; cbn [option_map]; [| reflexivity].
  destruct (py_eqb (col "stage" row) (Text s)); reflexivity.
Qed.

Lemma digest_reports_the_stage_moves_witness :
  exists out d',
    run (update_deal
           (example_env (mk_datetime 2024 2 1 12 0 0 0) "" "2024-02-01 12:00:00")
           (with_stage "redesign" "proposal")) one_of_each
    = (Returns out, d')
    /\ deal_stage_changes (mk_datetime 2024 2 2 7 0 0 0) 2 one_of_each
       = Returns []
    /\ deal_stage_changes (mk_datetime 2024 2 2 7 0 0 0) 2 d'
       = Returns [(Text "lead", Text "proposal")].
Proof.
  assert (E : exists out d',
            run (update_deal
                   (example_env (mk_datetime 2024 2 1 12 0 0 0) ""
                      "2024-02-01 12:00:00")
                   (with_stage "redesign" "proposal")) one_of_each
            = (Returns out, d')).
  { vm_compute. eexists. eexists. reflexivity. }
  destruct E as (out & d' & E).
  exists out, d'. split; [exact E |]. split; [vm_compute; reflexivity |].
  destruct (digest_reports_the_stage_moves _ _ _ _ _
              (mk_datetime 2024 2 2 7 0 0 0) 2 E) as (row & Hrow & ->).
  vm_compute in Hrow. injection Hrow as <-. vm_compute. reflexivity.
Defined.

End DigestFacts.
Module BackupMore.
Import PyStr PyDate Backup BackupSpec BackupFacts PruneFacts BackupCli.
Import BackupMoreSpec.
Local Open Scope list_scope.

(** *** The name of a backup *)

Lemma digit_is_no_slash (c : ascii) :
  is_digit c = true -> (code c =? 47) = false.
Proof.
  unfold is_digit, between. intros H. apply andb_prop in H as [H _].
  apply Z.leb_le in H. apply Z.eqb_neq. lia.
Qed.

Lemma has_slash_app (a b : string) :
  has_slash (a ++ b) = has_slash a || has_slash b.
Proof.
  induction a as [| c a IH]; cbn [append has_slash]; [reflexivity |].
  now rewrite IH, orb_assoc.
Qed.

Lemma has_slash_fmt02 (n : Z) : has_slash (fmt02 n) = false.
Proof.
  unfold fmt02. cbn [has_slash].
  now rewrite !digit_is_no_slash by apply TemporalMore.digit_char_is_digit.
Qed.

Lemma stamp_has_no_slash (t : datetime) : has_slash (strftime_stamp t) = false.
Proof.
  unfold strftime_stamp, fmt04.
  rewrite !has_slash_app, !has_slash_fmt02. reflexivity.
Qed.

Lemma length_app (a b : string) :
  String.length (a ++ b) = (String.length a + String.length b)%nat.
Proof.
  induction a as [| c a IH]; cbn [append String.length]; [reflexivity |].
  now rewrite IH.
Qed.

Lemma backup_name_is_one (t : datetime) :
  is_backup_name (backup_name t) = true
  /\ has_slash (backup_name t) = false.
Proof.
  unfold backup_name. split.
  - unfold is_backup_name, startswith, endswith.
    rewrite TemporalMore.prefix_app. cbn [andb].
    rewrite <- PruneFacts.append_assoc.
    set (x := ("crm_backup_" ++ strftime_stamp t)%string).
    rewrite length_app. cbn [String.length].
    replace (String.length x + 3 - 3)%nat with (String.length x) by lia.
    rewrite TemporalMore.drop_app. cbn [String.eqb Ascii.eqb Bool.eqb andb].
    assert (11 <= String.length x)%nat
      by (unfold x; rewrite length_app; cbn [String.length]; lia).
    rewrite ?andb_true_r.
    repeat (apply andb_true_intro; split);
      first [reflexivity | apply Nat.leb_le; lia].
  - rewrite !has_slash_app, stamp_has_no_slash. reflexivity.
Qed.

Lemma joined_path_not_empty (d n : string) :
  exists c p, (d ++ "/" ++ n)%string = String c p.
Proof. destruct d; cbn [append]; eauto. Qed.

Section Taking.

Variable DB_PATH BACKUP_DIR : string.
Variable now : datetime.
Variable clock : Z.
Variable iso_of_stamp : string -> Z -> string.
Variable has_contacts : string -> bool.
Variable denied : string -> bool.

Local Notation "'glob'" := (glob_backups BACKUP_DIR iso_of_stamp).
Local Notation "'backup_path'" := (in_backup_dir BACKUP_DIR (backup_name now)).

Lemma name_of_backup_path :
  name_in_dir BACKUP_DIR backup_path = Some (backup_name now).
Proof.
  unfold name_in_dir, in_backup_dir, startswith.
  rewrite <- PruneFacts.append_assoc.
  rewrite TemporalMore.prefix_app, TemporalMore.drop_app.
  now rewrite (proj2 (backup_name_is_one now)).
Qed.

(** A file written under the name of a backup is listed with its size. *)
Lemma glob_after_write (f : file) (s : fs) :
  In (mk_info backup_path (backup_name now)
        (Z.of_nat (String.length (data f)))
        (iso_of_stamp (stamp_text (backup_name now)) (mtime f)))
     (glob (fs_write backup_path f s)).
Proof.
  induction s as [| [q g] s IH]; cbn [fs_write glob_backups].
  - rewrite name_of_backup_path, (proj1 (backup_name_is_one now)). now left.
  - destruct (String.eqb_spec backup_path q) as [<- | Hne];
      cbn [glob_backups].
    + rewrite name_of_backup_path, (proj1 (backup_name_is_one now)). now left.
    + destruct (name_in_dir BACKUP_DIR q) as [n |]; [| exact IH].
      destruct (is_backup_name n); [now right | exact IH].
Qed.

(** Writing a file that is not a backup leaves the listing as it was. *)
Lemma glob_write_other (q : string) (g : file) (s : fs) :
  match name_in_dir BACKUP_DIR q with
  | Some n => is_backup_name n = false
  | None => True
  end ->
  glob (fs_write q g s) = glob s.
Proof.
  intros Hq. induction s as [| [p f] s IH]; cbn [fs_write glob_backups].
  - destruct (name_in_dir BACKUP_DIR q) as [n |]; [now rewrite Hq | reflexivity].
  - destruct (String.eqb_spec q p) as [<- | Hne]; cbn [glob_backups].
    + destruct (name_in_dir BACKUP_DIR q) as [n |]; [now rewrite Hq | reflexivity].
    + now rewrite IH.
Qed.

Lemma note_is_no_backup (p : string) :
  match name_in_dir BACKUP_DIR (p ++ ".note") with
  | Some n => is_backup_name n = false
  | None => True
  end.
Proof.
  destruct (name_in_dir BACKUP_DIR (p ++ ".note")) as [n |] eqn:E; [| exact I].
  unfold name_in_dir in E.
  destruct (startswith _ _); [| discriminate E].
  destruct (has_slash _); [discriminate E |]. injection E as <-.
  unfold is_backup_name, endswith.
  match goal with
  | |- context [String.eqb ?x ".db"] => destruct (String.eqb_spec x ".db") as [Hx | _]
  end; [| now rewrite !andb_false_r].
  exfalso.
  assert (L : last_char (p ++ ".note")%string = Some "e"%char)
    by (rewrite last_char_app; [reflexivity | discriminate]).
  assert (L' : last_char (p ++ ".note")%string = Some "b"%char).
  { eapply last_char_drop. eapply last_char_drop. rewrite Hx. reflexivity. }
  congruence.
Qed.


Lemma name_in_dir_spec (p n : string) :
  name_in_dir BACKUP_DIR p = Some n
  <-> p = in_backup_dir BACKUP_DIR n /\ has_slash n = false.
Proof.
  unfold name_in_dir, in_backup_dir, startswith. split.
  - destruct (String.prefix (BACKUP_DIR ++ "/") p) eqn:Hp; [| discriminate].
    destruct (has_slash _) eqn:Hs; [discriminate |]. intros [= <-].
    split; [| exact Hs].
    apply prefix_drop in Hp. rewrite Hp at 1. apply PruneFacts.append_assoc.
  - intros [-> Hs]. rewrite <- PruneFacts.append_assoc.
    rewrite TemporalMore.prefix_app, TemporalMore.drop_app. now rewrite Hs.
Qed.

Lemma glob_spec (s : fs) (b : backup_info) :
  In b (glob s) <->
  exists f,
    In (path b, f) s
    /\ name_in_dir BACKUP_DIR (path b) = Some (filename b)
    /\ is_backup_name (filename b) = true
    /\ size_bytes b = Z.of_nat (String.length (data f))
    /\ created_at b = iso_of_stamp (stamp_text (filename b)) (mtime f).
Proof.
  induction s as [| [p f] s IH]; cbn [glob_backups In].
  - split; [contradiction | intros (f & [] & _)].
  - assert (Later : In b (glob s) <->
              exists f0, In (path b, f0) s
                /\ name_in_dir BACKUP_DIR (path b) = Some (filename b)
                /\ is_backup_name (filename b) = true
                /\ size_bytes b = Z.of_nat (String.length (data f0))
                /\ created_at b
                   = iso_of_stamp (stamp_text (filename b)) (mtime f0))
      by exact IH.
    destruct (name_in_dir BACKUP_DIR p) as [n |] eqn:Hn.
    + destruct (is_backup_name n) eqn:Hb; cbn [In].
      * split.
        -- intros [<- | H].
           ++ exists f. cbn [path filename size_bytes created_at]. auto 6.
           ++ apply Later in H as (f0 & H & R). exists f0. auto.
        -- intros (f0 & [E | H] & Hn' & Hb' & Hs & Hc).
           ++ left. injection E as -> ->. destruct b as [bp bn bs bc].
              cbn [path filename size_bytes created_at] in *.
              rewrite Hn in Hn'. injection Hn' as ->.
              now rewrite Hs, Hc.
           ++ right. apply Later. exists f0. auto.
      * split.
        -- intros H. apply Later in H as (f0 & H & R). exists f0. auto.
        -- intros (f0 & [E | H] & Hn' & Hb' & R).
           ++ injection E as -> ->. rewrite Hn in Hn'.
              injection Hn' as ->. congruence.
           ++ apply Later. exists f0. auto.
    + split.
      * intros H. apply Later in H as (f0 & H & R). exists f0. auto.
      * intros (f0 & [E | H] & Hn' & R).
        -- injection E as -> ->. congruence.
        -- apply Later. exists f0. auto.
Qed.

(** X19: [get_backup_files] lists the backups, all of them and
    nothing else, newest first.  An entry stands for a file that lies
    directly in the backup directory under a name of the form
    [crm_backup_*.db], with its size and the time its name or its
    modification time stands for; every such file has its entry; no entry
    carries a later time stamp than one before it; and the file system is
    left as it was. *)
Theorem get_backup_files_lists_the_backups_newest_first (w : world) :
  exists l,
    get_backup_files BACKUP_DIR iso_of_stamp w = (Returns l, w)
    /\ StronglySorted not_older l
    /\ (forall b,
          In b l <->
          exists f,
            In (path b, f) (files w)
            /\ path b = in_backup_dir BACKUP_DIR (filename b)
            /\ has_slash (filename b) = false
            /\ is_backup_name (filename b) = true
            /\ size_bytes b = Z.of_nat (String.length (data f))
            /\ created_at b
               = iso_of_stamp (stamp_text (filename b)) (mtime f))
    /\ (forall p f n,
          In (p, f) (files w) -> p = in_backup_dir BACKUP_DIR n ->
          has_slash n = false -> is_backup_name n = true ->
          exists b, In b l /\ path b = p /\ filename b = n).
Proof.
  exists (sorted_desc (glob (files w))). split; [reflexivity |].
  split; [apply sorted_desc_sorted |].
  assert (Hin : forall b, In b (sorted_desc (glob (files w)))
                          <-> In b (glob (files w))).
  { intros b. split; apply Permutation_in;
      [| symmetry]; apply sorted_desc_perm. }
  split.
  - intros b. rewrite Hin, glob_spec. split.
    + intros (f & Hf & Hn & R). apply name_in_dir_spec in Hn as [Hp Hs].
      exists f. auto 6.
    + intros (f & Hf & Hp & Hs & R). exists f. split; [exact Hf |].
      split; [now apply name_in_dir_spec | exact R].
  - intros p f n Hf Hp Hs Hb.
    exists (mk_info p n (Z.of_nat (String.length (data f)))
              (iso_of_stamp (stamp_text n) (mtime f))).
    split; [| split; reflexivity]. apply Hin, glob_spec.
    exists f. cbn [path filename size_bytes created_at].
    split; [exact Hf |]. split; [now apply name_in_dir_spec | auto].
Qed.

Local Notation "'restore'" :=
  (restore_database DB_PATH BACKUP_DIR now clock has_contacts denied).



(** X22: [restore] without a path takes the newest backup.  With no
    backup in the directory it reports "No backups found" and changes
    nothing; otherwise it does what [restore] does for the first entry
    of the listing, which is a backup of the directory than which none
    carries a later time stamp. *)
Theorem restore_without_a_path_takes_the_newest (confirm : bool) (w : world) :
  let run_main := main DB_PATH BACKUP_DIR now clock iso_of_stamp has_contacts
                    denied in
  run_main (CmdRestore (Some EmptyString) confirm) w
  = run_main (CmdRestore None confirm) w
  /\ match sorted_desc (glob (files w)) with
     | [] =>
         run_main (CmdRestore None confirm) w
         = (Returns (ErrorResult "No backups found"), w)
     | latest :: rest =>
         run_main (CmdRestore None confirm) w
         = run_main (CmdRestore (Some (path latest)) confirm) w
         /\ In latest (glob (files w))
         /\ Forall (fun b => str_lt (created_at latest) (created_at b) = false)
              rest
     end.
Proof.
  cbv zeta. split; [reflexivity |].
  pose proof (sorted_desc_sorted (glob (files w))) as Hs.
  pose proof (sorted_desc_perm (glob (files w))) as Hp.
  assert (E : forall path0,
            match path0 with Some (String _ _) => False | _ => True end ->
            main DB_PATH BACKUP_DIR now clock iso_of_stamp has_contacts denied
              (CmdRestore path0 confirm) w
            = match sorted_desc (glob (files w)) with
              | [] => (Returns (ErrorResult "No backups found"), w)
              | latest :: _ =>
                  bind (restore (path latest) confirm)
                    (fun r => ret (RestoreResult r)) w
              end).
  { intros path0 H0. unfold main, get_backup_files.
    destruct path0 as [[| c p] |]; try contradiction; rewrite fbind_read;
      now destruct (sorted_desc (glob (files w))). }
  rewrite (E None I).
  destruct (sorted_desc (glob (files w))) as [| latest rest]; [reflexivity |].
  assert (Hin : In latest (glob (files w)))
    by (eapply Permutation_in; [exact Hp | now left]).
  split; [| split; [exact Hin |]].
  - pose proof (glob_entry BACKUP_DIR iso_of_stamp denied (files w) latest Hin)
      as (_ & _ & Hpath & _).
    unfold main. rewrite Hpath. unfold in_backup_dir.
    destruct (joined_path_not_empty BACKUP_DIR (filename latest))
      as (c & p & ->).
    reflexivity.
  - inversion Hs as [| ? ? _ Hall]; subst. exact Hall.
Qed.

(** X23: a negative [--keep] deletes backups instead of keeping
    them.  [prune_backups] then never answers that no pruning is needed:
    it unlinks the last [-keep] entries of the listing, which are the
    oldest ones, with their notes, and all of the backups when there are
    no more than [-keep] of them, and reports [keep] as the number
    kept. *)
Theorem negative_keep_removes_the_oldest (keep : Z) (w : world) :
  keep < 0 ->
  NoDup (map fst (files w)) ->
  let backups := sorted_desc (glob (files w)) in
  let old := slice_from keep backups in
  (forall q, In q (doomed old) -> denied q = false) ->
  exists w',
    prune_backups BACKUP_DIR iso_of_stamp denied keep w
    = (Returns (Pruned keep (Z.of_nat (List.length old)) (map filename old)),
       w')
    /\ (forall q, In q (doomed old) -> fs_lookup q (files w') = None)
    /\ (forall q, ~ In q (doomed old) ->
          fs_lookup q (files w') = fs_lookup q (files w))
    /\ List.length old
       = Nat.min (Z.to_nat (- keep)) (List.length backups)
    /\ (Z.of_nat (List.length backups) <= - keep -> old = backups).
Proof.
  intros Hk Hnd backups old Hfree.
  assert (Eold : old = skipn (Z.to_nat (Z.of_nat (List.length backups) + keep))
                         backups).
  { unfold old, slice_from.
    destruct (Z.leb_spec 0 keep); [lia | reflexivity]. }
  assert (InB : forall b, In b backups -> In b (glob (files w))).
  { intros b Hb. eapply Permutation_in; [apply sorted_desc_perm | exact Hb]. }
  assert (NdB : NoDup (map path backups)).
  { eapply Permutation_NoDup;
      [| apply (glob_nodup BACKUP_DIR iso_of_stamp denied _ Hnd)].
    apply Permutation_map. symmetry. apply sorted_desc_perm. }
  assert (InOld : forall b, In b old -> In b (glob (files w))).
  { intros b Hb. apply InB. rewrite Eold in Hb. eapply in_skipn. exact Hb. }
  destruct (remove_loop_ok BACKUP_DIR iso_of_stamp denied old [] w)
    as (w' & R & Gone & Kept).
  - rewrite Eold.
    assert (S : map path backups
                = firstn (Z.to_nat (Z.of_nat (List.length backups) + keep))
                    (map path backups)
                  ++ map path
                       (skipn (Z.to_nat (Z.of_nat (List.length backups) + keep))
                          backups)).
    { now rewrite <- skipn_map, firstn_skipn. }
    rewrite S in NdB. now apply NoDup_app_remove_l in NdB.
  - intros b Hb.
    now apply InOld, (glob_entry BACKUP_DIR iso_of_stamp denied) in Hb.
  - intros b b' _ Hb'.
    apply (not_a_note BACKUP_DIR iso_of_stamp denied (files w)).
    now apply InOld.
  - exact Hfree.
  - exists w'. split; [| split; [exact Gone | split; [exact Kept |]]].
    + unfold prune_backups, get_backup_files. rewrite fbind_read.
      fold backups.
      destruct (Z.leb_spec (Z.of_nat (List.length backups)) keep); [lia |].
      fold old. unfold bind at 1. rewrite R. cbn [app].
      unfold ret. now rewrite length_map.
    + split.
      * rewrite Eold, length_skipn. lia.
      * intros Hall. rewrite Eold.
        replace (Z.to_nat (Z.of_nat (List.length backups) + keep)) with 0%nat
          by lia.
        reflexivity.
Qed.

End Taking.




Lemma negative_keep_removes_the_oldest_witness :
  exists w',
    prune_backups example_backup_dir example_iso nothing_denied (-7)
      five_backups
    = (Returns (Pruned (-7) 5 ["crm_backup_20240105_090000.db";
                               "crm_backup_20240104_090000.db";
                               "crm_backup_20240103_090000.db";
                               "crm_backup_20240102_090000.db";
                               "crm_backup_20240101_090000.db"]), w')
    /\ fs_lookup
         "/home/u/.local/share/agent-crm/backups/crm_backup_20240105_090000.db"
         (files w') = None.
Proof.
  destruct (negative_keep_removes_the_oldest example_backup_dir example_iso
              nothing_denied (-7) five_backups)
    as (w' & Hrun & Gone & _).
  - apply Z.ltb_lt. reflexivity.
  - exact BackupExamples.five_backups_distinct.
  - intros q _. reflexivity.
  - exists w'. split; [exact Hrun |]. apply Gone. vm_compute. tauto.
Defined.

End BackupMore.
